(** * MCFG container extractor (efs_mbn_extractor.py): model and properties

    A shallow embedding of [MbnExtractor] and [main] from
    [src/efs_mbn_extractor.py].

    - Python [bytes] are [list byte]; Python [int]s are [Z]; [str] is
      [string].
    - The code raises exceptions while it mutates the stream cursor and the
      file system, so a computation is a function from the world to an
      outcome AND the world at that moment: what was written before a
      [raise] stays written.
    - What [os.makedirs], [open], [write] and [flush] do in
      [_save_to_file] is the answer of the file system, which is part of
      the world: it writes the file, or one of these calls raises. The
      files written are recorded in order as [(file_name, content)]. The
      [logger] calls, which no result depends on, are left out. *)

From Stdlib Require Import String Ascii Strings.Byte.
From Stdlib Require Import ZArith List Bool Lia Arith.
Import ListNotations.

Open Scope Z_scope.

(** ** Exceptions *)

(** [MbnExtractorException] carries its message; [StructError] is
    [struct.error], [NameError] the failed lookup of a name.
    [LibraryError cls msg] is an exception of class [cls] with message
    [msg] raised inside a call of [os], of [open] and the file object, or
    of pyelftools: [ValueError], [IsADirectoryError], [ELFParseError] and
    the like. The last three are [Exception]s that are not
    [MbnExtractorException]s; that class is raised by this file only. *)
Inductive PyExc : Type :=
| MbnExtractorException (msg : string)
| StructError
| NameError (name : string)
| LibraryError (cls msg : string).

Inductive Res (A : Type) : Type :=
| Ok (a : A)
| Raise (e : PyExc).
Arguments Ok {A} a.
Arguments Raise {A} e.

(** ** The world: one [io.BytesIO], the files saved so far and the file
    system *)

Record BytesIO : Type := mkStream { buf : list byte; pos : nat }.

(** The answer of the file system to [_save_to_file(file_name, content,
    output_directory)] once the files [before] have been written in the
    run: [None] when the directories are made and the file is written,
    [Some (cls, msg)] when [os.makedirs], [open], [write] or [flush] raises
    an exception of class [cls]. The output directory does not change
    during a run, so the answer is a function of the name. *)
Definition FileSystem : Type :=
  list (string * list byte) -> string -> list byte -> option (string * string).

Record World : Type := mkWorld {
  stream : BytesIO;
  saved : list (string * list byte);
  file_system : FileSystem
}.

Definition M (A : Type) : Type := World -> Res A * World.

Definition ret {A} (a : A) : M A := fun w => (Ok a, w).

Definition raise {A} (e : PyExc) : M A := fun w => (Raise e, w).

Definition bind {A B} (c : M A) (k : A -> M B) : M B :=
  fun w =>
    match c w with
    | (Ok a, w') => k a w'
    | (Raise e, w') => (Raise e, w')
    end.

Notation "x <- c ;; k" := (bind c (fun x => k))
  (at level 61, c at next level, right associativity).
Notation "c ;;; k" := (bind c (fun _ => k))
  (at level 61, right associativity).

(** ** Stream primitives *)

Definition set_pos (w : World) (p : nat) : World :=
  mkWorld (mkStream (buf (stream w)) p) (saved w) (file_system w).

(** [stream.read(size)]: a negative size reads everything that is left; the
    cursor moves by what was actually read. *)
Definition stream_read (size : Z) : M (list byte) :=
  fun w =>
    let rest := skipn (pos (stream w)) (buf (stream w)) in
    let data := if size <? 0 then rest else firstn (Z.to_nat size) rest in
    (Ok data, set_pos w (pos (stream w) + length data)).

Definition stream_tell : M Z :=
  fun w => (Ok (Z.of_nat (pos (stream w))), w).

Definition stream_seek (idx : Z) : M unit :=
  fun w => (Ok tt, set_pos w (Z.to_nat idx)).

(** ** Bytes and text helpers *)

Definition byte_val (b : byte) : Z := Z.of_N (Byte.to_N b).

(** Little-endian value of a byte string. *)
Fixpoint le_int (bs : list byte) : Z :=
  match bs with
  | [] => 0
  | b :: t => byte_val b + 256 * le_int t
  end.

(** [struct.unpack("<H", data)[0]] and [struct.unpack("<I", data)[0]]:
    [struct.error] unless [data] has exactly the format's size. *)
Definition unpack_uint (width : nat) (data : list byte) : M Z :=
  if Nat.eqb (length data) width then ret (le_int data) else raise StructError.

Definition unpack_H : list byte -> M Z := unpack_uint 2.
Definition unpack_I : list byte -> M Z := unpack_uint 4.

Fixpoint is_prefix (p l : list byte) : bool :=
  match p, l with
  | [], _ => true
  | _ :: _, [] => false
  | a :: p', b :: l' => Byte.eqb a b && is_prefix p' l'
  end.

Fixpoint find_from (sub data : list byte) (i : Z) : Z :=
  if is_prefix sub data then i
  else match data with
       | [] => -1
       | _ :: t => find_from sub t (i + 1)
       end.

(** [data.find(sub)]: lowest index of [sub] in [data], or -1. *)
Definition bytes_find (data sub : list byte) : Z := find_from sub data 0.

Definition is_ascii (b : byte) : bool := byte_val b <? 128.

Fixpoint string_of_bytes (bs : list byte) : string :=
  match bs with
  | [] => EmptyString
  | b :: t => String (ascii_of_byte b) (string_of_bytes t)
  end.

(** [data.decode("ascii", errors="ignore")]: bytes above 0x7F are dropped. *)
Definition decode_ascii_ignore (data : list byte) : string :=
  string_of_bytes (filter is_ascii data).

(** [data.decode("ascii")] on bytes that are all ASCII, as those of the
    class constants are. *)
Definition decode_ascii (data : list byte) : string :=
  string_of_bytes data.

Fixpoint bytes_of_string (s : string) : list byte :=
  match s with
  | EmptyString => []
  | String c t => byte_of_ascii c :: bytes_of_string t
  end.

(** Decimal digits of a non-negative integer, most significant first. *)
Fixpoint dec_digits (fuel : nat) (n : Z) (acc : string) : string :=
  let acc' := String (ascii_of_nat (48 + Z.to_nat (n mod 10))) acc in
  match fuel with
  | O => acc'
  | S f => if n / 10 =? 0 then acc' else dec_digits f (n / 10) acc'
  end.

Definition str_of_nonneg (n : Z) : string :=
  dec_digits (Z.to_nat (Z.log2 n)) n EmptyString.

Fixpoint zeros (k : nat) : string :=
  match k with
  | O => EmptyString
  | S k' => String "0"%char (zeros k')
  end.

(** The format spec [0Nd] on a non-negative integer: at least [width]
    characters, padded on the left with the digit 0. *)
Definition format_0d (width : nat) (n : Z) : string :=
  let s := str_of_nonneg n in
  (zeros (width - String.length s) ++ s)%string.

(** Value of a string of decimal digits (used to read names back). *)
Fixpoint dec_value_from (acc : Z) (s : string) : option Z :=
  match s with
  | EmptyString => Some acc
  | String c t =>
      let d := Z.of_nat (nat_of_ascii c) - 48 in
      if (0 <=? d) && (d <=? 9) then dec_value_from (10 * acc + d) t else None
  end.

Definition dec_value (s : string) : option Z := dec_value_from 0 s.

(** ** Data classes *)

Record McfgHeader : Type := mkMcfgHeader {
  magic : string;
  format_type : Z;
  configuration_type : Z;
  items_count : Z;
  carrier_index : Z;
  reserved : Z;
  version : Z
}.

Record ItemHeader : Type := mkItemHeader {
  ih_length : Z;
  ih_type : Z;
  ih_attributes : Z;
  ih_reserved : Z
}.

(** [ItemType(IntEnum)] *)
Module ItemType.
Definition Nv : Z := 1.
Definition NvFile : Z := 2.
Definition File : Z := 4.
End ItemType.

(** ** MbnExtractor *)

Definition MAGIC : list byte := bytes_of_string "MCFG".
Definition TRAILER_MAGIC : list byte := bytes_of_string "MCFG_TRL".

Definition eof_error : PyExc :=
  MbnExtractorException "Unexpected EOF while reading MBN".

Definition _read_exact (size : Z) : M (list byte) :=
  data <- stream_read size ;;
  if negb (Z.of_nat (length data) =? size) then raise eof_error
  else ret data.

Definition _find_magic_and_seek (magic : list byte) : M unit :=
  data <- stream_read (-1) ;;
  let idx := bytes_find data magic in
  if idx =? -1 then
    raise (MbnExtractorException "Invalid MBN format. Can't find magic string")
  else stream_seek idx.

Definition read_H : M Z := d <- _read_exact 2 ;; unpack_H d.
Definition read_I : M Z := d <- _read_exact 4 ;; unpack_I d.

Definition _read_mcfg_header : M McfgHeader :=
  _find_magic_and_seek MAGIC ;;;
  magic_bytes <- _read_exact (Z.of_nat (length MAGIC)) ;;
  format_type <- read_H ;;
  configuration_type <- read_H ;;
  items_count <- read_I ;;
  carrier_index <- read_H ;;
  reserved <- read_H ;;
  version_id <- read_H ;;
  if negb (version_id =? 4995) then
    raise (MbnExtractorException "Invalid MBN header version id")
  else
  version_size <- read_H ;;
  if negb (version_size =? 4) then
    raise (MbnExtractorException "Invalid MBN header version size")
  else
  version <- read_I ;;
  ret (mkMcfgHeader (decode_ascii_ignore magic_bytes) format_type
         configuration_type items_count carrier_index reserved version).

(** [struct.unpack("<I B B H", data)] *)
Definition unpack_IBBH (data : list byte) : M ItemHeader :=
  if Nat.eqb (length data) 8 then
    ret (mkItemHeader (le_int (firstn 4 data))
           (le_int (firstn 1 (skipn 4 data)))
           (le_int (firstn 1 (skipn 5 data)))
           (le_int (skipn 6 data)))
  else raise StructError.

Definition _read_item_header : M ItemHeader :=
  data <- _read_exact 8 ;;
  unpack_IBBH data.

(** The path is built from [file_name] and the output directory; then
    [os.makedirs], [open], [write] and [flush] either all go through, and
    the file is written, or one of them raises and the exception leaves
    [_save_to_file]: nothing catches it there. A call that raises may
    leave directories, or a file cut short, behind; [saved] lists the
    files that were written whole. *)
Definition _save_to_file (file_name : string) (content : list byte) : M unit :=
  fun w =>
    match file_system w (saved w) file_name content with
    | Some (cls, msg) => (Raise (LibraryError cls msg), w)
    | None =>
        (Ok tt, mkWorld (stream w) (saved w ++ [(file_name, content)])
                  (file_system w))
    end.

Definition _parse_nv (item_header : ItemHeader) : M unit :=
  pos0 <- stream_tell ;;
  nv_id <- read_H ;;
  declared <- read_H ;;
  let data_length := declared - 1 in
  _ <- _read_exact 1 ;;
  data <- _read_exact data_length ;;
  pos1 <- stream_tell ;;
  let real_length := (pos1 - pos0) + 8 in
  if negb (real_length =? ih_length item_header) then
    raise (MbnExtractorException "Invalid NV item size")
  else
  let file_name := ("NvItem__" ++ format_0d 8 nv_id)%string in
  _save_to_file file_name data.

Definition _parse_file (item_header : ItemHeader) (is_nv_file : bool)
    (no_extra_data : bool) : M unit :=
  pos0 <- stream_tell ;;
  file_header_magic <- read_H ;;
  if negb (file_header_magic =? 1) then
    raise (MbnExtractorException "Invalid file header magic")
  else
  file_name_length <- read_H ;;
  raw_name <- _read_exact file_name_length ;;
  let file_name :=
    if 0 <? file_name_length then
      decode_ascii_ignore
        (firstn (Z.to_nat (Z.max 0 (file_name_length - 1))) raw_name)
    else EmptyString in
  file_size_magic <- read_H ;;
  if negb (file_size_magic =? 2) then
    raise (MbnExtractorException "Invalid file size magic")
  else
  declared <- read_H ;;
  let data_length := declared - 1 in
  _ <- _read_exact 1 ;;
  data <- _read_exact data_length ;;
  pos1 <- stream_tell ;;
  let real_length := (pos1 - pos0) + 8 in
  if negb (real_length =? ih_length item_header) then
    raise (MbnExtractorException "Invalid file item size")
  else
  let save_name :=
    if no_extra_data then file_name
    else if is_nv_file then (file_name ++ "__E1FF_F")%string
         else (file_name ++ "__81FF_0")%string in
  _save_to_file save_name data.

Definition _read_trailer : M unit :=
  _ <- _read_exact 4 ;;
  trailer_magic <- read_H ;;
  if negb (trailer_magic =? 10) then
    raise (MbnExtractorException "Invalid trailer magic 1")
  else
  _ <- _read_exact 2 ;;
  trailer_magic2 <- read_H ;;
  if negb (trailer_magic2 =? 161) then
    raise (MbnExtractorException "Invalid trailer magic 2")
  else
  data_length <- read_H ;;
  if data_length <? 8 then
    raise (MbnExtractorException "Invalid trailer size")
  else
  payload <- _read_exact (data_length - 8) ;;
  if negb (String.eqb (decode_ascii_ignore payload)
                      (decode_ascii TRAILER_MAGIC)) then
    raise (MbnExtractorException "Invalid trailer magic value")
  else ret tt.

(** The [if]/[elif] chain on [item_type] in the loop of [_parse_image]. *)
Definition dispatch (no_extra_data : bool) (item_header : ItemHeader)
  : M unit :=
  let item_type := ih_type item_header in
  if item_type =? ItemType.Nv then _parse_nv item_header
  else if item_type =? ItemType.NvFile then
    _parse_file item_header true no_extra_data
  else if item_type =? ItemType.File then
    _parse_file item_header false no_extra_data
  else raise (MbnExtractorException "Invalid MBN: unknown item type").

(** One turn of the loop of [_parse_image]. *)
Definition parse_item (no_extra_data : bool) : M unit :=
  item_header <- _read_item_header ;;
  dispatch no_extra_data item_header.

(** [for _ in range(n): body] *)
Fixpoint for_range (n : nat) (body : M unit) : M unit :=
  match n with
  | O => ret tt
  | S n' => body ;;; for_range n' body
  end.

Definition _parse_image (no_extra_data : bool) : M unit :=
  mcfg_header <- _read_mcfg_header ;;
  if items_count mcfg_header =? 0 then
    raise (MbnExtractorException "Invalid MBN header: zero items count")
  else
  let total_items_to_read := Z.max 0 (items_count mcfg_header - 1) in
  for_range (Z.to_nat total_items_to_read) (parse_item no_extra_data) ;;;
  _read_trailer.

(** ** extract and main *)

(** What getting the contents of one segment gives: the bytes, from
    [segment.data()] or, when that raises, from the read at the segment's
    offset; or the exception that this second read raises, which nothing
    catches. *)
Inductive SegmentData : Type :=
| SegmentBytes (contents : list byte)
| SegmentError (cls msg : string).

(** What opening and loading the input file gives. [open] raises; or
    [ELFFile(f)] raises an exception whose text is [e], which [extract]
    wraps; or [list(elf.iter_segments())], which is outside the [try],
    raises; or the segments are listed. Reading the ELF wrapper is the work
    of pyelftools. *)
Inductive ElfLoad : Type :=
| OpenError (cls msg : string)
| ElfParseError (e : string)
| ElfIterError (cls msg : string)
| ElfSegments (segments : list SegmentData).

Definition extract (elf : ElfLoad) (no_extra_data : bool) : M unit :=
  match elf with
  | OpenError cls msg => raise (LibraryError cls msg)
  | ElfParseError e =>
      raise (MbnExtractorException ("Failed to parse ELF: " ++ e)%string)
  | ElfIterError cls msg => raise (LibraryError cls msg)
  | ElfSegments segments =>
      if (length segments <? 3)%nat then
        raise (MbnExtractorException
                 "Invalid MBN format: ELF segment with data not exist")
      else
        match nth 2 segments (SegmentBytes []) with
        | SegmentError cls msg => raise (LibraryError cls msg)
        | SegmentBytes contents =>
            fun w => _parse_image no_extra_data
                       (mkWorld (mkStream contents 0) (saved w)
                          (file_system w))
        end
  end.

(** Values that the names of [main] can hold, as far as [main] looks at
    them. *)
Inductive PyVal : Type :=
| VBool (b : bool)
| VStr (s : string)
| VObj.

Definition truthy (v : PyVal) : bool :=
  match v with
  | VBool b => b
  | VStr s => negb (String.eqb s EmptyString)
  | VObj => true
  end.

(** [argparse] namespace of [main]: [args.input], [args.output],
    [args.no_extra]. *)
Record Args : Type := mkArgs {
  input : string;
  output : option string;
  no_extra : bool
}.

(** Names bound at module level when [main] runs. *)
Definition module_names : list string :=
  ["annotations"; "os"; "io"; "sys"; "struct"; "argparse"; "logging";
   "IntEnum"; "BinaryIO"; "Optional"; "ELFFile"; "MbnExtractorException";
   "ItemType"; "McfgHeader"; "ItemHeader"; "MbnExtractor"; "main"]%string.

(** The names [main] can read inside its [try] block: its own locals, then
    the module's globals. [args.no_extra] is an attribute of [args], not a
    name, and no builtin is called [no_extra]. *)
Definition main_scope (input_path outdir : string)
  : list (string * PyVal) :=
  [("parser", VObj); ("args", VObj); ("logger", VObj);
   ("input_path", VStr input_path); ("outdir", VStr outdir)]%string
  ++ map (fun n => (n, VObj)) module_names.

Fixpoint lookup_name (n : string) (env : list (string * PyVal))
  : option PyVal :=
  match env with
  | [] => None
  | (m, v) :: t => if String.eqb n m then Some v else lookup_name n t
  end.

Definition load_name (n : string) (env : list (string * PyVal)) : M PyVal :=
  match lookup_name n env with
  | Some v => ret v
  | None => raise (NameError n)
  end.

(** [main], from the [os.path.isfile] test on: the exit status of the
    process and the world it leaves. [input_path] is
    [os.path.abspath(args.input)], [isfile] the answer of
    [os.path.isfile(input_path)] and [dirname] is
    [os.path.dirname(input_path)]. Returning from [main] ends the process
    with status 0. Creating the output directory and the logger calls are
    left out. *)
Definition main (args : Args) (isfile : bool) (input_path dirname : string)
    (elf : ElfLoad) (w : World) : Z * World :=
  if negb isfile then (2, w)
  else
    let outdir :=
      match output args with
      | None => (dirname ++ "/mcfg_sw")%string
      | Some o => o
      end in
    let body :=
      no_extra <- load_name "no_extra" (main_scope input_path outdir) ;;
      extract elf (truthy no_extra) in
    match body w with
    | (Ok _, w') => (0, w')
    | (Raise (MbnExtractorException _), w') => (2, w')
    | (Raise _, w') => (1, w')
    end.

(** ** Views of the buffer used to state the properties *)

(** The [n] bytes under the cursor, and the world with the cursor moved
    [n] bytes on. *)
Definition slice (w : World) (n : nat) : list byte :=
  firstn n (skipn (pos (stream w)) (buf (stream w))).

Definition advance (w : World) (n : nat) : World :=
  set_pos w (pos (stream w) + n).

(** The bytes left from the cursor to the end of the buffer. *)
Definition avail (w : World) : nat :=
  length (buf (stream w)) - pos (stream w).

(** The world a failed [_read_exact] leaves: the cursor has moved over what
    [stream.read] could still get. *)
Definition read_fail (size : Z) (w : World) : World :=
  snd (stream_read size w).


(** [k] turns of [parse_item], all of them without an exception. *)
Inductive items_run (no_extra_data : bool) : nat -> World -> World -> Prop :=
| items_run_nil : forall w, items_run no_extra_data 0 w w
| items_run_cons : forall k w w1 w2,
    parse_item no_extra_data w = (Ok tt, w1) ->
    items_run no_extra_data k w1 w2 ->
    items_run no_extra_data (S k) w w2.

(** The fields of an NV payload that starts under the cursor. *)
Definition nv_id_of (w : World) : Z := le_int (slice w 2).
Definition nv_declared (w : World) : Z := le_int (slice (advance w 2) 2).
Definition nv_data (w : World) : list byte :=
  slice (advance w 5) (Z.to_nat (nv_declared w - 1)).

(** The fields of a file payload that starts under the cursor. *)
Definition file_magic (w : World) : Z := le_int (slice w 2).
Definition file_name_length (w : World) : Z :=
  le_int (slice (advance w 2) 2).
Definition file_raw_name (w : World) : list byte :=
  slice (advance w 4) (Z.to_nat (file_name_length w)).
Definition file_size_magic (w : World) : Z :=
  le_int (slice (advance w (4 + Z.to_nat (file_name_length w))) 2).
Definition file_declared (w : World) : Z :=
  le_int (slice (advance w (6 + Z.to_nat (file_name_length w))) 2).
Definition file_data (w : World) : list byte :=
  slice (advance w (9 + Z.to_nat (file_name_length w)))
        (Z.to_nat (file_declared w - 1)).

(** The name a file payload decodes to: the raw name without its last
    byte, non-ASCII bytes dropped. *)
Definition file_name_of (w : World) : string :=
  decode_ascii_ignore
    (firstn (Z.to_nat (file_name_length w) - 1) (file_raw_name w)).

(** The item header that starts under the cursor. *)
Definition item_header_of (w : World) : ItemHeader :=
  mkItemHeader (le_int (firstn 4 (slice w 8)))
    (le_int (firstn 1 (skipn 4 (slice w 8))))
    (le_int (firstn 1 (skipn 5 (slice w 8))))
    (le_int (skipn 6 (slice w 8))).

(** The fields of a trailer that starts under the cursor. *)
Definition trailer_magic1 (w : World) : Z := le_int (slice (advance w 4) 2).
Definition trailer_magic2 (w : World) : Z := le_int (slice (advance w 8) 2).
Definition trailer_data_length (w : World) : Z :=
  le_int (slice (advance w 10) 2).
Definition trailer_payload (w : World) : list byte :=
  slice (advance w 12) (Z.to_nat (trailer_data_length w - 8)).

(** The world after [_find_magic_and_seek] has found the signature, and the
    header fields that follow it. *)
Definition magic_index (w : World) : Z :=
  bytes_find (skipn (pos (stream w)) (buf (stream w))) MAGIC.
Definition at_magic (w : World) : World :=
  set_pos w (Z.to_nat (magic_index w)).
Definition header_items_count (w : World) : Z :=
  le_int (slice (advance (at_magic w) 8) 4).
Definition header_version_id (w : World) : Z :=
  le_int (slice (advance (at_magic w) 16) 2).
Definition header_version_size (w : World) : Z :=
  le_int (slice (advance (at_magic w) 18) 2).

(** The world after one more file was written by [_save_to_file]. *)
Definition with_saved (w : World) (name : string) (content : list byte)
  : World :=
  mkWorld (stream w) (saved w ++ [(name, content)]) (file_system w).

(** An NV payload whose four reads all succeed. *)
Definition nv_readable (w : World) : Prop :=
  1 <= nv_declared w /\ (4 + Z.to_nat (nv_declared w) <= avail w)%nat.

(** The name under which a file payload is saved. *)
Definition file_save_name (is_nv_file no_extra_data : bool) (n : string) : string :=
  if no_extra_data then n
  else if is_nv_file then (n ++ "__E1FF_F")%string
       else (n ++ "__81FF_0")%string.

(** Bytes a file payload takes, and the payloads that pass every read and
    both magic checks. *)
Definition file_span (w : World) : nat :=
  (8 + Z.to_nat (file_name_length w) + Z.to_nat (file_declared w))%nat.

Definition file_wellformed (w : World) : Prop :=
  1 <= file_declared w /\ (file_span w <= avail w)%nat /\
  file_magic w = 1 /\ file_size_magic w = 2.

(** What [_read_trailer] does on a buffer that holds the twelve bytes of
    the fixed trailer fields. *)
Definition trailer_outcome (w : World) : Res unit * World :=
  if negb (trailer_magic1 w =? 10) then
    (Raise (MbnExtractorException "Invalid trailer magic 1"), advance w 6)
  else if negb (trailer_magic2 w =? 161) then
    (Raise (MbnExtractorException "Invalid trailer magic 2"), advance w 10)
  else if trailer_data_length w <? 8 then
    (Raise (MbnExtractorException "Invalid trailer size"), advance w 12)
  else if (12 + Z.to_nat (trailer_data_length w - 8) <=? avail w)%nat then
    if String.eqb (decode_ascii_ignore (trailer_payload w)) "MCFG_TRL" then
      (Ok tt, advance w (12 + Z.to_nat (trailer_data_length w - 8)))
    else
      (Raise (MbnExtractorException "Invalid trailer magic value"),
       advance w (12 + Z.to_nat (trailer_data_length w - 8)))
  else (Raise eof_error,
        read_fail (trailer_data_length w - 8) (advance w 12)).

(** The header that follows the signature, and what [_read_mcfg_header]
    does once the signature is found and eighteen bytes follow it. *)
Definition header_of (w : World) : McfgHeader :=
  let ws := at_magic w in
  mkMcfgHeader (decode_ascii_ignore (slice ws 4))
    (le_int (slice (advance ws 4) 2))
    (le_int (slice (advance ws 6) 2))
    (header_items_count w)
    (le_int (slice (advance ws 12) 2))
    (le_int (slice (advance ws 14) 2))
    (le_int (slice (advance ws 20) 4)).

Definition header_outcome (w : World) : Res McfgHeader * World :=
  let ws := at_magic w in
  if negb (header_version_id w =? 4995) then
    (Raise (MbnExtractorException "Invalid MBN header version id"),
     advance ws 18)
  else if (20 <=? avail ws)%nat then
    if negb (header_version_size w =? 4) then
      (Raise (MbnExtractorException "Invalid MBN header version size"),
       advance ws 20)
    else if (24 <=? avail ws)%nat then (Ok (header_of w), advance ws 24)
    else (Raise eof_error, read_fail 4 (advance ws 20))
  else (Raise eof_error, read_fail 2 (advance ws 18)).

(** The errors that name the trailer. *)
Definition trailer_error (e : PyExc) : Prop :=
  e = MbnExtractorException "Invalid trailer magic 1" \/
  e = MbnExtractorException "Invalid trailer magic 2" \/
  e = MbnExtractorException "Invalid trailer size" \/
  e = MbnExtractorException "Invalid trailer magic value".

(** The errors of the header's fixed constants, and of an empty
    container. *)
Definition invalid_header_error (e : PyExc) : Prop :=
  e = MbnExtractorException "Invalid MBN header version id" \/
  e = MbnExtractorException "Invalid MBN header version size".

Definition zero_items_error : PyExc :=
  MbnExtractorException "Invalid MBN header: zero items count".

(** ** Sample buffers *)

(** A fresh stream over [b], nothing saved yet, on the file system [fs]:
    the world [extract] hands to [_parse_image]. *)
Definition fresh_world (fs : FileSystem) (b : list byte) : World :=
  mkWorld (mkStream b 0) [] fs.

(** Container header with [items_count = n] (for [n < 256]). *)
Definition sample_header (n : byte) : list byte :=
  MAGIC ++ [x01; x00; x02; x00; n; x00; x00; x00; x05; x00; x00; x00;
            x83; x13; x04; x00; x09; x00; x00; x00].

(** NV record, nv_id 7, two data bytes, declared length 15. *)
Definition sample_nv7 : list byte :=
  [x0f; x00; x00; x00; x01; x00; x00; x00;
   x07; x00; x03; x00; x00; xaa; xbb].

(** The same record with a payload one byte short of the declared 15. *)
Definition sample_nv7_short : list byte :=
  [x0f; x00; x00; x00; x01; x00; x00; x00;
   x07; x00; x02; x00; x00; xaa].

(** NV record whose declared data size is 0. *)
Definition sample_nv_zero : list byte :=
  [x0d; x00; x00; x00; x01; x00; x00; x00;
   x07; x00; x00; x00; x00; xaa; xbb].

(** File-shaped record of kind [kind], named [abc], one data byte. *)
Definition sample_file (kind : byte) : list byte :=
  [x16; x00; x00; x00; kind; x00; x00; x00; x01; x00; x04; x00]
  ++ bytes_of_string "abc"
  ++ [x00; x02; x00; x02; x00; x00; xcc].

(** The same record with a payload one byte short of the declared 22. *)
Definition sample_file_short (kind : byte) : list byte :=
  [x16; x00; x00; x00; kind; x00; x00; x00; x01; x00; x03; x00]
  ++ bytes_of_string "ab"
  ++ [x00; x02; x00; x02; x00; x00; xcc].

(** File payload (no item header) whose four name bytes before the
    terminator are [a], 0xE9, [b], 0xFF. *)
Definition sample_file_payload_non_ascii : list byte :=
  [x01; x00; x05; x00; x61; xe9; x62; xff; x00;
   x02; x00; x02; x00; x00; xcc].

(** File-shaped record whose declared data size is 0. *)
Definition sample_file_zero (kind : byte) : list byte :=
  [x15; x00; x00; x00; kind; x00; x00; x00; x01; x00; x04; x00]
  ++ bytes_of_string "abc"
  ++ [x00; x02; x00; x00; x00; x00; xcc].

Definition sample_trailer : list byte :=
  [x14; x00; x00; x00; x0a; x00; x00; x00; xa1; x00; x10; x00]
  ++ TRAILER_MAGIC.

(** A trailer whose nine payload bytes are 0xFF followed by [MCFG_TRL]. *)
Definition sample_trailer_padded : list byte :=
  [x15; x00; x00; x00; x0a; x00; x00; x00; xa1; x00; x11; x00]
  ++ [xff] ++ TRAILER_MAGIC.

(** A trailer whose payload is [MCFG_TRX]. *)
Definition sample_trailer_bad : list byte :=
  [x14; x00; x00; x00; x0a; x00; x00; x00; xa1; x00; x10; x00]
  ++ bytes_of_string "MCFG_TRX".

(** A well-formed image: two bytes of padding, a header with
    [items_count = 4], three items and the trailer. *)
Definition sample_image : list byte :=
  [xff; xfe] ++ sample_header x04 ++ sample_nv7 ++ sample_file x04
  ++ sample_file x02 ++ sample_trailer.

(** ** Definitions for the further properties *)

(** [sub] lies in [data] at index [i]. *)
Definition occurs_at (sub data : list byte) (i : nat) : Prop :=
  exists rest, skipn i data = sub ++ rest.

Definition no_magic_error : PyExc :=
  MbnExtractorException "Invalid MBN format. Can't find magic string".

Definition unknown_type_error : PyExc :=
  MbnExtractorException "Invalid MBN: unknown item type".

(** Every message [_parse_image] can raise. *)
Definition parse_messages : list string :=
  ["Unexpected EOF while reading MBN";
   "Invalid MBN format. Can't find magic string";
   "Invalid MBN header version id";
   "Invalid MBN header version size";
   "Invalid MBN header: zero items count";
   "Invalid MBN: unknown item type";
   "Invalid NV item size";
   "Invalid file header magic";
   "Invalid file size magic";
   "Invalid file item size";
   "Invalid trailer magic 1";
   "Invalid trailer magic 2";
   "Invalid trailer size";
   "Invalid trailer magic value"]%string.

Definition parse_error (e : PyExc) : Prop :=
  exists msg, e = MbnExtractorException msg /\ In msg parse_messages.

(** [e] is what the file system answered to a save asked for in the world
    [w]. *)
Definition refused_save (w : World) (e : PyExc) : Prop :=
  exists cls msg name content,
    e = LibraryError cls msg /\
    file_system w (saved w) name content = Some (cls, msg).

(** The file system writes the files [outs] one after the other, once
    [before] are written. *)
Fixpoint accepts_all (fs : FileSystem) (before outs : list (string * list byte))
  : Prop :=
  match outs with
  | [] => True
  | o :: rest =>
      fs before (fst o) (snd o) = None /\ accepts_all fs (before ++ [o]) rest
  end.

(** The name [_parse_nv] gives to the item [nv_id]. *)
Definition nv_file_name (nv_id : Z) : string :=
  ("NvItem__" ++ format_0d 8 nv_id)%string.

(** An image whose third item has a payload one byte short. *)
Definition sample_image_bad_third : list byte :=
  sample_header x04 ++ sample_nv7 ++ sample_file x04
  ++ sample_file_short x02 ++ sample_trailer.

(** [w'] comes after [w]: the same buffer, the cursor not moved back and
    not moved past the end, the saved files kept in front of the new
    ones, on the same file system. *)
Definition extends (w w' : World) : Prop :=
  buf (stream w') = buf (stream w) /\
  (pos (stream w) <= pos (stream w'))%nat /\
  ((pos (stream w) <= length (buf (stream w)))%nat ->
   (pos (stream w') <= length (buf (stream w')))%nat) /\
  (exists added, saved w' = saved w ++ added) /\
  file_system w' = file_system w.

(** A computation that only ever moves forward, whatever its outcome. *)
Definition keeps {A : Type} (c : M A) : Prop :=
  forall w r w', c w = (r, w') -> extends w w'.

(** The reads of [_read_mcfg_header] that follow the search for the
    signature. *)
Definition header_fields : M McfgHeader :=
  magic_bytes <- _read_exact (Z.of_nat (length MAGIC)) ;;
  format_type <- read_H ;;
  configuration_type <- read_H ;;
  items_count <- read_I ;;
  carrier_index <- read_H ;;
  reserved <- read_H ;;
  version_id <- read_H ;;
  if negb (version_id =? 4995) then
    raise (MbnExtractorException "Invalid MBN header version id")
  else
  version_size <- read_H ;;
  if negb (version_size =? 4) then
    raise (MbnExtractorException "Invalid MBN header version size")
  else
  version <- read_I ;;
  ret (mkMcfgHeader (decode_ascii_ignore magic_bytes) format_type
         configuration_type items_count carrier_index reserved version).

(** [_parse_image] from the signature on. *)
Definition image_after_magic (no_extra_data : bool) : M unit :=
  mcfg_header <- header_fields ;;
  if items_count mcfg_header =? 0 then
    raise (MbnExtractorException "Invalid MBN header: zero items count")
  else
  let total_items_to_read := Z.max 0 (items_count mcfg_header - 1) in
  for_range (Z.to_nat total_items_to_read) (parse_item no_extra_data) ;;;
  _read_trailer.

(** [wl] is [ws] with [extra] behind the buffer: the same cursor, inside the
    shorter buffer, and the same saved files on the same file system. *)
Definition longer (extra : list byte) (ws wl : World) : Prop :=
  buf (stream wl) = buf (stream ws) ++ extra /\
  pos (stream wl) = pos (stream ws) /\
  saved wl = saved ws /\
  (pos (stream ws) <= length (buf (stream ws)))%nat /\
  file_system wl = file_system ws.

(** What succeeds on the shorter buffer succeeds alike on the longer. *)
Definition grows (extra : list byte) {A : Type} (c : M A) : Prop :=
  forall ws wl a ws',
    longer extra ws wl -> c ws = (Ok a, ws') ->
    exists wl', c wl = (Ok a, wl') /\ longer extra ws' wl'.

(** What succeeds on the longer buffer succeeds alike on the shorter, or
    stops there with the unexpected-EOF error and a first part of the saved
    files. *)
Definition shrinks (extra : list byte) {A : Type} (c : M A) : Prop :=
  forall ws wl a wl',
    longer extra ws wl -> c wl = (Ok a, wl') ->
    (exists ws', c ws = (Ok a, ws') /\ longer extra ws' wl') \/
    (exists ws', c ws = (Raise eof_error, ws') /\
                 exists rest, saved wl' = saved ws' ++ rest).

(** Two worlds with the same bytes from the cursor on, the second cursor
    [d] bytes further than the first, and saved files related one by one
    by [E], on the same file system. *)
Definition rel_worlds (d : nat)
    (E : string * list byte -> string * list byte -> Prop)
    (w1 w2 : World) : Prop :=
  skipn (pos (stream w1)) (buf (stream w1))
    = skipn (pos (stream w2)) (buf (stream w2)) /\
  pos (stream w2) = (pos (stream w1) + d)%nat /\
  Forall2 E (saved w1) (saved w2) /\
  file_system w1 = file_system w2.

Definition rel_results {A B : Type} (RA : A -> B -> Prop)
    (r1 : Res A) (r2 : Res B) : Prop :=
  match r1, r2 with
  | Ok a, Ok b => RA a b
  | Raise e1, Raise e2 => e1 = e2
  | _, _ => False
  end.

(** The outcome is an exception of the set [S]. *)
Definition stopped {A : Type} (S : PyExc -> Prop) (r : Res A) : Prop :=
  match r with
  | Ok _ => False
  | Raise e => S e
  end.

(** Two computations that, from related worlds, end alike: both with
    related values or both with the same exception, in related worlds;
    unless one of them is stopped by an exception of [S]. *)
Definition alike (d : nat)
    (E : string * list byte -> string * list byte -> Prop)
    (S : PyExc -> Prop)
    {A B : Type} (RA : A -> B -> Prop) (c1 : M A) (c2 : M B) : Prop :=
  forall w1 w2,
    rel_worlds d E w1 w2 ->
    (rel_results RA (fst (c1 w1)) (fst (c2 w2)) /\
     rel_worlds d E (snd (c1 w1)) (snd (c2 w2)))
    \/ stopped S (fst (c1 w1)) \/ stopped S (fst (c2 w2)).

(** The exceptions that come out of a library call. *)
Definition library_error (e : PyExc) : Prop :=
  exists cls msg, e = LibraryError cls msg.

(** The same content, and the second name the first or the first with one
    of the two suffixes. *)
Definition suffix_only (x y : string * list byte) : Prop :=
  snd y = snd x /\
  (fst y = fst x \/ fst y = (fst x ++ "__E1FF_F")%string \/
   fst y = (fst x ++ "__81FF_0")%string).

(** ** The path [_save_to_file] opens, on a POSIX system *)

(** [os.sep] where [os.path] is [posixpath]. *)
Definition os_sep : ascii := "/"%char.

(** [s.replace(a, b)] for one-character [a] and [b]. *)
Fixpoint replace_char (a b : ascii) (s : string) : string :=
  match s with
  | EmptyString => EmptyString
  | String c t =>
      String (if Ascii.eqb c a then b else c) (replace_char a b t)
  end.

(** [s.lstrip(c)] for a one-character [c]. *)
Fixpoint lstrip_char (c : ascii) (s : string) : string :=
  match s with
  | EmptyString => EmptyString
  | String a t => if Ascii.eqb a c then lstrip_char c t else s
  end.

Definition starts_with_char (c : ascii) (s : string) : bool :=
  match s with
  | EmptyString => false
  | String a _ => Ascii.eqb a c
  end.

Fixpoint ends_with_char (c : ascii) (s : string) : bool :=
  match s with
  | EmptyString => false
  | String a EmptyString => Ascii.eqb a c
  | String _ t => ends_with_char c t
  end.

(** [posixpath.join(a, b)]. *)
Definition posix_join (a b : string) : string :=
  if starts_with_char os_sep b then b
  else if String.eqb a EmptyString || ends_with_char os_sep a
       then (a ++ b)%string
       else (a ++ String os_sep b)%string.

(** The first two lines of [_save_to_file]: [file_path] and [path]. *)
Definition save_path (file_name output_directory : string) : string :=
  let file_path := lstrip_char os_sep (replace_char "/"%char os_sep file_name) in
  posix_join output_directory file_path.

(** ** A file system for the examples *)

Fixpoint has_nul (s : string) : bool :=
  match s with
  | EmptyString => false
  | String c t => Ascii.eqb c zero || has_nul t
  end.

(** The file system of the examples. It refuses a name with a NUL
    character, for which [open] raises [ValueError], and a name that is
    empty once its leading separators are stripped: that one names the
    output directory itself, for which [open] raises
    [IsADirectoryError]. It writes every other file. *)
Definition sample_fs : FileSystem :=
  fun _ file_name _ =>
    if has_nul file_name then Some ("ValueError", "embedded null byte")%string
    else if String.eqb (lstrip_char os_sep file_name) EmptyString
         then Some ("IsADirectoryError", "Is a directory")%string
         else None.

(** File-shaped record of kind [kind] whose name bytes are [a], NUL, [b]
    and the terminator. *)
Definition sample_file_nul (kind : byte) : list byte :=
  [x16; x00; x00; x00; kind; x00; x00; x00; x01; x00; x04; x00]
  ++ [x61; x00; x62; x00]
  ++ [x02; x00; x02; x00; x00; xcc].

(** File-shaped record of kind [kind] whose name is the terminator
    alone. *)
Definition sample_file_unnamed (kind : byte) : list byte :=
  [x13; x00; x00; x00; kind; x00; x00; x00; x01; x00; x01; x00]
  ++ [x00]
  ++ [x02; x00; x02; x00; x00; xcc].

(** ** The layout the decoders read *)

Definition byte_of_Z (z : Z) : byte :=
  match Byte.of_N (Z.to_N z) with
  | Some b => b
  | None => x00
  end.

(** The [width] bytes of [n], least significant first: what
    [struct.pack("<H", n)] and [struct.pack("<I", n)] give for widths 2
    and 4. *)
Fixpoint le_bytes (width : nat) (n : Z) : list byte :=
  match width with
  | O => []
  | S w => byte_of_Z (n mod 256) :: le_bytes w (n / 256)
  end.

(** The bytes of a record that no decoder looks at. *)
Record Unchecked : Type := mkUnchecked {
  u_attributes : byte;
  u_reserved : Z;
  u_data_magic : byte
}.

(** An item as it is meant: an NV value, or a named file of one of the two
    file kinds. *)
Inductive Item : Type :=
| NvRecord (u : Unchecked) (nv_id : Z) (data : list byte)
| FileRecord (u : Unchecked) (is_nv_file : bool) (raw_name : list byte)
    (data : list byte).

Definition item_kind (it : Item) : byte :=
  match it with
  | NvRecord _ _ _ => x01
  | FileRecord _ true _ _ => x02
  | FileRecord _ false _ _ => x04
  end.

Definition item_payload (it : Item) : list byte :=
  match it with
  | NvRecord u nv_id data =>
      le_bytes 2 nv_id ++ le_bytes 2 (Z.of_nat (length data) + 1)
      ++ [u_data_magic u] ++ data
  | FileRecord u _ raw_name data =>
      le_bytes 2 1 ++ le_bytes 2 (Z.of_nat (length raw_name)) ++ raw_name
      ++ le_bytes 2 2 ++ le_bytes 2 (Z.of_nat (length data) + 1)
      ++ [u_data_magic u] ++ data
  end.

Definition item_unchecked (it : Item) : Unchecked :=
  match it with
  | NvRecord u _ _ => u
  | FileRecord u _ _ _ => u
  end.

(** The record of an item: the 8-byte item header, whose length field counts
    the whole record, then the payload. *)
Definition item_bytes (it : Item) : list byte :=
  le_bytes 4 (8 + Z.of_nat (length (item_payload it)))
  ++ [item_kind it; u_attributes (item_unchecked it)]
  ++ le_bytes 2 (u_reserved (item_unchecked it))
  ++ item_payload it.

(** The sizes a record can express in its 16-bit fields. *)
Definition item_fits (it : Item) : Prop :=
  0 <= u_reserved (item_unchecked it) < 65536 /\
  match it with
  | NvRecord _ nv_id data =>
      0 <= nv_id < 65536 /\ Z.of_nat (length data) <= 65534
  | FileRecord _ _ raw_name data =>
      Z.of_nat (length raw_name) <= 65535 /\
      Z.of_nat (length data) <= 65534
  end.

(** The file an item is saved as. *)
Definition item_output (no_extra_data : bool) (it : Item)
  : string * list byte :=
  match it with
  | NvRecord _ nv_id data => (nv_file_name nv_id, data)
  | FileRecord _ is_nv_file raw_name data =>
      (file_save_name is_nv_file no_extra_data
         (decode_ascii_ignore (firstn (length raw_name - 1) raw_name)),
       data)
  end.

Definition header_bytes (h : McfgHeader) : list byte :=
  MAGIC ++ le_bytes 2 (format_type h) ++ le_bytes 2 (configuration_type h)
  ++ le_bytes 4 (items_count h) ++ le_bytes 2 (carrier_index h)
  ++ le_bytes 2 (reserved h) ++ le_bytes 2 4995 ++ le_bytes 2 4
  ++ le_bytes 4 (version h).

Definition header_fits (h : McfgHeader) : Prop :=
  magic h = "MCFG"%string /\
  0 <= format_type h < 65536 /\ 0 <= configuration_type h < 65536 /\
  0 <= items_count h < 4294967296 /\ 0 <= carrier_index h < 65536 /\
  0 <= reserved h < 65536 /\ 0 <= version h < 4294967296.

Definition trailer_bytes (record_length reserved : Z) : list byte :=
  le_bytes 4 record_length ++ le_bytes 2 10 ++ le_bytes 2 reserved
  ++ le_bytes 2 161 ++ le_bytes 2 16 ++ TRAILER_MAGIC.

(** A whole container: header, items, trailer. *)
Definition image_bytes (h : McfgHeader) (items : list Item)
    (trailer_length trailer_reserved : Z) : list byte :=
  header_bytes h ++ concat (map item_bytes items)
  ++ trailer_bytes trailer_length trailer_reserved.

(** The bytes from the cursor to the end. *)
Definition remaining (w : World) : list byte :=
  skipn (pos (stream w)) (buf (stream w)).

(** * Properties *)

(** ** The world after a read *)

Lemma pos_advance : forall w n,
  pos (stream (advance w n)) = (pos (stream w) + n)%nat.
Proof. reflexivity. Qed.

Lemma buf_advance : forall w n, buf (stream (advance w n)) = buf (stream w).
Proof. reflexivity. Qed.

Lemma saved_advance : forall w n, saved (advance w n) = saved w.
Proof. reflexivity. Qed.

Lemma buf_read_fail : forall n w,
  buf (stream (read_fail n w)) = buf (stream w).
Proof. reflexivity. Qed.

Lemma saved_read_fail : forall n w, saved (read_fail n w) = saved w.
Proof. reflexivity. Qed.

Lemma file_system_advance : forall w n,
  file_system (advance w n) = file_system w.
Proof. reflexivity. Qed.

Lemma file_system_read_fail : forall n w,
  file_system (read_fail n w) = file_system w.
Proof. reflexivity. Qed.

Lemma avail_advance : forall w n,
  avail (advance w n) = (avail w - n)%nat.
Proof. intros w n. unfold avail. rewrite pos_advance, buf_advance. lia. Qed.

Lemma length_slice : forall w n,
  (n <= avail w)%nat -> length (slice w n) = n.
Proof.
  intros w n H. unfold slice, avail in *.
  rewrite length_firstn, length_skipn. lia.
Qed.

Lemma advance_advance : forall w n m,
  advance (advance w n) m = advance w (n + m).
Proof.
  intros w n m. unfold advance, set_pos. simpl.
  now rewrite Nat.add_assoc.
Qed.

Create Rewrite HintDb world.

#[global] Hint Rewrite pos_advance buf_advance saved_advance avail_advance
  buf_read_fail saved_read_fail file_system_advance file_system_read_fail
  : world.

(** ** [_save_to_file]: written or refused *)

Lemma save_accepted : forall name content w,
  file_system w (saved w) name content = None ->
  _save_to_file name content w = (Ok tt, with_saved w name content).
Proof.
  intros name content w H. unfold _save_to_file. rewrite H. reflexivity.
Qed.

Lemma save_refused : forall name content w cls msg,
  file_system w (saved w) name content = Some (cls, msg) ->
  _save_to_file name content w = (Raise (LibraryError cls msg), w).
Proof.
  intros name content w cls msg H. unfold _save_to_file. rewrite H.
  reflexivity.
Qed.

Lemma save_ok_inv : forall name content w w',
  _save_to_file name content w = (Ok tt, w') ->
  file_system w (saved w) name content = None /\
  w' = with_saved w name content.
Proof.
  intros name content w w' H. unfold _save_to_file in H.
  destruct (file_system w (saved w) name content) as [[cls msg] |];
    [discriminate |].
  inversion H. auto.
Qed.

Lemma save_raise_inv : forall name content w e w',
  _save_to_file name content w = (Raise e, w') ->
  w' = w /\
  exists cls msg,
    e = LibraryError cls msg /\
    file_system w (saved w) name content = Some (cls, msg).
Proof.
  intros name content w e w' H. unfold _save_to_file in H.
  destruct (file_system w (saved w) name content) as [[cls msg] |];
    [| discriminate].
  inversion H. eauto.
Qed.

(** An exception of the parser itself is never the one of a refused
    file. *)
Ltac not_from_save H :=
  apply save_raise_inv in H;
  destruct H as [_ [? [? [? _]]]]; discriminate.

(** ** [_read_exact], as one equation *)

Lemma read_exact_eq : forall n w,
  _read_exact n w =
  if (0 <=? n) && (Z.to_nat n <=? avail w)%nat
  then (Ok (slice w (Z.to_nat n)), advance w (Z.to_nat n))
  else (Raise eof_error, read_fail n w).
Proof.
  intros n w. unfold _read_exact, bind, read_fail, stream_read. cbn [snd].
  destruct (Z.ltb_spec n 0) as [Hneg | Hpos].
  - replace (0 <=? n) with false by (symmetry; apply Z.leb_gt; lia).
    cbn [andb].
    replace (Z.of_nat (length (skipn (pos (stream w)) (buf (stream w)))) =? n)
      with false by (symmetry; apply Z.eqb_neq; lia).
    reflexivity.
  - replace (0 <=? n) with true by (symmetry; apply Z.leb_le; lia).
    cbn [andb].
    destruct (Nat.leb_spec (Z.to_nat n) (avail w)) as [Hle | Hgt].
    + replace (Z.of_nat (length (firstn (Z.to_nat n)
                 (skipn (pos (stream w)) (buf (stream w))))) =? n) with true.
      * cbn [negb]. unfold ret, advance, slice.
        rewrite length_firstn, length_skipn.
        unfold avail in Hle.
        replace (Nat.min (Z.to_nat n)
                   (length (buf (stream w)) - pos (stream w)))
          with (Z.to_nat n) by lia.
        reflexivity.
      * symmetry. apply Z.eqb_eq.
        rewrite length_firstn, length_skipn. unfold avail in Hle. lia.
    + replace (Z.of_nat (length (firstn (Z.to_nat n)
                 (skipn (pos (stream w)) (buf (stream w))))) =? n) with false.
      * reflexivity.
      * symmetry. apply Z.eqb_neq.
        rewrite length_firstn, length_skipn. unfold avail in Hgt. lia.
Qed.

Lemma read_exact_ok : forall n w,
  0 <= n -> (Z.to_nat n <= avail w)%nat ->
  _read_exact n w = (Ok (slice w (Z.to_nat n)), advance w (Z.to_nat n)).
Proof.
  intros n w H0 H1. rewrite read_exact_eq.
  replace (0 <=? n) with true by (symmetry; apply Z.leb_le; lia).
  replace (Z.to_nat n <=? avail w)%nat with true
    by (symmetry; apply Nat.leb_le; lia).
  reflexivity.
Qed.

Lemma read_exact_short : forall n w,
  n < 0 \/ (avail w < Z.to_nat n)%nat ->
  _read_exact n w = (Raise eof_error, read_fail n w).
Proof.
  intros n w H. rewrite read_exact_eq.
  destruct (Z.leb_spec 0 n) as [H0 | H0]; cbn [andb]; [| reflexivity].
  replace (Z.to_nat n <=? avail w)%nat with false
    by (symmetry; apply Nat.leb_gt; lia).
  reflexivity.
Qed.

Lemma read_exact_inv : forall n w d w',
  _read_exact n w = (Ok d, w') ->
  0 <= n /\ (Z.to_nat n <= avail w)%nat /\
  d = slice w (Z.to_nat n) /\ w' = advance w (Z.to_nat n).
Proof.
  intros n w d w' H. rewrite read_exact_eq in H.
  destruct (Z.leb_spec 0 n) as [H0 | H0]; cbn [andb] in H; [| discriminate].
  destruct (Nat.leb_spec (Z.to_nat n) (avail w)) as [H1 | H1];
    [| discriminate].
  inversion H; subst. auto.
Qed.

Lemma read_exact_raise_inv : forall n w e w',
  _read_exact n w = (Raise e, w') ->
  e = eof_error /\ w' = read_fail n w /\
  (n < 0 \/ (avail w < Z.to_nat n)%nat).
Proof.
  intros n w e w' H. rewrite read_exact_eq in H.
  destruct (Z.leb_spec 0 n) as [H0 | H0]; cbn [andb] in H.
  - destruct (Nat.leb_spec (Z.to_nat n) (avail w)) as [H1 | H1];
      [discriminate |].
    inversion H; subst. auto.
  - inversion H; subst. auto.
Qed.

(** ** Fixed-width fields *)

Lemma read_uint_eq : forall (width : nat) w,
  bind (_read_exact (Z.of_nat width)) (unpack_uint width) w =
  if (width <=? avail w)%nat
  then (Ok (le_int (slice w width)), advance w width)
  else (Raise eof_error, read_fail (Z.of_nat width) w).
Proof.
  intros width w. unfold bind. rewrite read_exact_eq.
  replace (0 <=? Z.of_nat width) with true by (symmetry; apply Z.leb_le; lia).
  cbn [andb]. rewrite Nat2Z.id.
  destruct (Nat.leb_spec width (avail w)) as [H | H]; [| reflexivity].
  unfold unpack_uint. rewrite length_slice by exact H.
  rewrite Nat.eqb_refl. reflexivity.
Qed.

Lemma read_H_eq : forall w,
  read_H w =
  if (2 <=? avail w)%nat
  then (Ok (le_int (slice w 2)), advance w 2)
  else (Raise eof_error, read_fail 2 w).
Proof. intro w. exact (read_uint_eq 2 w). Qed.

Lemma read_I_eq : forall w,
  read_I w =
  if (4 <=? avail w)%nat
  then (Ok (le_int (slice w 4)), advance w 4)
  else (Raise eof_error, read_fail 4 w).
Proof. intro w. exact (read_uint_eq 4 w). Qed.

Lemma read_item_header_eq : forall w,
  _read_item_header w =
  if (8 <=? avail w)%nat
  then (Ok (item_header_of w), advance w 8)
  else (Raise eof_error, read_fail 8 w).
Proof.
  intro w. unfold _read_item_header, bind. rewrite read_exact_eq.
  cbn [Z.leb Z.compare andb]. change (Z.to_nat 8) with 8%nat.
  destruct (Nat.leb_spec 8 (avail w)) as [H | H]; [| reflexivity].
  unfold unpack_IBBH. rewrite length_slice by exact H.
  reflexivity.
Qed.

(** ** Integers read from bytes *)

Lemma byte_val_range : forall b, 0 <= byte_val b < 256.
Proof.
  intro b. unfold byte_val.
  pose proof (Byte.to_N_bounded b) as H.
  lia.
Qed.

Lemma le_int_nonneg : forall l, 0 <= le_int l.
Proof.
  induction l as [| b t IH]; cbn [le_int]; [lia |].
  pose proof (byte_val_range b). lia.
Qed.

Lemma le_int_bound : forall l, le_int l < 256 ^ Z.of_nat (length l).
Proof.
  induction l as [| b t IH]; [simpl; lia |].
  cbn [le_int length]. rewrite Nat2Z.inj_succ, Z.pow_succ_r by lia.
  pose proof (byte_val_range b). lia.
Qed.

Lemma read_exact_nat_eq : forall (k : nat) w,
  _read_exact (Z.of_nat k) w =
  if (k <=? avail w)%nat
  then (Ok (slice w k), advance w k)
  else (Raise eof_error, read_fail (Z.of_nat k) w).
Proof.
  intros k w. rewrite read_exact_eq.
  replace (0 <=? Z.of_nat k) with true by (symmetry; apply Z.leb_le; lia).
  rewrite Nat2Z.id. reflexivity.
Qed.

Lemma read_exact_1_eq : forall w,
  _read_exact 1 w =
  if (1 <=? avail w)%nat then (Ok (slice w 1), advance w 1)
  else (Raise eof_error, read_fail 1 w).
Proof. intro w. exact (read_exact_nat_eq 1 w). Qed.

Lemma read_exact_2_eq : forall w,
  _read_exact 2 w =
  if (2 <=? avail w)%nat then (Ok (slice w 2), advance w 2)
  else (Raise eof_error, read_fail 2 w).
Proof. intro w. exact (read_exact_nat_eq 2 w). Qed.

Lemma read_exact_4_eq : forall w,
  _read_exact 4 w =
  if (4 <=? avail w)%nat then (Ok (slice w 4), advance w 4)
  else (Raise eof_error, read_fail 4 w).
Proof. intro w. exact (read_exact_nat_eq 4 w). Qed.

(** ** Running a decoder one read at a time *)

Ltac step :=
  first [ rewrite read_H_eq | rewrite read_I_eq | rewrite read_exact_1_eq
        | rewrite read_exact_2_eq | rewrite read_exact_4_eq
        | rewrite read_exact_eq
        | rewrite read_item_header_eq ];
  match goal with
  | |- context [if ?c then (Ok _, _) else (Raise _, _)] =>
      let E := fresh "E" in destruct c eqn:E; cbv beta iota
  end.

Ltac norm :=
  repeat match goal with
  | H : andb _ _ = true |- _ => apply andb_prop in H; destruct H
  | H : andb _ _ = false |- _ => apply andb_false_iff in H; destruct H
  | H : (_ <=? _)%nat = true |- _ => apply Nat.leb_le in H
  | H : (_ <=? _)%nat = false |- _ => apply Nat.leb_gt in H
  | H : (_ <=? _) = true |- _ => apply Z.leb_le in H
  | H : (_ <=? _) = false |- _ => apply Z.leb_gt in H
  | H : (_ <? _) = true |- _ => apply Z.ltb_lt in H
  | H : (_ <? _) = false |- _ => apply Z.ltb_ge in H
  | H : (_ =? _) = true |- _ => apply Z.eqb_eq in H
  | H : (_ =? _) = false |- _ => apply Z.eqb_neq in H
  | H : negb _ = true |- _ => apply negb_true_iff in H
  | H : negb _ = false |- _ => apply negb_false_iff in H
  end;
  repeat rewrite advance_advance in *;
  autorewrite with world in *.

Ltac eof_branch :=
  right; norm;
  (split;
   [ let Hr := fresh in intro Hr; decompose [and] Hr; lia
   | eexists; split; reflexivity ]).

Ltac fold_view v :=
  match goal with
  | |- context [le_int ?s] => progress change (le_int s) with v
  end.

Ltac adv_to k' :=
  match goal with
  | |- context [advance _ ?k] =>
      tryif constr_eq k k' then fail else (replace k with k' by lia)
  end.

Ltac bad_branch :=
  right; norm;
  (split;
   [ let Hr := fresh in intro Hr; decompose [and] Hr; lia
   | eexists _, _; split; [reflexivity | split; [reflexivity | tauto]] ]).

(** ** [_parse_nv] *)

Lemma parse_nv_run : forall ih w,
  (nv_readable w /\
   _parse_nv ih w =
     if 12 + nv_declared w =? ih_length ih
     then _save_to_file ("NvItem__" ++ format_0d 8 (nv_id_of w)) (nv_data w)
            (advance w (4 + Z.to_nat (nv_declared w)))
     else (Raise (MbnExtractorException "Invalid NV item size"),
           advance w (4 + Z.to_nat (nv_declared w))))
  \/
  (~ nv_readable w /\
   exists w', _parse_nv ih w = (Raise eof_error, w') /\ saved w' = saved w).
Proof.
  intros ih w. unfold nv_readable.
  unfold _parse_nv, stream_tell. unfold bind.
  step; [| eof_branch].
  step; [| eof_branch].
  step; [| eof_branch].
  fold (nv_declared w).
  step; [| eof_branch].
  left. norm.
  split; [lia |].
  replace (2 + (2 + (1 + Z.to_nat (nv_declared w - 1))))%nat
    with (4 + Z.to_nat (nv_declared w))%nat by lia.
  replace (Z.of_nat (pos (stream w) + (4 + Z.to_nat (nv_declared w)))
           - Z.of_nat (pos (stream w)) + 8) with (12 + nv_declared w) by lia.
  destruct (12 + nv_declared w =? ih_length ih); reflexivity.
Qed.

(** ** [_parse_file] *)

Lemma file_name_expr : forall n raw,
  0 <= n ->
  (if 0 <? n
   then decode_ascii_ignore (firstn (Z.to_nat (Z.max 0 (n - 1))) raw)
   else EmptyString) =
  decode_ascii_ignore (firstn (Z.to_nat n - 1) raw).
Proof.
  intros n raw Hn. destruct (Z.ltb_spec 0 n) as [H | H].
  - replace (Z.to_nat (Z.max 0 (n - 1))) with (Z.to_nat n - 1)%nat by lia.
    reflexivity.
  - replace (Z.to_nat n - 1)%nat with 0%nat by lia. reflexivity.
Qed.

Lemma parse_file_run : forall ih is_nv_file no_extra_data w,
  (file_wellformed w /\
   _parse_file ih is_nv_file no_extra_data w =
     if 8 + Z.of_nat (file_span w) =? ih_length ih
     then _save_to_file
            (file_save_name is_nv_file no_extra_data (file_name_of w))
            (file_data w) (advance w (file_span w))
     else (Raise (MbnExtractorException "Invalid file item size"),
           advance w (file_span w)))
  \/
  (~ file_wellformed w /\
   exists e w', _parse_file ih is_nv_file no_extra_data w = (Raise e, w') /\
     saved w' = saved w /\
     (e = eof_error \/
      (e = MbnExtractorException "Invalid file header magic" /\
       file_magic w <> 1) \/
      (e = MbnExtractorException "Invalid file size magic" /\
       file_size_magic w <> 2))).
Proof.
  intros ih is_nv_file no_extra_data w.
  pose proof (le_int_nonneg (slice (advance w 2) 2)) as Hnl.
  fold (file_name_length w) in Hnl.
  unfold file_wellformed, file_span.
  unfold _parse_file, stream_tell. unfold bind.
  step; [| bad_branch].
  fold (file_magic w).
  destruct (file_magic w =? 1) eqn:Em; cbn [negb]; cbv beta iota;
    [| bad_branch].
  step; [| bad_branch].
  fold (file_name_length w).
  step; [| bad_branch].
  rewrite file_name_expr by exact Hnl.
  step; [| bad_branch].
  rewrite !advance_advance.
  fold_view (file_size_magic w).
  destruct (file_size_magic w =? 2) eqn:Es; cbn [negb]; cbv beta iota;
    [| bad_branch].
  step; [| bad_branch].
  rewrite !advance_advance.
  adv_to (6 + Z.to_nat (file_name_length w))%nat.
  fold_view (file_declared w).
  step; [| bad_branch].
  step; [| bad_branch].
  left. norm.
  split; [repeat split; try assumption; lia |].
  set (nl := Z.to_nat (file_name_length w)) in *.
  set (dl := file_declared w) in *.
  replace (6 + nl + 2 + (1 + Z.to_nat (dl - 1)))%nat
    with (8 + nl + Z.to_nat dl)%nat by lia.
  replace (6 + nl + 2 + 1)%nat with (9 + nl)%nat by lia.
  replace (Z.of_nat (pos (stream w) + (8 + nl + Z.to_nat dl))
           - Z.of_nat (pos (stream w)) + 8)
    with (8 + Z.of_nat (8 + nl + Z.to_nat dl)) by lia.
  destruct (8 + Z.of_nat (8 + nl + Z.to_nat dl) =? ih_length ih);
    reflexivity.
Qed.

(** ** [_read_trailer] *)

Lemma read_trailer_run : forall w,
  ((12 <= avail w)%nat /\ _read_trailer w = trailer_outcome w)
  \/
  ((avail w < 12)%nat /\
   exists e w', _read_trailer w = (Raise e, w') /\ saved w' = saved w /\
     (e = eof_error \/
      e = MbnExtractorException "Invalid trailer magic 1" \/
      e = MbnExtractorException "Invalid trailer magic 2")).
Proof.
  intro w. unfold _read_trailer, trailer_outcome. unfold bind.
  step.
  2:{ right. norm. split; [lia |].
      eexists _, _. split; [reflexivity | split; [reflexivity | tauto]]. }
  step.
  2:{ right. norm. split; [lia |].
      eexists _, _. split; [reflexivity | split; [reflexivity | tauto]]. }
  fold_view (trailer_magic1 w).
  destruct (trailer_magic1 w =? 10) eqn:Em1; cbn [negb]; cbv beta iota.
  2:{ destruct (Nat.le_gt_cases 12 (avail w)) as [Hle | Hgt].
      - left. split; [exact Hle | rewrite ?advance_advance; reflexivity].
      - right. split; [exact Hgt |].
        eexists _, _. split; [reflexivity | split; [reflexivity | tauto]]. }
  step.
  2:{ right. norm. split; [lia |].
      eexists _, _. split; [reflexivity | split; [reflexivity | tauto]]. }
  step.
  2:{ right. norm. split; [lia |].
      eexists _, _. split; [reflexivity | split; [reflexivity | tauto]]. }
  rewrite !advance_advance.
  fold_view (trailer_magic2 w).
  destruct (trailer_magic2 w =? 161) eqn:Em2; cbn [negb]; cbv beta iota.
  2:{ destruct (Nat.le_gt_cases 12 (avail w)) as [Hle | Hgt].
      - left. split; [exact Hle | rewrite ?advance_advance; reflexivity].
      - right. split; [exact Hgt |].
        eexists _, _. split; [reflexivity | split; [reflexivity | tauto]]. }
  step.
  2:{ right. norm. split; [lia |].
      eexists _, _. split; [reflexivity | split; [reflexivity | tauto]]. }
  rewrite !advance_advance.
  fold_view (trailer_data_length w).
  left. norm. split; [lia |].
  destruct (trailer_data_length w <? 8) eqn:Edl; [reflexivity |].
  cbv beta iota. norm.
  rewrite read_exact_eq. autorewrite with world.
  replace (0 <=? trailer_data_length w - 8) with true
    by (symmetry; apply Z.leb_le; lia).
  cbn [andb].
  change (4 + (2 + 2) + 2 + 2)%nat with 12%nat.
  destruct (Nat.leb_spec (12 + Z.to_nat (trailer_data_length w - 8)) (avail w))
    as [Hle | Hgt].
  - replace (Z.to_nat (trailer_data_length w - 8) <=? avail w - 12)%nat
      with true by (symmetry; apply Nat.leb_le; lia).
    cbv beta iota. rewrite advance_advance.
    fold (trailer_payload w).
    change (decode_ascii TRAILER_MAGIC) with "MCFG_TRL"%string.
    destruct (String.eqb (decode_ascii_ignore (trailer_payload w)) "MCFG_TRL");
      reflexivity.
  - replace (Z.to_nat (trailer_data_length w - 8) <=? avail w - 12)%nat
      with false by (symmetry; apply Nat.leb_gt; lia).
    reflexivity.
Qed.

(** ** [_read_mcfg_header] *)

Lemma find_magic_eq : forall w,
  _find_magic_and_seek MAGIC w =
  if magic_index w =? -1
  then (Raise (MbnExtractorException
                 "Invalid MBN format. Can't find magic string"),
        read_fail (-1) w)
  else (Ok tt, at_magic w).
Proof.
  intro w. unfold _find_magic_and_seek, bind, stream_read.
  cbn [Z.ltb Z.compare]. fold (magic_index w).
  destruct (magic_index w =? -1); reflexivity.
Qed.

Lemma read_mcfg_header_run : forall w,
  magic_index w <> -1 ->
  ((18 <= avail (at_magic w))%nat /\ _read_mcfg_header w = header_outcome w)
  \/
  ((avail (at_magic w) < 18)%nat /\
   exists w', _read_mcfg_header w = (Raise eof_error, w') /\
     saved w' = saved w).
Proof.
  intros w Hm. unfold _read_mcfg_header, header_outcome. unfold bind.
  rewrite find_magic_eq.
  replace (magic_index w =? -1) with false
    by (symmetry; apply Z.eqb_neq; exact Hm).
  cbv beta iota. change (Z.of_nat (length MAGIC)) with 4.
  set (ws := at_magic w).
  assert (Hs : saved ws = saved w) by reflexivity.
  step; [| right; norm; split; [lia | eexists; split; [reflexivity | exact Hs]]].
  step; [| right; norm; split; [lia | eexists; split; [reflexivity | exact Hs]]].
  step; [| right; norm; split; [lia | eexists; split; [reflexivity | exact Hs]]].
  step; [| right; norm; split; [lia | eexists; split; [reflexivity | exact Hs]]].
  step; [| right; norm; split; [lia | eexists; split; [reflexivity | exact Hs]]].
  step; [| right; norm; split; [lia | eexists; split; [reflexivity | exact Hs]]].
  step; [| right; norm; split; [lia | eexists; split; [reflexivity | exact Hs]]].
  left. norm. split; [lia |].
  fold_view (header_version_id w).
  destruct (header_version_id w =? 4995) eqn:Evid; cbn [negb]; cbv beta iota;
    [| reflexivity].
  rewrite read_H_eq. autorewrite with world.
  destruct (Nat.leb_spec 20 (avail ws)) as [H20 | H20].
  2:{ replace (2 <=? avail ws - (4 + (2 + (2 + (4 + (2 + 2)))) + 2))%nat
        with false by (symmetry; apply Nat.leb_gt; lia).
      reflexivity. }
  replace (2 <=? avail ws - (4 + (2 + (2 + (4 + (2 + 2)))) + 2))%nat
    with true by (symmetry; apply Nat.leb_le; lia).
  cbv beta iota. rewrite !advance_advance.
  fold_view (header_version_size w).
  destruct (header_version_size w =? 4) eqn:Evsz; cbn [negb]; cbv beta iota;
    [| reflexivity].
  rewrite read_I_eq. autorewrite with world.
  destruct (Nat.leb_spec 24 (avail ws)) as [H24 | H24].
  2:{ replace (4 <=? avail ws - (4 + (2 + (2 + (4 + (2 + 2)))) + 2 + 2))%nat
        with false by (symmetry; apply Nat.leb_gt; lia).
      reflexivity. }
  replace (4 <=? avail ws - (4 + (2 + (2 + (4 + (2 + 2)))) + 2 + 2))%nat
    with true by (symmetry; apply Nat.leb_le; lia).
  cbv beta iota. rewrite !advance_advance. reflexivity.
Qed.

Lemma read_mcfg_header_no_magic : forall w,
  magic_index w = -1 ->
  _read_mcfg_header w =
  (Raise (MbnExtractorException "Invalid MBN format. Can't find magic string"),
   read_fail (-1) w).
Proof.
  intros w Hm. unfold _read_mcfg_header. unfold bind.
  rewrite find_magic_eq, Hm. reflexivity.
Qed.

(** ** One item record *)

Lemma parse_item_eq : forall no_extra_data w,
  parse_item no_extra_data w =
  if (8 <=? avail w)%nat
  then dispatch no_extra_data (item_header_of w) (advance w 8)
  else (Raise eof_error, read_fail 8 w).
Proof.
  intros no_extra_data w. unfold parse_item, bind.
  rewrite read_item_header_eq.
  destruct (8 <=? avail w)%nat; reflexivity.
Qed.

Lemma parse_nv_raise_saved : forall ih w e w',
  _parse_nv ih w = (Raise e, w') -> saved w' = saved w.
Proof.
  intros ih w e w' H.
  destruct (parse_nv_run ih w) as [[_ Hrun] | [_ [w1 [Hrun Hs]]]];
    rewrite Hrun in H.
  - destruct (12 + nv_declared w =? ih_length ih).
    + apply save_raise_inv in H. destruct H as [-> _]. reflexivity.
    + inversion H; reflexivity.
  - inversion H; subst. exact Hs.
Qed.

Lemma parse_file_raise_saved : forall ih is_nv_file no_extra_data w e w',
  _parse_file ih is_nv_file no_extra_data w = (Raise e, w') ->
  saved w' = saved w.
Proof.
  intros ih is_nv_file no_extra_data w e w' H.
  destruct (parse_file_run ih is_nv_file no_extra_data w)
    as [[_ Hrun] | [_ [e1 [w1 [Hrun [Hs _]]]]]]; rewrite Hrun in H.
  - destruct (8 + Z.of_nat (file_span w) =? ih_length ih).
    + apply save_raise_inv in H. destruct H as [-> _]. reflexivity.
    + inversion H; reflexivity.
  - inversion H; subst. exact Hs.
Qed.

Lemma parse_nv_ok_inv : forall ih w w',
  _parse_nv ih w = (Ok tt, w') ->
  nv_readable w /\ 12 + nv_declared w = ih_length ih /\
  w' = with_saved (advance w (4 + Z.to_nat (nv_declared w)))
         ("NvItem__" ++ format_0d 8 (nv_id_of w)) (nv_data w).
Proof.
  intros ih w w' H.
  destruct (parse_nv_run ih w) as [[Hr Hrun] | [_ [w1 [Hrun _]]]];
    rewrite Hrun in H; [| discriminate].
  destruct (Z.eqb_spec (12 + nv_declared w) (ih_length ih)) as [E | E];
    [| discriminate].
  apply save_ok_inv in H. destruct H as [_ ->]. auto.
Qed.

Lemma parse_file_ok_inv : forall ih is_nv_file no_extra_data w w',
  _parse_file ih is_nv_file no_extra_data w = (Ok tt, w') ->
  file_wellformed w /\ 8 + Z.of_nat (file_span w) = ih_length ih /\
  w' = with_saved (advance w (file_span w))
         (file_save_name is_nv_file no_extra_data (file_name_of w))
         (file_data w).
Proof.
  intros ih is_nv_file no_extra_data w w' H.
  destruct (parse_file_run ih is_nv_file no_extra_data w)
    as [[Hr Hrun] | [_ [e1 [w1 [Hrun _]]]]]; rewrite Hrun in H;
    [| discriminate].
  destruct (Z.eqb_spec (8 + Z.of_nat (file_span w)) (ih_length ih))
    as [E | E]; [| discriminate].
  apply save_ok_inv in H. destruct H as [_ ->]. auto.
Qed.

Lemma dispatch_raise_saved : forall no_extra_data ih w e w',
  dispatch no_extra_data ih w = (Raise e, w') -> saved w' = saved w.
Proof.
  intros no_extra_data ih w e w'. unfold dispatch.
  destruct (ih_type ih =? ItemType.Nv);
    [apply parse_nv_raise_saved |].
  destruct (ih_type ih =? ItemType.NvFile);
    [apply parse_file_raise_saved |].
  destruct (ih_type ih =? ItemType.File);
    [apply parse_file_raise_saved |].
  intro H. inversion H. reflexivity.
Qed.

Lemma parse_item_raise_saved : forall no_extra_data w e w',
  parse_item no_extra_data w = (Raise e, w') -> saved w' = saved w.
Proof.
  intros no_extra_data w e w' H. rewrite parse_item_eq in H.
  destruct (8 <=? avail w)%nat.
  - apply dispatch_raise_saved in H. exact H.
  - inversion H. reflexivity.
Qed.

(** A successful turn consumes exactly the declared length and saves exactly
    one file. *)
Lemma parse_item_ok_inv : forall no_extra_data w w',
  parse_item no_extra_data w = (Ok tt, w') ->
  (8 <= avail w)%nat /\
  Z.of_nat (pos (stream w')) - Z.of_nat (pos (stream w))
    = ih_length (item_header_of w) /\
  buf (stream w') = buf (stream w) /\
  exists name content, saved w' = saved w ++ [(name, content)].
Proof.
  intros no_extra_data w w' H. rewrite parse_item_eq in H.
  destruct (Nat.leb_spec 8 (avail w)) as [H8 | H8]; [| discriminate].
  split; [exact H8 |].
  unfold dispatch in H.
  destruct (ih_type (item_header_of w) =? ItemType.Nv).
  { apply parse_nv_ok_inv in H. destruct H as [[Hd _] [Hlen Hw]]. subst w'.
    unfold with_saved. cbn [stream saved]. autorewrite with world.
    split; [lia |]. split; [reflexivity |]. eauto. }
  destruct (ih_type (item_header_of w) =? ItemType.NvFile).
  { apply parse_file_ok_inv in H. destruct H as [_ [Hlen Hw]]. subst w'.
    unfold with_saved, file_span in *. cbn [stream saved]. autorewrite with world.
    split; [lia |]. split; [reflexivity |]. eauto. }
  destruct (ih_type (item_header_of w) =? ItemType.File).
  { apply parse_file_ok_inv in H. destruct H as [_ [Hlen Hw]]. subst w'.
    unfold with_saved, file_span in *. cbn [stream saved]. autorewrite with world.
    split; [lia |]. split; [reflexivity |]. eauto. }
  discriminate.
Qed.

(** ** Decimal formatting *)

Lemma dec_value_from_digit : forall a d rest,
  0 <= d <= 9 ->
  dec_value_from a (String (ascii_of_nat (48 + Z.to_nat d)) rest) =
  dec_value_from (10 * a + d) rest.
Proof.
  intros a d rest Hd. cbn [dec_value_from].
  rewrite nat_ascii_embedding by lia.
  replace (Z.of_nat (48 + Z.to_nat d) - 48) with d by lia.
  replace (0 <=? d) with true by (symmetry; apply Z.leb_le; lia).
  replace (d <=? 9) with true by (symmetry; apply Z.leb_le; lia).
  reflexivity.
Qed.

Lemma dec_digits_spec : forall fuel n acc,
  0 <= n -> n < 10 ^ Z.of_nat (S fuel) ->
  exists k : nat,
    (1 <= k)%nat /\
    String.length (dec_digits fuel n acc) = (k + String.length acc)%nat /\
    (k = 1%nat \/ 10 ^ (Z.of_nat k - 1) <= n) /\
    forall a, dec_value_from a (dec_digits fuel n acc) =
              dec_value_from (a * 10 ^ Z.of_nat k + n) acc.
Proof.
  induction fuel as [| f IH]; intros n acc H0 Hlt.
  - change (10 ^ Z.of_nat 1) with 10 in Hlt.
    exists 1%nat. cbn [dec_digits]. split; [lia |]. split; [reflexivity |].
    split; [left; reflexivity |]. intro a.
    rewrite Z.mod_small by lia. rewrite dec_value_from_digit by lia.
    f_equal. change (10 ^ Z.of_nat 1) with 10. lia.
  - cbn [dec_digits].
    pose proof (Z.mod_pos_bound n 10 ltac:(lia)) as Hm.
    pose proof (Z.div_mod n 10 ltac:(lia)) as Hdm.
    destruct (Z.eqb_spec (n / 10) 0) as [Hq | Hq].
    + exists 1%nat. split; [lia |]. split; [reflexivity |].
      split; [left; reflexivity |]. intro a.
      rewrite dec_value_from_digit by lia.
      f_equal. change (10 ^ Z.of_nat 1) with 10. lia.
    + assert (Hq0 : 0 < n / 10).
      { pose proof (Z.div_pos n 10 H0 ltac:(lia)). lia. }
      assert (Hqlt : n / 10 < 10 ^ Z.of_nat (S f)).
      { apply Z.div_lt_upper_bound; [lia |].
        rewrite <- Z.pow_succ_r by lia. rewrite <- Nat2Z.inj_succ. exact Hlt. }
      destruct (IH (n / 10)
                  (String (ascii_of_nat (48 + Z.to_nat (n mod 10))) acc)
                  ltac:(lia) Hqlt) as [k [Hk [Hlen [Hlow Hval]]]].
      exists (S k). split; [lia |].
      split; [rewrite Hlen; cbn [String.length]; lia |].
      split.
      * right. replace (Z.of_nat (S k) - 1) with (Z.succ (Z.of_nat k - 1))
          by lia.
        rewrite Z.pow_succ_r by lia.
        destruct Hlow as [-> | Hlow]; [cbn; lia | lia].
      * intro a. rewrite Hval. rewrite dec_value_from_digit by lia.
        f_equal. rewrite Nat2Z.inj_succ, Z.pow_succ_r by lia. lia.
Qed.

Lemma log2_fuel_enough : forall n,
  0 <= n -> n < 10 ^ Z.of_nat (S (Z.to_nat (Z.log2 n))).
Proof.
  intros n H0. pose proof (Z.log2_nonneg n) as Hl.
  rewrite Nat2Z.inj_succ, Z2Nat.id by exact Hl.
  destruct (Z.eq_dec n 0) as [-> | Hn].
  - cbn. lia.
  - pose proof (Z.log2_spec n ltac:(lia)) as [_ Hup].
    assert (2 ^ Z.succ (Z.log2 n) <= 10 ^ Z.succ (Z.log2 n))
      by (apply Z.pow_le_mono_l; lia).
    lia.
Qed.

Lemma length_zeros_append : forall k s,
  String.length (zeros k ++ s) = (k + String.length s)%nat.
Proof.
  induction k as [| k IH]; intro s; [reflexivity |].
  cbn [zeros append String.length]. now rewrite IH.
Qed.

Lemma dec_value_zeros : forall k s,
  dec_value_from 0 (zeros k ++ s) = dec_value_from 0 s.
Proof.
  induction k as [| k IH]; intro s; [reflexivity |].
  cbn [zeros append]. exact (IH s).
Qed.

Lemma format_0d_8_spec : forall n,
  0 <= n ->
  dec_value (format_0d 8 n) = Some n /\
  (n < 10 ^ 8 -> String.length (format_0d 8 n) = 8%nat).
Proof.
  intros n H0. unfold format_0d, dec_value, str_of_nonneg. cbv zeta.
  destruct (dec_digits_spec (Z.to_nat (Z.log2 n)) n EmptyString H0
              (log2_fuel_enough n H0)) as [k [Hk [Hlen [Hlow Hval]]]].
  cbn [String.length] in Hlen. split.
  - rewrite dec_value_zeros, Hval. cbn [dec_value_from]. f_equal.
  - intro H8. rewrite length_zeros_append, Hlen.
    assert (k <= 8)%nat; [| lia].
    destruct Hlow as [-> | Hlow]; [lia |].
    destruct (Nat.le_gt_cases k 8) as [Hle | Hgt]; [exact Hle |].
    assert (10 ^ 8 <= 10 ^ (Z.of_nat k - 1))
      by (apply Z.pow_le_mono_r; lia).
    lia.
Qed.

(** ** The header, the loop and the image *)

Lemma read_mcfg_header_ok_inv : forall w h w1,
  _read_mcfg_header w = (Ok h, w1) ->
  magic_index w <> -1 /\ (24 <= avail (at_magic w))%nat /\
  header_version_id w = 4995 /\ header_version_size w = 4 /\
  h = header_of w /\ w1 = advance (at_magic w) 24.
Proof.
  intros w h w1 H.
  destruct (Z.eq_dec (magic_index w) (-1)) as [Hm | Hm].
  { rewrite (read_mcfg_header_no_magic w Hm) in H. discriminate. }
  split; [exact Hm |].
  destruct (read_mcfg_header_run w Hm) as [[_ Hrun] | [_ [w2 [Hrun _]]]];
    rewrite Hrun in H; [| discriminate].
  unfold header_outcome in H. cbv zeta in H.
  destruct (Z.eqb_spec (header_version_id w) 4995) as [Evid | Evid];
    cbn [negb] in H; [| discriminate].
  destruct (20 <=? avail (at_magic w))%nat; [| discriminate].
  destruct (Z.eqb_spec (header_version_size w) 4) as [Evsz | Evsz];
    cbn [negb] in H; [| discriminate].
  destruct (Nat.leb_spec 24 (avail (at_magic w))) as [H24 | H24];
    [| discriminate].
  inversion H. auto.
Qed.

Lemma read_mcfg_header_raise_saved : forall w e w1,
  _read_mcfg_header w = (Raise e, w1) -> saved w1 = saved w.
Proof.
  intros w e w1 H.
  destruct (Z.eq_dec (magic_index w) (-1)) as [Hm | Hm].
  { rewrite (read_mcfg_header_no_magic w Hm) in H. inversion H. reflexivity. }
  destruct (read_mcfg_header_run w Hm) as [[_ Hrun] | [_ [w2 [Hrun Hs]]]];
    rewrite Hrun in H; [| inversion H; subst; exact Hs].
  unfold header_outcome in H. cbv zeta in H.
  destruct (negb (header_version_id w =? 4995));
    [inversion H; reflexivity |].
  destruct (20 <=? avail (at_magic w))%nat; [| inversion H; reflexivity].
  destruct (negb (header_version_size w =? 4));
    [inversion H; reflexivity |].
  destruct (24 <=? avail (at_magic w))%nat; inversion H; reflexivity.
Qed.

Lemma for_range_items_run : forall no_extra_data n w w',
  for_range n (parse_item no_extra_data) w = (Ok tt, w') <->
  items_run no_extra_data n w w'.
Proof.
  intros no_extra_data n. induction n as [| n IH]; intros w w'.
  - cbn [for_range]. unfold ret. split.
    + intro H. inversion H. constructor.
    + intro H. inversion H. reflexivity.
  - cbn [for_range]. unfold bind. split.
    + intro H.
      destruct (parse_item no_extra_data w) as [[[] | e] w1] eqn:E;
        [| discriminate].
      apply IH in H. econstructor; eassumption.
    + intro H. inversion H as [| k w0 w1 w2 Hstep Hrest]; subst.
      rewrite Hstep. apply IH. exact Hrest.
Qed.

Lemma items_run_saved : forall no_extra_data k w w',
  items_run no_extra_data k w w' ->
  length (saved w') = (length (saved w) + k)%nat /\
  buf (stream w') = buf (stream w) /\
  exists added, saved w' = saved w ++ added.
Proof.
  intros no_extra_data k w w' H. induction H as [w | k w w1 w2 Hstep _ IH].
  - split; [lia |]. split; [reflexivity |]. exists []. now rewrite app_nil_r.
  - apply parse_item_ok_inv in Hstep.
    destruct Hstep as [_ [_ [Hb [name [content Hs]]]]].
    destruct IH as [IHl [IHb [added IHs]]].
    split; [rewrite IHl, Hs, length_app; cbn [length]; lia |].
    split; [congruence |].
    exists ((name, content) :: added). rewrite IHs, Hs, <- app_assoc.
    reflexivity.
Qed.

Lemma read_trailer_saved : forall w r w',
  _read_trailer w = (r, w') -> saved w' = saved w.
Proof.
  intros w r w' H.
  destruct (read_trailer_run w) as [[_ Hrun] | [_ [e [w1 [Hrun [Hs _]]]]]];
    rewrite Hrun in H; [| inversion H; subst; exact Hs].
  unfold trailer_outcome in H.
  destruct (negb (trailer_magic1 w =? 10)); [inversion H; reflexivity |].
  destruct (negb (trailer_magic2 w =? 161)); [inversion H; reflexivity |].
  destruct (trailer_data_length w <? 8); [inversion H; reflexivity |].
  destruct (12 + Z.to_nat (trailer_data_length w - 8) <=? avail w)%nat;
    [| inversion H; reflexivity].
  destruct (String.eqb (decode_ascii_ignore (trailer_payload w)) "MCFG_TRL");
    inversion H; reflexivity.
Qed.

Lemma parse_image_eq : forall no_extra_data w,
  _parse_image no_extra_data w =
  match _read_mcfg_header w with
  | (Ok h, w1) =>
      if items_count h =? 0 then
        (Raise (MbnExtractorException "Invalid MBN header: zero items count"),
         w1)
      else
        match for_range (Z.to_nat (items_count h - 1))
                (parse_item no_extra_data) w1 with
        | (Ok _, w2) => _read_trailer w2
        | (Raise e, w2) => (Raise e, w2)
        end
  | (Raise e, w1) => (Raise e, w1)
  end.
Proof.
  intros no_extra_data w. unfold _parse_image, bind.
  destruct (_read_mcfg_header w) as [[h | e] w1]; [| reflexivity].
  destruct (items_count h =? 0) eqn:E0; [reflexivity |].
  replace (Z.to_nat (Z.max 0 (items_count h - 1)))
    with (Z.to_nat (items_count h - 1)) by lia.
  reflexivity.
Qed.

(** ** The trailer *)

Lemma read_trailer_ok_inv : forall w w',
  _read_trailer w = (Ok tt, w') ->
  trailer_magic1 w = 10 /\ trailer_magic2 w = 161 /\
  8 <= trailer_data_length w /\
  (12 + Z.to_nat (trailer_data_length w - 8) <= avail w)%nat /\
  decode_ascii_ignore (trailer_payload w) = "MCFG_TRL"%string /\
  w' = advance w (12 + Z.to_nat (trailer_data_length w - 8)).
Proof.
  intros w w' H.
  destruct (read_trailer_run w) as [[_ Hrun] | [_ [e [w1 [Hrun _]]]]];
    rewrite Hrun in H; [| discriminate].
  unfold trailer_outcome in H.
  destruct (Z.eqb_spec (trailer_magic1 w) 10) as [E1 | E1];
    cbn [negb] in H; [| discriminate].
  destruct (Z.eqb_spec (trailer_magic2 w) 161) as [E2 | E2];
    cbn [negb] in H; [| discriminate].
  destruct (Z.ltb_spec (trailer_data_length w) 8) as [E3 | E3];
    [discriminate |].
  destruct (Nat.leb_spec (12 + Z.to_nat (trailer_data_length w - 8)) (avail w))
    as [E4 | E4]; [| discriminate].
  destruct (String.eqb_spec (decode_ascii_ignore (trailer_payload w))
              "MCFG_TRL") as [E5 | E5]; [| discriminate].
  inversion H. auto 10.
Qed.

Lemma read_trailer_present : forall w,
  (12 <= avail w)%nat ->
  (8 <= trailer_data_length w ->
   (12 + Z.to_nat (trailer_data_length w - 8) <= avail w)%nat) ->
  trailer_magic1 w <> 10 \/ trailer_magic2 w <> 161 \/
  trailer_data_length w < 8 \/
  decode_ascii_ignore (trailer_payload w) <> "MCFG_TRL"%string ->
  exists e w',
    _read_trailer w = (Raise e, w') /\ trailer_error e /\ saved w' = saved w.
Proof.
  intros w H12 Hpay Hbad.
  destruct (read_trailer_run w) as [[_ Hrun] | [Hlt _]]; [| lia].
  rewrite Hrun. unfold trailer_outcome, trailer_error.
  destruct (Z.eqb_spec (trailer_magic1 w) 10) as [E1 | E1]; cbn [negb].
  2:{ eexists _, _. split; [reflexivity |]. split; [tauto | reflexivity]. }
  destruct (Z.eqb_spec (trailer_magic2 w) 161) as [E2 | E2]; cbn [negb].
  2:{ eexists _, _. split; [reflexivity |]. split; [tauto | reflexivity]. }
  destruct (Z.ltb_spec (trailer_data_length w) 8) as [E3 | E3].
  { eexists _, _. split; [reflexivity |]. split; [tauto | reflexivity]. }
  replace (12 + Z.to_nat (trailer_data_length w - 8) <=? avail w)%nat
    with true by (symmetry; apply Nat.leb_le; auto).
  destruct (String.eqb_spec (decode_ascii_ignore (trailer_payload w))
              "MCFG_TRL") as [E5 | E5].
  { exfalso. destruct Hbad as [Hb | [Hb | [Hb | Hb]]];
      [contradiction | contradiction | lia | contradiction]. }
  eexists _, _. split; [reflexivity |]. split; [tauto | reflexivity].
Qed.

Lemma string_of_bytes_inj : forall l l',
  string_of_bytes l = string_of_bytes l' -> l = l'.
Proof.
  induction l as [| b t IH]; intros [| b' t'] H; try discriminate.
  - reflexivity.
  - cbn [string_of_bytes] in H. inversion H as [[Hb Ht]].
    apply (f_equal byte_of_ascii) in Hb.
    rewrite !byte_of_ascii_of_byte in Hb.
    rewrite (IH _ Ht), Hb. reflexivity.
Qed.

Lemma decode_is_trailer_magic : forall l,
  decode_ascii_ignore l = "MCFG_TRL"%string <->
  filter is_ascii l = TRAILER_MAGIC.
Proof.
  intro l. unfold decode_ascii_ignore. split.
  - intro H. apply string_of_bytes_inj. rewrite H. reflexivity.
  - intro H. rewrite H. reflexivity.
Qed.

Lemma parse_image_header_raise : forall no_extra_data w e w1,
  _read_mcfg_header w = (Raise e, w1) ->
  _parse_image no_extra_data w = (Raise e, w1).
Proof.
  intros no_extra_data w e w1 H. rewrite parse_image_eq, H. reflexivity.
Qed.

(** ** Field ranges and names *)

Lemma length_slice_le : forall w n, (length (slice w n) <= n)%nat.
Proof. intros w n. unfold slice. rewrite length_firstn. lia. Qed.

Lemma u16_field_range : forall w, 0 <= le_int (slice w 2) < 65536.
Proof.
  intro w. split; [apply le_int_nonneg |].
  pose proof (le_int_bound (slice w 2)) as Hb.
  pose proof (length_slice_le w 2) as Hl.
  assert (256 ^ Z.of_nat (length (slice w 2)) <= 256 ^ 2)
    by (apply Z.pow_le_mono_r; lia).
  lia.
Qed.

Lemma length_string_of_bytes : forall l,
  String.length (string_of_bytes l) = length l.
Proof.
  induction l as [| b t IH]; [reflexivity |].
  cbn [string_of_bytes String.length length]. now rewrite IH.
Qed.

Lemma filter_length_lt : forall (f : byte -> bool) l,
  (exists b, In b l /\ f b = false) ->
  (length (filter f l) < length l)%nat.
Proof.
  intros f l [b [Hin Hf]]. induction l as [| a t IH]; [contradiction |].
  cbn [filter length]. destruct Hin as [-> | Hin].
  - rewrite Hf. pose proof (filter_length_le f t). lia.
  - specialize (IH Hin). destruct (f a); cbn [length]; lia.
Qed.

Lemma read_exact_minus_one : forall w,
  _read_exact (-1) w = (Raise eof_error, read_fail (-1) w).
Proof. intro w. apply read_exact_short. left. lia. Qed.

(** * The claims *)

(** ** C1: a record takes exactly its declared length *)

(** C1. For an item record of any kind (NV, NvFile, File) that starts under
    the cursor: when its decoding succeeds, the cursor has moved by exactly
    the length field of the record's header, the eight header bytes
    included, and one file was saved; when the decoder can read all its
    fields (and, for a file-shaped record, both magics are right) but the
    bytes it consumed, header included, differ from the length field, the
    result is the size error of that kind ("Invalid NV item size" or
    "Invalid file item size"), raised with the cursor after the consumed
    bytes and with nothing saved for the record. *)
Theorem item_span_equals_declared_length : forall no_extra_data w,
  let ih := item_header_of w in
  let p := advance w 8 in
  (forall w',
     parse_item no_extra_data w = (Ok tt, w') ->
     Z.of_nat (pos (stream w')) - Z.of_nat (pos (stream w)) = ih_length ih /\
     exists name content, saved w' = saved w ++ [(name, content)])
  /\
  ((8 <= avail w)%nat -> ih_type ih = ItemType.Nv -> nv_readable p ->
   let span := (8 + (4 + Z.to_nat (nv_declared p)))%nat in
   Z.of_nat span <> ih_length ih ->
   parse_item no_extra_data w =
     (Raise (MbnExtractorException "Invalid NV item size"), advance w span))
  /\
  ((8 <= avail w)%nat ->
   ih_type ih = ItemType.NvFile \/ ih_type ih = ItemType.File ->
   file_wellformed p ->
   let span := (8 + file_span p)%nat in
   Z.of_nat span <> ih_length ih ->
   parse_item no_extra_data w =
     (Raise (MbnExtractorException "Invalid file item size"),
      advance w span))
  /\
  (forall e w', parse_item no_extra_data w = (Raise e, w') ->
                saved w' = saved w).
Proof.
  intros no_extra_data w ih p. split; [| split; [| split]].
  4:{ intros e w'. apply parse_item_raise_saved. }
  - intros w' H. apply parse_item_ok_inv in H.
    destruct H as [_ [Hspan [_ Hsaved]]]. auto.
  - intros H8 Ht [Hd Hav] span Hne.
    rewrite parse_item_eq.
    replace (8 <=? avail w)%nat with true by (symmetry; apply Nat.leb_le; lia).
    fold ih p. unfold dispatch. cbv zeta.
    replace (ih_type ih =? ItemType.Nv) with true
      by (rewrite Ht; reflexivity).
    destruct (parse_nv_run ih p) as [[_ Hrun] | [Hbad _]].
    2:{ exfalso. apply Hbad. split; assumption. }
    rewrite Hrun.
    replace (12 + nv_declared p =? ih_length ih) with false
      by (symmetry; apply Z.eqb_neq; unfold span in Hne; lia).
    unfold p. rewrite advance_advance. reflexivity.
  - intros H8 Ht Hwf span Hne.
    rewrite parse_item_eq.
    replace (8 <=? avail w)%nat with true by (symmetry; apply Nat.leb_le; lia).
    fold ih p. unfold dispatch. cbv zeta.
    assert (Hgo : forall b,
      _parse_file ih b no_extra_data p =
      (Raise (MbnExtractorException "Invalid file item size"),
       advance w span)).
    { intro b.
      destruct (parse_file_run ih b no_extra_data p)
        as [[_ Hrun] | [Hbad _]]; [| contradiction].
      rewrite Hrun.
      replace (8 + Z.of_nat (file_span p) =? ih_length ih) with false
        by (symmetry; apply Z.eqb_neq; unfold span in Hne; lia).
      unfold p. rewrite advance_advance. reflexivity. }
    destruct Ht as [Ht | Ht].
    + replace (ih_type ih =? ItemType.Nv) with false
        by (rewrite Ht; reflexivity).
      replace (ih_type ih =? ItemType.NvFile) with true
        by (rewrite Ht; reflexivity).
      apply Hgo.
    + replace (ih_type ih =? ItemType.Nv) with false
        by (rewrite Ht; reflexivity).
      replace (ih_type ih =? ItemType.NvFile) with false
        by (rewrite Ht; reflexivity).
      replace (ih_type ih =? ItemType.File) with true
        by (rewrite Ht; reflexivity).
      apply Hgo.
Qed.

Lemma item_span_witness :
  Z.of_nat (pos (stream (snd (parse_item false
       (fresh_world sample_fs (sample_nv7 ++ sample_trailer))))))
  - Z.of_nat (pos (stream (fresh_world sample_fs (sample_nv7 ++ sample_trailer))))
  = ih_length (item_header_of (fresh_world sample_fs (sample_nv7 ++ sample_trailer)))
  /\
  parse_item false (fresh_world sample_fs (sample_nv7_short ++ sample_trailer)) =
    (Raise (MbnExtractorException "Invalid NV item size"),
     advance (fresh_world sample_fs (sample_nv7_short ++ sample_trailer)) 14)
  /\
  parse_item false (fresh_world sample_fs (sample_file_short x04 ++ sample_trailer)) =
    (Raise (MbnExtractorException "Invalid file item size"),
     advance (fresh_world sample_fs (sample_file_short x04 ++ sample_trailer)) 21).
Proof.
  split; [| split].
  - destruct (item_span_equals_declared_length false
                (fresh_world sample_fs (sample_nv7 ++ sample_trailer)))
      as [H _].
    destruct (H (snd (parse_item false
                   (fresh_world sample_fs (sample_nv7 ++ sample_trailer)))))
      as [Hspan _]; [reflexivity |].
    exact Hspan.
  - destruct (item_span_equals_declared_length false
                (fresh_world sample_fs (sample_nv7_short ++ sample_trailer)))
      as [_ [H _]].
    apply H.
    + vm_compute. lia.
    + reflexivity.
    + split; [vm_compute; discriminate | vm_compute; lia].
    + vm_compute. discriminate.
  - destruct (item_span_equals_declared_length false
                (fresh_world sample_fs (sample_file_short x04 ++ sample_trailer)))
      as [_ [_ [H _]]].
    apply H.
    + vm_compute. lia.
    + right. reflexivity.
    + split; [vm_compute; discriminate |].
      split; [vm_compute; lia |].
      split; vm_compute; reflexivity.
    + vm_compute. discriminate.
Defined.

(** ** C2: [items_count - 1] item records, then the trailer *)

(** C2. [_parse_image] succeeds exactly when the header is read with an
    [items_count] of at least 1, then [items_count - 1] turns of the item
    loop succeed one after the other, each saving one file, and
    [_read_trailer] succeeds on the world the last turn leaves; so on a
    well-formed buffer with [items_count = N] exactly [N - 1] item records
    are read and the trailer is read right after them. *)
Theorem dispatcher_reads_count_minus_one_items : forall no_extra_data w w',
  _parse_image no_extra_data w = (Ok tt, w') <->
  exists h w1 w2,
    _read_mcfg_header w = (Ok h, w1) /\
    1 <= items_count h /\
    items_run no_extra_data (Z.to_nat (items_count h - 1)) w1 w2 /\
    length (saved w2) = (length (saved w) + Z.to_nat (items_count h - 1))%nat /\
    _read_trailer w2 = (Ok tt, w') /\
    saved w' = saved w2.
Proof.
  intros no_extra_data w w'. rewrite parse_image_eq. split.
  - intro H.
    destruct (_read_mcfg_header w) as [[h | e] w1] eqn:Eh; [| discriminate].
    pose proof (read_mcfg_header_ok_inv _ _ _ Eh)
      as [_ [_ [_ [_ [Hh Hw1]]]]].
    destruct (Z.eqb_spec (items_count h) 0) as [E0 | E0]; [discriminate |].
    destruct (for_range (Z.to_nat (items_count h - 1))
                (parse_item no_extra_data) w1) as [[[] | e] w2] eqn:Ef;
      [| discriminate].
    apply for_range_items_run in Ef.
    exists h, w1, w2. split; [reflexivity |].
    split.
    { assert (0 <= items_count h)
        by (rewrite Hh; cbn [items_count header_of];
            unfold header_items_count; apply le_int_nonneg).
      lia. }
    split; [exact Ef |].
    split.
    { destruct (items_run_saved _ _ _ _ Ef) as [Hl _]. rewrite Hl.
      subst w1. reflexivity. }
    split; [exact H |]. eapply read_trailer_saved; exact H.
  - intros [h [w1 [w2 [Eh [Hn [Hrun [_ [Ht _]]]]]]]].
    rewrite Eh.
    replace (items_count h =? 0) with false
      by (symmetry; apply Z.eqb_neq; lia).
    apply for_range_items_run in Hrun. rewrite Hrun. exact Ht.
Qed.

Lemma dispatcher_reads_witness :
  exists h w1 w2,
    _read_mcfg_header (fresh_world sample_fs sample_image) = (Ok h, w1) /\
    1 <= items_count h /\
    items_run false (Z.to_nat (items_count h - 1)) w1 w2 /\
    length (saved w2) =
      (length (saved (fresh_world sample_fs sample_image))
       + Z.to_nat (items_count h - 1))%nat /\
    _read_trailer w2 = (Ok tt, snd (_parse_image false
                                      (fresh_world sample_fs sample_image))) /\
    saved (snd (_parse_image false (fresh_world sample_fs sample_image))) = saved w2.
Proof.
  apply (proj1 (dispatcher_reads_count_minus_one_items false
                  (fresh_world sample_fs sample_image)
                  (snd (_parse_image false (fresh_world sample_fs sample_image))))).
  vm_compute. reflexivity.
Defined.

(** ** C3: the trailer *)

(** C3, the claim as stated fails: a trailer whose nine payload bytes are
    0xFF followed by [MCFG_TRL] is accepted, although its payload is not
    those eight ASCII bytes. *)
Lemma trailer_padded_payload_accepted :
  trailer_payload (fresh_world sample_fs sample_trailer_padded) <> TRAILER_MAGIC /\
  _read_trailer (fresh_world sample_fs sample_trailer_padded) =
    (Ok tt, advance (fresh_world sample_fs sample_trailer_padded) 21).
Proof.
  split; [vm_compute; discriminate | vm_compute; reflexivity].
Qed.

(** C3, amended. [_read_trailer] accepts only when magic1 is 10, magic2 is
    0xA1, data_length is at least 8 and the [data_length - 8] payload bytes,
    once the bytes that are not ASCII are dropped, are exactly [MCFG_TRL].
    A trailer that is wholly in the buffer and fails one of these four
    checks raises one of the four trailer errors. Whatever [_read_trailer]
    does, the saved files stay as they were; and when the trailer of an
    image fails after [items_count - 1] items were read, [_parse_image]
    raises that error with the files of those items still saved. *)
Theorem trailer_validation :
  (forall w,
     (forall w',
        _read_trailer w = (Ok tt, w') ->
        trailer_magic1 w = 10 /\ trailer_magic2 w = 161 /\
        8 <= trailer_data_length w /\
        Z.of_nat (length (trailer_payload w)) = trailer_data_length w - 8 /\
        decode_ascii_ignore (trailer_payload w) = "MCFG_TRL"%string /\
        filter is_ascii (trailer_payload w) = TRAILER_MAGIC)
     /\
     ((12 <= avail w)%nat ->
      (8 <= trailer_data_length w ->
       (12 + Z.to_nat (trailer_data_length w - 8) <= avail w)%nat) ->
      trailer_magic1 w <> 10 \/ trailer_magic2 w <> 161 \/
      trailer_data_length w < 8 \/
      filter is_ascii (trailer_payload w) <> TRAILER_MAGIC ->
      exists e w',
        _read_trailer w = (Raise e, w') /\ trailer_error e /\
        saved w' = saved w)
     /\
     (forall r w', _read_trailer w = (r, w') -> saved w' = saved w))
  /\
  (forall no_extra_data image h w1 w2 e w3,
     _read_mcfg_header image = (Ok h, w1) ->
     items_count h <> 0 ->
     items_run no_extra_data (Z.to_nat (items_count h - 1)) w1 w2 ->
     _read_trailer w2 = (Raise e, w3) ->
     _parse_image no_extra_data image = (Raise e, w3) /\
     saved w3 = saved w2 /\
     length (saved w3)
       = (length (saved image) + Z.to_nat (items_count h - 1))%nat).
Proof.
  split; [intro w; split; [| split] |].
  - intros w' H. apply read_trailer_ok_inv in H.
    destruct H as [H1 [H2 [H3 [H4 [H5 _]]]]].
    repeat (split; [assumption |]).
    split.
    + unfold trailer_payload. rewrite length_slice; [lia |].
      autorewrite with world. lia.
    + split; [exact H5 | apply decode_is_trailer_magic; exact H5].
  - intros H12 Hpay Hbad. apply read_trailer_present; try assumption.
    rewrite decode_is_trailer_magic. exact Hbad.
  - apply read_trailer_saved.
  - intros no_extra_data image h w1 w2 e w3 Eh Hn Hrun Ht.
    pose proof (read_mcfg_header_ok_inv _ _ _ Eh)
      as [_ [_ [_ [_ [_ Hw1]]]]].
    pose proof (read_trailer_saved _ _ _ Ht) as Hs.
    destruct (items_run_saved _ _ _ _ Hrun) as [Hl _].
    split; [| split; [exact Hs |]].
    + rewrite parse_image_eq, Eh.
      replace (items_count h =? 0) with false
        by (symmetry; apply Z.eqb_neq; exact Hn).
      apply for_range_items_run in Hrun. rewrite Hrun. exact Ht.
    + rewrite Hs, Hl. subst w1. reflexivity.
Qed.

Lemma trailer_validation_witness :
  (exists e w',
     _read_trailer (fresh_world sample_fs sample_trailer_bad) = (Raise e, w') /\
     trailer_error e /\ saved w' = [])
  /\
  saved (snd (_parse_image false
                (fresh_world sample_fs ([xff; xfe] ++ sample_header x04 ++ sample_nv7
                   ++ sample_file x04 ++ sample_file x02
                   ++ sample_trailer_bad)))) =
  [("NvItem__00000007"%string, [xaa; xbb]);
   ("abc__81FF_0"%string, [xcc]); ("abc__E1FF_F"%string, [xcc])].
Proof.
  split.
  - destruct trailer_validation as [H _].
    destruct (H (fresh_world sample_fs sample_trailer_bad)) as [_ [H' _]].
    apply H'.
    + vm_compute. lia.
    + intros _. vm_compute. lia.
    + right. right. right. vm_compute. discriminate.
  - pose (w := fresh_world sample_fs ([xff; xfe] ++ sample_header x04 ++ sample_nv7
                   ++ sample_file x04 ++ sample_file x02
                   ++ sample_trailer_bad)).
    destruct trailer_validation as [_ H].
    pose (w1 := advance (at_magic w) 24).
    pose (w2 := with_saved (with_saved (with_saved (advance w1 59)
                  "NvItem__00000007" [xaa; xbb])
                  "abc__81FF_0" [xcc]) "abc__E1FF_F" [xcc]).
    destruct (H false w (header_of w) w1 w2
                (MbnExtractorException "Invalid trailer magic value")
                (advance w2 20)) as [Hp [Hs _]].
    + vm_compute. reflexivity.
    + vm_compute. discriminate.
    + apply for_range_items_run. vm_compute. reflexivity.
    + vm_compute. reflexivity.
    + fold w. rewrite Hp. vm_compute. reflexivity.
Defined.

(** ** C4: exit status *)

Lemma no_extra_unbound : forall input_path outdir,
  lookup_name "no_extra" (main_scope input_path outdir) = None.
Proof. intros input_path outdir. reflexivity. Qed.

(** C4. On an input path that exists, [main] ends with status 1 whatever
    the file holds: the name [no_extra] in the call of [extract] is bound
    neither in [main] nor in the module, the lookup raises [NameError]
    before [extract] runs, and the handler for other exceptions exits with
    1. A well-formed input therefore does not exit with 0, nor a malformed
    one with 2. *)
Theorem main_existing_input_exits_1 :
  forall args input_path dirname elf w,
  main args true input_path dirname elf w = (1, w).
Proof.
  intros args input_path dirname elf w. unfold main. cbn [negb].
  unfold bind, load_name. rewrite no_extra_unbound. reflexivity.
Qed.

Lemma main_missing_input_exits_2 :
  forall args input_path dirname elf w,
  main args false input_path dirname elf w = (2, w).
Proof. reflexivity. Qed.

Lemma extract_sample_image_succeeds :
  fst (extract (ElfSegments [SegmentBytes []; SegmentBytes [];
                             SegmentBytes sample_image])
         false (fresh_world sample_fs []))
  = Ok tt.
Proof. vm_compute. reflexivity. Qed.

(** ** C5: header constants and the empty container *)

(** C5. When [_read_mcfg_header] returns a header, version_id is 4995 and
    version_size is 4. When the signature is found and the field is in the
    buffer, a version_id other than 4995, or a version_size other than 4,
    makes header parsing (and so [_parse_image]) raise one of the two
    invalid-header errors, with nothing saved and the cursor not past the
    version_size field. When the header is valid and its items_count is 0,
    [_parse_image] raises the zero-items error with the cursor right after
    the 24 header bytes: no item record was read. *)
Theorem header_constants_and_count_checked : forall no_extra_data w,
  (forall h w1,
     _read_mcfg_header w = (Ok h, w1) ->
     header_version_id w = 4995 /\ header_version_size w = 4)
  /\
  (magic_index w <> -1 ->
   ((18 <= avail (at_magic w))%nat /\ header_version_id w <> 4995) \/
   ((20 <= avail (at_magic w))%nat /\ header_version_size w <> 4) ->
   exists e w1,
     _read_mcfg_header w = (Raise e, w1) /\ invalid_header_error e /\
     _parse_image no_extra_data w = (Raise e, w1) /\
     saved w1 = saved w /\
     (pos (stream w1) <= Z.to_nat (magic_index w) + 20)%nat)
  /\
  (magic_index w <> -1 -> (24 <= avail (at_magic w))%nat ->
   header_version_id w = 4995 -> header_version_size w = 4 ->
   header_items_count w = 0 ->
   _parse_image no_extra_data w =
     (Raise zero_items_error, advance (at_magic w) 24)).
Proof.
  intros no_extra_data w. split; [| split].
  - intros h w1 H. apply read_mcfg_header_ok_inv in H. tauto.
  - intros Hm Hbad.
    destruct (read_mcfg_header_run w Hm) as [[_ Hrun] | [Hlt _]]; [| lia].
    unfold header_outcome in Hrun. cbv zeta in Hrun.
    destruct (Z.eqb_spec (header_version_id w) 4995) as [Evid | Evid];
      cbn [negb] in Hrun.
    + destruct Hbad as [[_ Hbad] | [H20 Hbad]]; [contradiction |].
      replace (20 <=? avail (at_magic w))%nat with true in Hrun
        by (symmetry; apply Nat.leb_le; exact H20).
      destruct (Z.eqb_spec (header_version_size w) 4) as [Evsz | Evsz];
        cbn [negb] in Hrun; [contradiction |].
      eexists _, _. split; [exact Hrun |].
      split; [right; reflexivity |].
      split; [apply parse_image_header_raise; exact Hrun |].
      split; [reflexivity |]. cbn. lia.
    + eexists _, _. split; [exact Hrun |].
      split; [left; reflexivity |].
      split; [apply parse_image_header_raise; exact Hrun |].
      split; [reflexivity |]. cbn. lia.
  - intros Hm H24 Evid Evsz Hcount.
    destruct (read_mcfg_header_run w Hm) as [[_ Hrun] | [Hlt _]]; [| lia].
    unfold header_outcome in Hrun. cbv zeta in Hrun.
    rewrite Evid, Evsz in Hrun. cbn [Z.eqb Pos.eqb negb] in Hrun.
    replace (20 <=? avail (at_magic w))%nat with true in Hrun
      by (symmetry; apply Nat.leb_le; lia).
    replace (24 <=? avail (at_magic w))%nat with true in Hrun
      by (symmetry; apply Nat.leb_le; lia).
    rewrite parse_image_eq, Hrun. cbn [items_count header_of].
    rewrite Hcount. reflexivity.
Qed.

Lemma header_checks_witness :
  (exists e w1,
     _read_mcfg_header
       (fresh_world sample_fs (MAGIC ++ [x01; x00; x02; x00; x03; x00; x00; x00;
                               x05; x00; x00; x00; x84; x13; x04; x00;
                               x09; x00; x00; x00])) = (Raise e, w1) /\
     invalid_header_error e)
  /\
  _parse_image false (fresh_world sample_fs (sample_header x00 ++ sample_trailer)) =
    (Raise zero_items_error,
     advance (fresh_world sample_fs (sample_header x00 ++ sample_trailer)) 24).
Proof.
  split.
  - destruct (header_constants_and_count_checked false
       (fresh_world sample_fs (MAGIC ++ [x01; x00; x02; x00; x03; x00; x00; x00;
                               x05; x00; x00; x00; x84; x13; x04; x00;
                               x09; x00; x00; x00])))
      as [_ [H _]].
    destruct H as [e [w1 [H1 [H2 _]]]].
    + vm_compute. discriminate.
    + left. split; [vm_compute; lia | vm_compute; discriminate].
    + exists e, w1. split; assumption.
  - destruct (header_constants_and_count_checked false
                (fresh_world sample_fs (sample_header x00 ++ sample_trailer)))
      as [_ [_ H]].
    apply H.
    + vm_compute. discriminate.
    + vm_compute. lia.
    + vm_compute. reflexivity.
    + vm_compute. reflexivity.
    + vm_compute. reflexivity.
Defined.

(** ** C6: the name and content of an NV item *)

(** C6. When [_parse_nv] succeeds it saves exactly one more file, named
    [NvItem__] followed by eight characters that are the decimal digits of
    nv_id padded with zeros on the left, and holding the [declared - 1]
    data bytes that follow the data magic, unchanged; for nv_id 7 the name
    is [NvItem__00000007]. *)
Theorem nv_item_output_name_and_content : forall ih w w',
  _parse_nv ih w = (Ok tt, w') ->
  saved w' =
    saved w ++ [(("NvItem__" ++ format_0d 8 (nv_id_of w))%string, nv_data w)]
  /\ String.length (format_0d 8 (nv_id_of w)) = 8%nat
  /\ dec_value (format_0d 8 (nv_id_of w)) = Some (nv_id_of w)
  /\ Z.of_nat (length (nv_data w)) = nv_declared w - 1
  /\ (nv_id_of w = 7 ->
      saved w' = saved w ++ [("NvItem__00000007"%string, nv_data w)]).
Proof.
  intros ih w w' H. apply parse_nv_ok_inv in H.
  destruct H as [[Hd Hav] [_ Hw]]. subst w'.
  pose proof (u16_field_range w) as Hid. fold (nv_id_of w) in Hid.
  destruct (format_0d_8_spec (nv_id_of w) ltac:(lia)) as [Hval Hlen].
  specialize (Hlen ltac:(lia)).
  split; [reflexivity |]. split; [exact Hlen |]. split; [exact Hval |].
  split.
  - unfold nv_data. rewrite length_slice; [lia |].
    autorewrite with world. lia.
  - intro H7. cbn [with_saved saved]. rewrite H7. reflexivity.
Qed.

Lemma nv_item_output_witness :
  saved (snd (_parse_nv (mkItemHeader 15 1 0 0)
                (advance (fresh_world sample_fs (sample_nv7 ++ sample_trailer)) 8))) =
  [("NvItem__00000007"%string, [xaa; xbb])].
Proof.
  destruct (nv_item_output_name_and_content (mkItemHeader 15 1 0 0)
              (advance (fresh_world sample_fs (sample_nv7 ++ sample_trailer)) 8)
              (snd (_parse_nv (mkItemHeader 15 1 0 0)
                (advance (fresh_world sample_fs (sample_nv7 ++ sample_trailer)) 8))))
    as [_ [_ [_ [_ H]]]].
  - vm_compute. reflexivity.
  - rewrite H; [| vm_compute; reflexivity]. vm_compute. reflexivity.
Defined.

(** ** C7: the name of a file-shaped item *)

(** C7. When a turn of the item loop succeeds on a record whose decoded
    name is [n]: a File record (kind 4) is saved as [n ++ "__81FF_0"] and
    an NvFile record (kind 2) as [n ++ "__E1FF_F"] when [no_extra_data] is
    false, and both are saved as [n] when it is true. *)
Theorem file_item_output_name_suffix : forall no_extra_data w w',
  parse_item no_extra_data w = (Ok tt, w') ->
  let ih := item_header_of w in
  let p := advance w 8 in
  let n := file_name_of p in
  (ih_type ih = ItemType.File ->
   saved w' =
     saved w ++ [((if no_extra_data then n else n ++ "__81FF_0")%string,
                  file_data p)])
  /\
  (ih_type ih = ItemType.NvFile ->
   saved w' =
     saved w ++ [((if no_extra_data then n else n ++ "__E1FF_F")%string,
                  file_data p)]).
Proof.
  intros no_extra_data w w' H ih p n.
  rewrite parse_item_eq in H.
  destruct (8 <=? avail w)%nat; [| discriminate].
  fold ih p in H. unfold dispatch in H. cbv zeta in H.
  split; intro Ht; rewrite Ht in H;
    cbn [Z.eqb ItemType.Nv ItemType.NvFile ItemType.File Pos.eqb] in H;
    apply parse_file_ok_inv in H; destruct H as [_ [_ Hw]]; subst w';
    unfold file_save_name; destruct no_extra_data; reflexivity.
Qed.

Lemma file_item_output_witness :
  saved (snd (parse_item false
                (fresh_world sample_fs (sample_file x04 ++ sample_trailer)))) =
    [("abc__81FF_0"%string, [xcc])]
  /\ saved (snd (parse_item false
                (fresh_world sample_fs (sample_file x02 ++ sample_trailer)))) =
    [("abc__E1FF_F"%string, [xcc])]
  /\ saved (snd (parse_item true
                (fresh_world sample_fs (sample_file x04 ++ sample_trailer)))) =
    [("abc"%string, [xcc])]
  /\ saved (snd (parse_item true
                (fresh_world sample_fs (sample_file x02 ++ sample_trailer)))) =
    [("abc"%string, [xcc])].
Proof.
  split; [| split; [| split]].
  - destruct (file_item_output_name_suffix false
                (fresh_world sample_fs (sample_file x04 ++ sample_trailer))
                (snd (parse_item false
                   (fresh_world sample_fs (sample_file x04 ++ sample_trailer)))))
      as [H _]; [vm_compute; reflexivity |].
    rewrite H; vm_compute; reflexivity.
  - destruct (file_item_output_name_suffix false
                (fresh_world sample_fs (sample_file x02 ++ sample_trailer))
                (snd (parse_item false
                   (fresh_world sample_fs (sample_file x02 ++ sample_trailer)))))
      as [_ H]; [vm_compute; reflexivity |].
    rewrite H; vm_compute; reflexivity.
  - destruct (file_item_output_name_suffix true
                (fresh_world sample_fs (sample_file x04 ++ sample_trailer))
                (snd (parse_item true
                   (fresh_world sample_fs (sample_file x04 ++ sample_trailer)))))
      as [H _]; [vm_compute; reflexivity |].
    rewrite H; vm_compute; reflexivity.
  - destruct (file_item_output_name_suffix true
                (fresh_world sample_fs (sample_file x02 ++ sample_trailer))
                (snd (parse_item true
                   (fresh_world sample_fs (sample_file x02 ++ sample_trailer)))))
      as [_ H]; [vm_compute; reflexivity |].
    rewrite H; vm_compute; reflexivity.
Defined.

(** ** C8: a field read is exact or fails *)

(** C8. [_read_exact] either returns exactly [size] bytes, the ones under
    the cursor, or raises the unexpected-EOF error; it raises exactly when
    [size] is negative or more than the bytes left, and then no later step
    of the parser runs: the error passes through every continuation. The
    16-bit and 32-bit field readers are exact or fail in the same way. *)
Theorem read_exact_exact_or_eof : forall size w,
  ((exists data,
      _read_exact size w = (Ok data, advance w (Z.to_nat size)) /\
      Z.of_nat (length data) = size /\
      data = slice w (Z.to_nat size))
   \/
   ((size < 0 \/ Z.of_nat (avail w) < size) /\
    _read_exact size w = (Raise eof_error, read_fail size w) /\
    forall (B : Type) (k : list byte -> M B),
      bind (_read_exact size) k w = (Raise eof_error, read_fail size w)))
  /\ read_H w = (if (2 <=? avail w)%nat
                 then (Ok (le_int (slice w 2)), advance w 2)
                 else (Raise eof_error, read_fail 2 w))
  /\ read_I w = (if (4 <=? avail w)%nat
                 then (Ok (le_int (slice w 4)), advance w 4)
                 else (Raise eof_error, read_fail 4 w)).
Proof.
  intros size w. split; [| split; [apply read_H_eq | apply read_I_eq]].
  destruct (Z.leb_spec 0 size) as [H0 | H0].
  - destruct (Nat.leb_spec (Z.to_nat size) (avail w)) as [H1 | H1].
    + left. exists (slice w (Z.to_nat size)).
      split; [apply read_exact_ok; assumption |].
      split; [rewrite length_slice by exact H1; lia | reflexivity].
    + right. split; [right; lia |].
      assert (E : _read_exact size w = (Raise eof_error, read_fail size w))
        by (apply read_exact_short; right; exact H1).
      split; [exact E |].
      intros B k. unfold bind. rewrite E. reflexivity.
  - right. split; [left; exact H0 |].
    assert (E : _read_exact size w = (Raise eof_error, read_fail size w))
      by (apply read_exact_short; left; exact H0).
    split; [exact E |].
    intros B k. unfold bind. rewrite E. reflexivity.
Qed.

(** ** C9: a declared data size of 0 *)

(** C9. [_read_exact] asked for -1 bytes always raises the unexpected-EOF
    error. An item record, of kind NV or file-shaped, whose declared data
    size field is 0 never decodes: the turn of the loop raises, nothing is
    saved, and the error is the unexpected-EOF error for an NV record and
    for a file-shaped record whose two magics are right. *)
Theorem zero_declared_size_never_decodes : forall no_extra_data w,
  let ih := item_header_of w in
  let p := advance w 8 in
  (ih_type ih = ItemType.Nv /\ nv_declared p = 0) \/
  ((ih_type ih = ItemType.NvFile \/ ih_type ih = ItemType.File) /\
   file_declared p = 0) ->
  _read_exact (-1) w = (Raise eof_error, read_fail (-1) w) /\
  exists e w',
    parse_item no_extra_data w = (Raise e, w') /\ saved w' = saved w /\
    (ih_type ih = ItemType.Nv -> e = eof_error) /\
    (file_magic p = 1 -> file_size_magic p = 2 -> e = eof_error).
Proof.
  intros no_extra_data w ih p H.
  split; [apply read_exact_minus_one |].
  rewrite parse_item_eq.
  destruct (Nat.leb_spec 8 (avail w)) as [H8 | H8].
  2:{ exists eof_error, (read_fail 8 w). auto. }
  fold ih p. unfold dispatch. cbv zeta.
  destruct H as [[Ht Hd] | [Ht Hd]].
  - replace (ih_type ih =? ItemType.Nv) with true
      by (rewrite Ht; reflexivity).
    destruct (parse_nv_run ih p) as [[[Hr _] _] | [_ [w1 [Hrun Hs]]]];
      [lia |].
    exists eof_error, w1. rewrite Hrun. auto.
  - assert (Hbad : ~ file_wellformed p)
      by (unfold file_wellformed; lia).
    assert (Hgo : forall b, exists e w',
      _parse_file ih b no_extra_data p = (Raise e, w') /\
      saved w' = saved w /\
      (ih_type ih = ItemType.Nv -> e = eof_error) /\
      (file_magic p = 1 -> file_size_magic p = 2 -> e = eof_error)).
    { intro b.
      destruct (parse_file_run ih b no_extra_data p)
        as [[Hwf _] | [_ [e [w1 [Hrun [Hs He]]]]]]; [contradiction |].
      exists e, w1. rewrite Hrun. split; [reflexivity |].
      split; [exact Hs |]. split.
      - intro Hnv. destruct Ht as [Ht | Ht]; rewrite Ht in Hnv; discriminate.
      - intros Hm1 Hm2. destruct He as [He | [[_ He] | [_ He]]];
          [exact He | contradiction | contradiction]. }
    destruct Ht as [Ht | Ht].
    + replace (ih_type ih =? ItemType.Nv) with false
        by (rewrite Ht; reflexivity).
      replace (ih_type ih =? ItemType.NvFile) with true
        by (rewrite Ht; reflexivity).
      apply Hgo.
    + replace (ih_type ih =? ItemType.Nv) with false
        by (rewrite Ht; reflexivity).
      replace (ih_type ih =? ItemType.NvFile) with false
        by (rewrite Ht; reflexivity).
      replace (ih_type ih =? ItemType.File) with true
        by (rewrite Ht; reflexivity).
      apply Hgo.
Qed.

Lemma zero_declared_size_witness :
  exists e w',
    parse_item false (fresh_world sample_fs (sample_nv_zero ++ sample_trailer))
      = (Raise e, w') /\
    saved w' = [] /\ e = eof_error.
Proof.
  destruct (zero_declared_size_never_decodes false
              (fresh_world sample_fs (sample_nv_zero ++ sample_trailer)))
    as [_ [e [w' [H1 [H2 [H3 _]]]]]].
  - left. split; reflexivity.
  - exists e, w'. split; [exact H1 |]. split; [exact H2 |].
    apply H3. reflexivity.
Defined.

(** ** C10: bytes of a file name that are not ASCII *)

(** C10. Decoding the name of a file payload raises nothing, whatever
    the name bytes are: a payload whose fields can all be read, whose two
    magics are right and whose size matches the record length always
    reaches the call of [_save_to_file] with the decoded name, so that no
    parse error is raised; the outcome of the record is the outcome of that
    call, an exception being the one the file system raised for the file,
    and success following whenever the file system writes it. The name
    used for the saved file is made of the name bytes without the last
    one, with every byte that is not ASCII left out, so it is at most
    [name_length - 1] characters long and strictly shorter as soon as one
    of those bytes is not ASCII. *)
Theorem file_name_decoding_never_fails :
  forall ih is_nv_file no_extra_data w,
  file_wellformed w ->
  8 + Z.of_nat (file_span w) = ih_length ih ->
  let raw := firstn (Z.to_nat (file_name_length w) - 1) (file_raw_name w) in
  let save_name :=
    file_save_name is_nv_file no_extra_data (file_name_of w) in
  _parse_file ih is_nv_file no_extra_data w =
    _save_to_file save_name (file_data w) (advance w (file_span w))
  /\ (forall e w',
        _parse_file ih is_nv_file no_extra_data w = (Raise e, w') ->
        ~ parse_error e /\
        exists cls msg,
          e = LibraryError cls msg /\
          file_system w (saved w) save_name (file_data w) = Some (cls, msg))
  /\ (file_system w (saved w) save_name (file_data w) = None ->
      _parse_file ih is_nv_file no_extra_data w =
        (Ok tt, with_saved (advance w (file_span w)) save_name (file_data w)))
  /\ file_name_of w = string_of_bytes (filter is_ascii raw)
  /\ length raw = (Z.to_nat (file_name_length w) - 1)%nat
  /\ (String.length (file_name_of w)
        <= Z.to_nat (file_name_length w) - 1)%nat
  /\ ((exists b, In b raw /\ is_ascii b = false) ->
      (String.length (file_name_of w)
         < Z.to_nat (file_name_length w) - 1)%nat).
Proof.
  intros ih is_nv_file no_extra_data w Hwf Hlen raw save_name.
  assert (Hraw : length raw = (Z.to_nat (file_name_length w) - 1)%nat).
  { unfold raw, file_raw_name. rewrite length_firstn, length_slice; [lia |].
    destruct Hwf as [_ [Hav _]]. unfold file_span in Hav.
    autorewrite with world. lia. }
  assert (Hrun : _parse_file ih is_nv_file no_extra_data w =
                 _save_to_file save_name (file_data w)
                   (advance w (file_span w))).
  { destruct (parse_file_run ih is_nv_file no_extra_data w)
      as [[_ Hrun] | [Hbad _]]; [| contradiction].
    rewrite Hrun.
    replace (8 + Z.of_nat (file_span w) =? ih_length ih) with true
      by (symmetry; apply Z.eqb_eq; exact Hlen).
    reflexivity. }
  split; [exact Hrun |]. split; [| split].
  - intros e w' H. rewrite Hrun in H. apply save_raise_inv in H.
    destruct H as [_ [cls [msg [-> Hfs]]]].
    autorewrite with world in Hfs. split; [| eauto].
    intros [m [Hm _]]. discriminate.
  - intro Hfs. rewrite Hrun. apply save_accepted.
    autorewrite with world. exact Hfs.
  - split; [reflexivity |]. split; [exact Hraw |].
    unfold file_name_of, decode_ascii_ignore. fold raw.
    rewrite length_string_of_bytes, <- Hraw. split.
    + apply filter_length_le.
    + apply filter_length_lt.
Qed.

Lemma file_name_decoding_witness :
  _parse_file (mkItemHeader 23 4 0 0) false true
    (fresh_world sample_fs sample_file_payload_non_ascii) =
  (Ok tt,
   with_saved (advance (fresh_world sample_fs sample_file_payload_non_ascii) 15)
     "ab" [xcc])
  /\ file_name_length (fresh_world sample_fs sample_file_payload_non_ascii) = 5
  /\ (String.length
        (file_name_of (fresh_world sample_fs sample_file_payload_non_ascii))
        < 5 - 1)%nat.
Proof.
  destruct (file_name_decoding_never_fails (mkItemHeader 23 4 0 0) false true
              (fresh_world sample_fs sample_file_payload_non_ascii))
    as [_ [_ [H1 [_ [_ [_ H2]]]]]].
  - split; [vm_compute; discriminate |].
    split; [vm_compute; lia |].
    split; vm_compute; reflexivity.
  - vm_compute. reflexivity.
  - split; [apply H1; vm_compute; reflexivity |].
    split; [vm_compute; reflexivity |].
    apply H2. exists xe9. split; [vm_compute; tauto | reflexivity].
Defined.

(** A name that decodes to [a], NUL, [b] is decoded without an error and
    then refused by [open]; so is, when no suffix is added, a name that is
    empty. With the suffix the second record is written. *)
Lemma names_refused_by_the_file_system :
  fst (parse_item false (fresh_world sample_fs (sample_file_nul x04)))
    = Raise (LibraryError "ValueError" "embedded null byte")
  /\ fst (parse_item true (fresh_world sample_fs (sample_file_unnamed x04)))
    = Raise (LibraryError "IsADirectoryError" "Is a directory")
  /\ parse_item false (fresh_world sample_fs (sample_file_unnamed x04))
    = (Ok tt, with_saved
                (advance (fresh_world sample_fs (sample_file_unnamed x04)) 19)
                "__81FF_0" [xcc]).
Proof. split; [| split]; vm_compute; reflexivity. Qed.

(** * Further properties *)

Lemma is_prefix_spec : forall p l,
  is_prefix p l = true <-> exists rest, l = p ++ rest.
Proof.
  induction p as [| a p IH]; intro l.
  - split; [intros _; exists l; reflexivity | reflexivity].
  - destruct l as [| b l].
    + split; [discriminate | intros [rest H]; discriminate].
    + cbn [is_prefix]. rewrite andb_true_iff, IH. split.
      * intros [Hab [rest ->]]. exists rest.
        apply Byte.byte_dec_bl in Hab. now subst.
      * intros [rest H]. inversion H; subst.
        split; [apply Byte.byte_dec_lb; reflexivity | eauto].
Qed.

Lemma find_from_spec : forall sub data i idx,
  find_from sub data i = idx ->
  (idx = -1 /\ 0 <= i -> forall j, ~ occurs_at sub data j) /\
  (0 <= i -> idx <> -1 ->
   i <= idx /\ occurs_at sub data (Z.to_nat (idx - i)) /\
   forall j, (j < Z.to_nat (idx - i))%nat -> ~ occurs_at sub data j).
Proof.
  intros sub data. induction data as [| b t IH]; intros i idx H.
  - cbn [find_from] in H.
    destruct (is_prefix sub []) eqn:Ep.
    + subst idx. split.
      * intros [Hi H0]. lia.
      * intros H0 _. split; [lia |]. replace (Z.to_nat (i - i)) with 0%nat by lia.
        split; [| intros j Hj; lia].
        apply is_prefix_spec in Ep. exact Ep.
    + subst idx. split.
      * intros _ j [rest Hr]. 
        assert (E : skipn j (@nil byte) = []) by (destruct j; reflexivity).
        rewrite E in Hr.
        assert (is_prefix sub [] = true)
          by (apply is_prefix_spec; eauto).
        congruence.
      * intros _ Hne. contradiction.
  - cbn [find_from] in H.
    destruct (is_prefix sub (b :: t)) eqn:Ep.
    + subst idx. split.
      * intros [Hi H0]. lia.
      * intros H0 _. split; [lia |]. replace (Z.to_nat (i - i)) with 0%nat by lia.
        split; [| intros j Hj; lia].
        apply is_prefix_spec in Ep. exact Ep.
    + destruct (IH (i + 1) idx H) as [IHa IHb]. split.
      * intros [Hidx H0] j. destruct j as [| j].
        -- intros [rest Hr]. cbn [skipn] in Hr.
           assert (is_prefix sub (b :: t) = true)
             by (apply is_prefix_spec; eauto).
           congruence.
        -- intros [rest Hr]. cbn [skipn] in Hr.
           apply (IHa ltac:(split; [exact Hidx | lia]) j). exists rest. exact Hr.
      * intros H0 Hne.
        destruct (IHb ltac:(lia) Hne) as [Hle [Hocc Hfirst]].
        split; [lia |].
        replace (Z.to_nat (idx - i)) with (S (Z.to_nat (idx - (i + 1))))
          by lia.
        split; [exact Hocc |].
        intros j Hj. destruct j as [| j].
        -- intros [rest Hr]. cbn [skipn] in Hr.
           assert (is_prefix sub (b :: t) = true)
             by (apply is_prefix_spec; eauto).
           congruence.
        -- intros [rest Hr]. cbn [skipn] in Hr.
           apply (Hfirst j ltac:(lia)). exists rest. exact Hr.
Qed.

Lemma bytes_find_found : forall data sub idx,
  bytes_find data sub = idx -> idx <> -1 ->
  0 <= idx /\ occurs_at sub data (Z.to_nat idx) /\
  (Z.to_nat idx + length sub <= length data)%nat /\
  forall j, (j < Z.to_nat idx)%nat -> ~ occurs_at sub data j.
Proof.
  intros data sub idx H Hne. unfold bytes_find in H.
  destruct (find_from_spec sub data 0 idx H) as [_ Hb].
  destruct (Hb ltac:(lia) Hne) as [H0 [Hocc Hfirst]].
  rewrite Z.sub_0_r in Hocc, Hfirst.
  split; [exact H0 |]. split; [exact Hocc |]. split; [| exact Hfirst].
  destruct Hocc as [rest Hr].
  apply (f_equal (@length byte)) in Hr.
  rewrite length_skipn, length_app in Hr.
  destruct (Nat.le_gt_cases (Z.to_nat idx) (length data)) as [Hle | Hgt];
    [lia |].
  assert (length sub = 0%nat) by lia.
  destruct sub; [| discriminate].
  unfold bytes_find in H. destruct data; cbn in H; lia.
Qed.

Lemma bytes_find_absent : forall data sub,
  bytes_find data sub = -1 -> forall j, ~ occurs_at sub data j.
Proof.
  intros data sub H. unfold bytes_find in H.
  destruct (find_from_spec sub data 0 (-1) H) as [Ha _].
  apply Ha. lia.
Qed.

(** ** X1: the signature search

    X1. On a fresh stream [_find_magic_and_seek] leaves the buffer as it
    was and either puts the cursor on the first place where the signature
    lies, wholly inside the buffer and with no occurrence before it, or
    raises the cannot-find error, and then the signature lies nowhere in
    the buffer. *)
Theorem find_magic_seeks_first_occurrence : forall fs magic b r w',
  _find_magic_and_seek magic (fresh_world fs b) = (r, w') ->
  buf (stream w') = b /\ saved w' = [] /\
  ((r = Ok tt /\ occurs_at magic b (pos (stream w')) /\
    (pos (stream w') + length magic <= length b)%nat /\
    forall j, (j < pos (stream w'))%nat -> ~ occurs_at magic b j)
   \/
   (r = Raise no_magic_error /\ forall j, ~ occurs_at magic b j)).
Proof.
  intros fs magic b r w' H.
  unfold _find_magic_and_seek, bind, stream_read, fresh_world in H.
  cbn [Z.ltb Z.compare stream buf pos skipn] in H.
  destruct (Z.eqb_spec (bytes_find b magic) (-1)) as [E | E].
  - inversion H; subst. split; [reflexivity |]. split; [reflexivity |].
    right. split; [reflexivity |]. apply bytes_find_absent. exact E.
  - inversion H; subst. split; [reflexivity |]. split; [reflexivity |].
    left. cbn [set_pos stream pos].
    destruct (bytes_find_found b magic _ eq_refl E) as [_ [H1 [H2 H3]]].
    auto.
Qed.

Lemma find_magic_witness :
  pos (stream (snd (_find_magic_and_seek MAGIC (fresh_world sample_fs sample_image))))
  = 2%nat /\
  occurs_at MAGIC sample_image 2.
Proof.
  destruct (find_magic_seeks_first_occurrence sample_fs MAGIC sample_image
              (fst (_find_magic_and_seek MAGIC (fresh_world sample_fs sample_image)))
              (snd (_find_magic_and_seek MAGIC (fresh_world sample_fs sample_image))))
    as [_ [_ [[_ [H _]] | [H _]]]].
  - vm_compute. reflexivity.
  - split; [vm_compute; reflexivity | exact H].
  - vm_compute in H. discriminate.
Defined.

Lemma u32_field_range : forall w, 0 <= le_int (slice w 4) < 4294967296.
Proof.
  intro w. split; [apply le_int_nonneg |].
  pose proof (le_int_bound (slice w 4)) as Hb.
  pose proof (length_slice_le w 4) as Hl.
  assert (256 ^ Z.of_nat (length (slice w 4)) <= 256 ^ 4)
    by (apply Z.pow_le_mono_r; lia).
  lia.
Qed.

Lemma occurs_at_firstn : forall sub data i,
  occurs_at sub data i -> firstn (length sub) (skipn i data) = sub.
Proof.
  intros sub data i [rest H]. rewrite H.
  rewrite firstn_app, Nat.sub_diag, firstn_all. cbn [firstn].
  apply app_nil_r.
Qed.

(** ** X2: a header that was read

    X2. A header read from a fresh stream has the magic [MCFG] and every
    integer field inside the range of its width; the cursor is exactly 24
    bytes behind the first occurrence of the signature, inside the buffer,
    and nothing was saved. *)
Theorem header_read_facts : forall fs b h w1,
  _read_mcfg_header (fresh_world fs b) = (Ok h, w1) ->
  magic h = "MCFG"%string /\
  0 <= format_type h < 65536 /\
  0 <= configuration_type h < 65536 /\
  0 <= items_count h < 4294967296 /\
  0 <= carrier_index h < 65536 /\
  0 <= reserved h < 65536 /\
  0 <= version h < 4294967296 /\
  (24 <= pos (stream w1) <= length b)%nat /\
  occurs_at MAGIC b (pos (stream w1) - 24) /\
  (forall j, (j < pos (stream w1) - 24)%nat -> ~ occurs_at MAGIC b j) /\
  buf (stream w1) = b /\ saved w1 = [].
Proof.
  intros fs b h w1 H. apply read_mcfg_header_ok_inv in H.
  destruct H as [Hm [H24 [_ [_ [Hh Hw1]]]]]. subst h w1.
  unfold magic_index in Hm. cbn [fresh_world stream pos buf skipn] in Hm.
  destruct (bytes_find_found b MAGIC _ eq_refl Hm) as [H0 [Hocc [Hlen Hfirst]]].
  assert (Hpos : pos (stream (at_magic (fresh_world fs b)))
                 = Z.to_nat (bytes_find b MAGIC)) by reflexivity.
  assert (Hav : avail (at_magic (fresh_world fs b))
                = (length b - Z.to_nat (bytes_find b MAGIC))%nat)
    by reflexivity.
  cbn [header_of magic format_type configuration_type items_count
       carrier_index reserved version].
  split.
  { unfold slice. rewrite Hpos.
    change (buf (stream (at_magic (fresh_world fs b)))) with b.
    change 4%nat with (length MAGIC).
    rewrite (occurs_at_firstn _ _ _ Hocc). reflexivity. }
  repeat (split; [first [apply u16_field_range | apply u32_field_range] |]).
  rewrite pos_advance, Hpos.
  replace (Z.to_nat (bytes_find b MAGIC) + 24 - 24)%nat
    with (Z.to_nat (bytes_find b MAGIC)) by lia.
  split; [lia |]. split; [exact Hocc |]. split; [exact Hfirst |].
  split; reflexivity.
Qed.

Lemma header_read_witness :
  magic (header_of (fresh_world sample_fs sample_image)) = "MCFG"%string /\
  items_count (header_of (fresh_world sample_fs sample_image)) = 4.
Proof.
  destruct (header_read_facts sample_fs sample_image
              (header_of (fresh_world sample_fs sample_image))
              (advance (at_magic (fresh_world sample_fs sample_image)) 24))
    as [H _].
  - vm_compute. reflexivity.
  - split; [exact H | vm_compute; reflexivity].
Defined.

(** ** X3: item kinds

    X3. The kind of an item header is a number from 0 to 255. On a kind
    other than 1, 2 and 4 the turn of the loop raises the unknown-item-type
    error with the cursor right behind the eight header bytes, and that
    error is raised for no other kind. *)
Theorem unknown_item_type_rejected : forall no_extra_data w,
  (8 <= avail w)%nat ->
  let t := ih_type (item_header_of w) in
  0 <= t < 256 /\
  (t <> ItemType.Nv -> t <> ItemType.NvFile -> t <> ItemType.File ->
   parse_item no_extra_data w = (Raise unknown_type_error, advance w 8)) /\
  (forall w', parse_item no_extra_data w = (Raise unknown_type_error, w') ->
   t <> ItemType.Nv /\ t <> ItemType.NvFile /\ t <> ItemType.File).
Proof.
  intros no_extra_data w H8 t. split; [| split].
  - unfold t, item_header_of. cbn [ih_type]. split; [apply le_int_nonneg |].
    pose proof (le_int_bound (firstn 1 (skipn 4 (slice w 8)))) as Hb.
    assert (Hl : (length (firstn 1 (skipn 4 (slice w 8))) <= 1)%nat)
      by (rewrite length_firstn; lia).
    assert (256 ^ Z.of_nat (length (firstn 1 (skipn 4 (slice w 8))))
            <= 256 ^ 1) by (apply Z.pow_le_mono_r; lia).
    lia.
  - intros H1 H2 H4. rewrite parse_item_eq.
    replace (8 <=? avail w)%nat with true by (symmetry; apply Nat.leb_le; lia).
    unfold dispatch. cbv zeta. fold t.
    replace (t =? ItemType.Nv) with false
      by (symmetry; apply Z.eqb_neq; exact H1).
    replace (t =? ItemType.NvFile) with false
      by (symmetry; apply Z.eqb_neq; exact H2).
    replace (t =? ItemType.File) with false
      by (symmetry; apply Z.eqb_neq; exact H4).
    reflexivity.
  - intros w' H. rewrite parse_item_eq in H.
    replace (8 <=? avail w)%nat with true in H
      by (symmetry; apply Nat.leb_le; lia).
    unfold dispatch in H. cbv zeta in H. fold t in H.
    destruct (Z.eqb_spec t ItemType.Nv) as [E1 | E1].
    { exfalso.
      destruct (parse_nv_run (item_header_of w) (advance w 8))
        as [[_ Hrun] | [_ [w1 [Hrun _]]]]; rewrite Hrun in H.
      - destruct (12 + nv_declared (advance w 8)
                  =? ih_length (item_header_of w));
          [not_from_save H | discriminate].
      - discriminate. }
    assert (Hfile : forall b,
      _parse_file (item_header_of w) b no_extra_data (advance w 8)
        = (Raise unknown_type_error, w') -> False).
    { intros b Hb.
      destruct (parse_file_run (item_header_of w) b no_extra_data
                  (advance w 8))
        as [[_ Hrun] | [_ [e [w1 [Hrun [_ He]]]]]]; rewrite Hrun in Hb.
      - destruct (8 + Z.of_nat (file_span (advance w 8))
                  =? ih_length (item_header_of w));
          [not_from_save Hb | discriminate].
      - inversion Hb; subst.
        destruct He as [He | [[He _] | [He _]]]; discriminate. }
    destruct (Z.eqb_spec t ItemType.NvFile) as [E2 | E2];
      [exfalso; eapply Hfile; exact H |].
    destruct (Z.eqb_spec t ItemType.File) as [E4 | E4];
      [exfalso; eapply Hfile; exact H |].
    auto.
Qed.

Lemma unknown_item_type_witness :
  parse_item false
    (fresh_world sample_fs ([x0f; x00; x00; x00; x03; x00; x00; x00] ++ sample_trailer))
  = (Raise unknown_type_error,
     advance (fresh_world sample_fs ([x0f; x00; x00; x00; x03; x00; x00; x00]
                           ++ sample_trailer)) 8).
Proof.
  destruct (unknown_item_type_rejected false
    (fresh_world sample_fs ([x0f; x00; x00; x00; x03; x00; x00; x00] ++ sample_trailer)))
    as [_ [H _]].
  - vm_compute. lia.
  - apply H; vm_compute; discriminate.
Defined.

(** ** X4: lengths of records that decode

    X4. A record that decodes has a length field between 13 and 65547 when
    it is an NV record, and its data are that length less 13 bytes; for a
    file-shaped record the length is between 17 and 131086, and raw name
    and data together are that length less 17 bytes. *)
Theorem decodable_record_length_bounds : forall no_extra_data w w',
  parse_item no_extra_data w = (Ok tt, w') ->
  let ih := item_header_of w in
  (ih_type ih = ItemType.Nv ->
   13 <= ih_length ih <= 65547 /\
   Z.of_nat (length (nv_data (advance w 8))) = ih_length ih - 13) /\
  (ih_type ih = ItemType.NvFile \/ ih_type ih = ItemType.File ->
   17 <= ih_length ih <= 131086 /\
   Z.of_nat (length (file_data (advance w 8))) +
   Z.of_nat (length (file_raw_name (advance w 8))) = ih_length ih - 17).
Proof.
  intros no_extra_data w w' H ih.
  rewrite parse_item_eq in H.
  destruct (8 <=? avail w)%nat; [| discriminate].
  fold ih in H. unfold dispatch in H. cbv zeta in H.
  set (p := advance w 8) in *.
  split.
  - intro Ht. rewrite Ht in H. cbn [Z.eqb ItemType.Nv Pos.eqb] in H.
    apply parse_nv_ok_inv in H. destruct H as [[Hd Hav] [Hlen _]].
    pose proof (u16_field_range (advance p 2)) as Hr.
    fold (nv_declared p) in Hr.
    split; [lia |].
    unfold nv_data. rewrite length_slice; [lia |].
    autorewrite with world. lia.
  - intro Ht.
    assert (Hf : exists b, _parse_file ih b no_extra_data p = (Ok tt, w')).
    { destruct Ht as [Ht | Ht]; rewrite Ht in H;
        cbn [Z.eqb ItemType.Nv ItemType.NvFile ItemType.File Pos.eqb] in H;
        eauto. }
    destruct Hf as [b Hf]. apply parse_file_ok_inv in Hf.
    destruct Hf as [[Hd [Hav _]] [Hlen _]].
    unfold file_span in *.
    pose proof (u16_field_range (advance p 2)) as Hn.
    fold (file_name_length p) in Hn.
    pose proof (u16_field_range
                  (advance p (6 + Z.to_nat (file_name_length p)))) as Hr.
    fold (file_declared p) in Hr.
    split; [lia |].
    unfold file_data, file_raw_name.
    rewrite !length_slice; autorewrite with world; lia.
Qed.

Lemma decodable_record_length_witness :
  13 <= ih_length (item_header_of (fresh_world sample_fs (sample_nv7 ++ sample_trailer)))
     <= 65547.
Proof.
  destruct (decodable_record_length_bounds false
              (fresh_world sample_fs (sample_nv7 ++ sample_trailer))
              (snd (parse_item false
                      (fresh_world sample_fs (sample_nv7 ++ sample_trailer)))))
    as [H _].
  - vm_compute. reflexivity.
  - apply H. reflexivity.
Defined.


(** ** X5: the size of a trailer

    X5. A trailer that validates has a data_length of at least 16, and
    validation moves the cursor by data_length + 4. A trailer with right
    magics whose data_length is from 8 to 15 passes the size test and then
    always fails with the trailer-magic-value error. *)
Theorem trailer_needs_sixteen_bytes : forall w,
  (forall w',
     _read_trailer w = (Ok tt, w') ->
     16 <= trailer_data_length w /\
     Z.of_nat (pos (stream w')) =
       Z.of_nat (pos (stream w)) + 4 + trailer_data_length w)
  /\
  ((12 <= avail w)%nat ->
   trailer_magic1 w = 10 -> trailer_magic2 w = 161 ->
   8 <= trailer_data_length w < 16 ->
   (4 + Z.to_nat (trailer_data_length w) <= avail w)%nat ->
   _read_trailer w =
     (Raise (MbnExtractorException "Invalid trailer magic value"),
      advance w (4 + Z.to_nat (trailer_data_length w)))).
Proof.
  intro w. split.
  - intros w' H. apply read_trailer_ok_inv in H.
    destruct H as [_ [_ [H8 [Hav [Hdec Hw]]]]]. subst w'.
    apply decode_is_trailer_magic in Hdec.
    assert (Hlen : length (trailer_payload w)
                   = Z.to_nat (trailer_data_length w - 8)).
    { unfold trailer_payload. apply length_slice.
      autorewrite with world. lia. }
    pose proof (filter_length_le is_ascii (trailer_payload w)) as Hf.
    rewrite Hdec in Hf. change (length TRAILER_MAGIC) with 8%nat in Hf.
    split; [lia |]. rewrite pos_advance. lia.
  - intros H12 H1 H2 Hdl Hav.
    destruct (read_trailer_run w) as [[_ Hrun] | [Hlt _]]; [| lia].
    rewrite Hrun. unfold trailer_outcome.
    rewrite H1, H2. cbn [Z.eqb Pos.eqb negb].
    replace (trailer_data_length w <? 8) with false
      by (symmetry; apply Z.ltb_ge; lia).
    replace (12 + Z.to_nat (trailer_data_length w - 8) <=? avail w)%nat
      with true by (symmetry; apply Nat.leb_le; lia).
    destruct (String.eqb_spec (decode_ascii_ignore (trailer_payload w))
                "MCFG_TRL") as [E | E].
    + exfalso. apply decode_is_trailer_magic in E.
      assert (Hlen : length (trailer_payload w)
                     = Z.to_nat (trailer_data_length w - 8)).
      { unfold trailer_payload. apply length_slice.
        autorewrite with world. lia. }
      pose proof (filter_length_le is_ascii (trailer_payload w)) as Hf.
      rewrite E in Hf. change (length TRAILER_MAGIC) with 8%nat in Hf. lia.
    + replace (12 + Z.to_nat (trailer_data_length w - 8))%nat
        with (4 + Z.to_nat (trailer_data_length w))%nat by lia.
      reflexivity.
Qed.

Lemma trailer_needs_sixteen_witness :
  _read_trailer
    (fresh_world sample_fs [x14; x00; x00; x00; x0a; x00; x00; x00; xa1; x00;
                  x0c; x00; x4d; x43; x46; x47]) =
  (Raise (MbnExtractorException "Invalid trailer magic value"),
   advance (fresh_world sample_fs [x14; x00; x00; x00; x0a; x00; x00; x00; xa1; x00;
                         x0c; x00; x4d; x43; x46; x47]) 16).
Proof.
  destruct (trailer_needs_sixteen_bytes
    (fresh_world sample_fs [x14; x00; x00; x00; x0a; x00; x00; x00; xa1; x00;
                  x0c; x00; x4d; x43; x46; x47])) as [_ H].
  apply H.
  - vm_compute. lia.
  - vm_compute. reflexivity.
  - vm_compute. reflexivity.
  - split; [vm_compute; discriminate | vm_compute; reflexivity].
  - vm_compute. lia.
Defined.

(** ** Names *)

Lemma string_length_app : forall s t,
  String.length (s ++ t) = (String.length s + String.length t)%nat.
Proof.
  induction s as [| c s IH]; intro t; [reflexivity |].
  cbn [append String.length]. now rewrite IH.
Qed.

Lemma string_app_inv_head : forall s t u, (s ++ t = s ++ u)%string -> t = u.
Proof.
  induction s as [| c s IH]; intros t u H; [exact H |].
  cbn [append] in H. inversion H. auto.
Qed.

Lemma string_app_same_length : forall s1 s2 t1 t2,
  (s1 ++ t1 = s2 ++ t2)%string ->
  String.length s1 = String.length s2 ->
  s1 = s2 /\ t1 = t2.
Proof.
  induction s1 as [| c s1 IH]; intros [| d s2] t1 t2 H Hl;
    try discriminate.
  - auto.
  - cbn [append] in H. inversion H; subst.
    destruct (IH s2 t1 t2 ltac:(assumption) ltac:(cbn in Hl; lia)) as [-> ->].
    auto.
Qed.

Lemma nv_file_name_inj : forall a b,
  0 <= a -> 0 <= b -> nv_file_name a = nv_file_name b -> a = b.
Proof.
  intros a b Ha Hb H. unfold nv_file_name in H.
  apply string_app_inv_head in H.
  destruct (format_0d_8_spec a Ha) as [Va _].
  destruct (format_0d_8_spec b Hb) as [Vb _].
  rewrite H in Va. congruence.
Qed.

(** ** X6: names of NV items

    X6. Two NV records that decode are saved under the same name exactly
    when they carry the same nv_id. *)
Theorem nv_items_named_apart : forall ih1 w1 w1' ih2 w2 w2',
  _parse_nv ih1 w1 = (Ok tt, w1') ->
  _parse_nv ih2 w2 = (Ok tt, w2') ->
  exists d1 d2,
    saved w1' = saved w1 ++ [(nv_file_name (nv_id_of w1), d1)] /\
    saved w2' = saved w2 ++ [(nv_file_name (nv_id_of w2), d2)] /\
    (nv_file_name (nv_id_of w1) = nv_file_name (nv_id_of w2) <->
     nv_id_of w1 = nv_id_of w2).
Proof.
  intros ih1 w1 w1' ih2 w2 w2' H1 H2.
  apply parse_nv_ok_inv in H1. destruct H1 as [_ [_ ->]].
  apply parse_nv_ok_inv in H2. destruct H2 as [_ [_ ->]].
  exists (nv_data w1), (nv_data w2).
  split; [reflexivity |]. split; [reflexivity |].
  split.
  - apply nv_file_name_inj; apply le_int_nonneg.
  - intro E. now rewrite E.
Qed.

Lemma nv_items_named_apart_witness :
  nv_file_name 7 <> nv_file_name 8.
Proof.
  pose (w := advance (fresh_world sample_fs (sample_nv7 ++ sample_trailer)) 8).
  pose (w2 := advance (fresh_world sample_fs
     ([x0f; x00; x00; x00; x01; x00; x00; x00;
       x08; x00; x03; x00; x00; xaa; xbb] ++ sample_trailer)) 8).
  destruct (nv_items_named_apart (mkItemHeader 15 1 0 0) w
              (snd (_parse_nv (mkItemHeader 15 1 0 0) w))
              (mkItemHeader 15 1 0 0) w2
              (snd (_parse_nv (mkItemHeader 15 1 0 0) w2)))
    as [d1 [d2 [_ [_ H]]]].
  - vm_compute. reflexivity.
  - vm_compute. reflexivity.
  - intro E. apply H in E. vm_compute in E. discriminate.
Defined.

Lemma nv_name_not_suffixed : forall id n suffix,
  0 <= id < 10 ^ 8 ->
  String.length suffix = 8%nat -> dec_value suffix = None ->
  nv_file_name id <> (n ++ suffix)%string.
Proof.
  intros id n suffix Hid Hl Hv E. unfold nv_file_name in E.
  destruct (format_0d_8_spec id ltac:(lia)) as [Hval Hlen].
  specialize (Hlen ltac:(lia)).
  assert (Hn : String.length "NvItem__" = String.length n).
  { apply (f_equal String.length) in E.
    rewrite !string_length_app, Hlen, Hl in E. cbn [String.length] in *. lia. }
  destruct (string_app_same_length _ _ _ _ E Hn) as [_ Hs].
  rewrite Hs in Hval. congruence.
Qed.

Lemma suffixed_names_differ : forall n m,
  (n ++ "__E1FF_F")%string <> (m ++ "__81FF_0")%string.
Proof.
  intros n m E.
  assert (Hn : String.length n = String.length m).
  { apply (f_equal String.length) in E.
    rewrite !string_length_app in E. cbn [String.length] in E. lia. }
  destruct (string_app_same_length _ _ _ _ E Hn) as [_ Hs]. discriminate.
Qed.

Lemma parse_item_ok_kind : forall no_extra_data w w',
  parse_item no_extra_data w = (Ok tt, w') ->
  let ih := item_header_of w in
  let p := advance w 8 in
  (ih_type ih = ItemType.Nv /\
   w' = with_saved (advance p (4 + Z.to_nat (nv_declared p)))
          (nv_file_name (nv_id_of p)) (nv_data p)) \/
  (ih_type ih = ItemType.NvFile /\
   w' = with_saved (advance p (file_span p))
          (file_save_name true no_extra_data (file_name_of p))
          (file_data p)) \/
  (ih_type ih = ItemType.File /\
   w' = with_saved (advance p (file_span p))
          (file_save_name false no_extra_data (file_name_of p))
          (file_data p)).
Proof.
  intros no_extra_data w w' H ih p. rewrite parse_item_eq in H.
  destruct (8 <=? avail w)%nat; [| discriminate].
  fold ih p in H. unfold dispatch in H. cbv zeta in H.
  destruct (Z.eqb_spec (ih_type ih) ItemType.Nv) as [E1 | E1].
  { left. apply parse_nv_ok_inv in H. tauto. }
  destruct (Z.eqb_spec (ih_type ih) ItemType.NvFile) as [E2 | E2].
  { right. left. apply parse_file_ok_inv in H. tauto. }
  destruct (Z.eqb_spec (ih_type ih) ItemType.File) as [E4 | E4].
  { right. right. apply parse_file_ok_inv in H. tauto. }
  discriminate.
Qed.

(** ** X7: names across kinds

    X7. With [no_extra_data] false, two records of different kinds that
    decode are saved under different names, whatever their identifiers and
    decoded names are. *)
Theorem kinds_never_share_a_name : forall w1 w1' w2 w2',
  parse_item false w1 = (Ok tt, w1') ->
  parse_item false w2 = (Ok tt, w2') ->
  ih_type (item_header_of w1) <> ih_type (item_header_of w2) ->
  exists n1 d1 n2 d2,
    saved w1' = saved w1 ++ [(n1, d1)] /\
    saved w2' = saved w2 ++ [(n2, d2)] /\
    n1 <> n2.
Proof.
  intros w1 w1' w2 w2' H1 H2 Hne.
  apply parse_item_ok_kind in H1. apply parse_item_ok_kind in H2.
  assert (Hid : forall w, 0 <= nv_id_of w < 10 ^ 8).
  { intro w. pose proof (u16_field_range w) as Hr.
    fold (nv_id_of w) in Hr. change (10 ^ 8) with 100000000. lia. }
  destruct H1 as [[T1 ->] | [[T1 ->] | [T1 ->]]];
    destruct H2 as [[T2 ->] | [[T2 ->] | [T2 ->]]];
    try (exfalso; apply Hne; congruence);
    do 4 eexists; (split; [reflexivity |]); (split; [reflexivity |]);
    unfold file_save_name.
  - apply nv_name_not_suffixed; [apply Hid | reflexivity | reflexivity].
  - apply nv_name_not_suffixed; [apply Hid | reflexivity | reflexivity].
  - apply not_eq_sym.
    apply nv_name_not_suffixed; [apply Hid | reflexivity | reflexivity].
  - apply suffixed_names_differ.
  - apply not_eq_sym.
    apply nv_name_not_suffixed; [apply Hid | reflexivity | reflexivity].
  - apply not_eq_sym. apply suffixed_names_differ.
Qed.

Lemma kinds_never_share_a_name_witness :
  exists n1 d1 n2 d2,
    saved (snd (parse_item false
                  (fresh_world sample_fs (sample_file x04 ++ sample_trailer))))
      = [] ++ [(n1, d1)] /\
    saved (snd (parse_item false
                  (fresh_world sample_fs (sample_file x02 ++ sample_trailer))))
      = [] ++ [(n2, d2)] /\
    n1 <> n2.
Proof.
  apply (kinds_never_share_a_name
           (fresh_world sample_fs (sample_file x04 ++ sample_trailer))
           (snd (parse_item false
                   (fresh_world sample_fs (sample_file x04 ++ sample_trailer))))
           (fresh_world sample_fs (sample_file x02 ++ sample_trailer))
           (snd (parse_item false
                   (fresh_world sample_fs (sample_file x02 ++ sample_trailer))))).
  - vm_compute. reflexivity.
  - vm_compute. reflexivity.
  - vm_compute. discriminate.
Defined.

(** ** Failures *)

Lemma for_range_raise_inv : forall no_extra_data n w e w',
  for_range n (parse_item no_extra_data) w = (Raise e, w') ->
  exists k w1,
    (k < n)%nat /\ items_run no_extra_data k w w1 /\
    parse_item no_extra_data w1 = (Raise e, w').
Proof.
  intros no_extra_data n. induction n as [| n IH]; intros w e w' H.
  - discriminate.
  - cbn [for_range] in H. unfold bind in H.
    destruct (parse_item no_extra_data w) as [[[] | e1] w1] eqn:E.
    + apply IH in H. destruct H as [k [w2 [Hk [Hrun Hstep]]]].
      exists (S k), w2. split; [lia |]. split; [| exact Hstep].
      econstructor; eassumption.
    + inversion H; subst. exists 0%nat, w.
      split; [lia |]. split; [constructor | exact E].
Qed.

(** ** X8: what a failed extraction leaves

    X8. When [_parse_image] raises, some number [k] of files was added to
    the saved ones and nothing else changed in them. When the header was
    read with a count other than 0, [k] turns of the item loop succeeded
    and are the source of these files, and the exception is the one of
    turn [k + 1] when [k < items_count - 1], and the one of the trailer when
    [k = items_count - 1]. *)
Theorem failed_image_keeps_earlier_files : forall no_extra_data w e w',
  _parse_image no_extra_data w = (Raise e, w') ->
  exists k : nat,
    length (saved w') = (length (saved w) + k)%nat /\
    forall h w1,
      _read_mcfg_header w = (Ok h, w1) -> items_count h <> 0 ->
      exists w2,
        items_run no_extra_data k w1 w2 /\
        saved w' = saved w2 /\
        ((Z.of_nat k < items_count h - 1 /\
          parse_item no_extra_data w2 = (Raise e, w'))
         \/
         (Z.of_nat k = items_count h - 1 /\
          _read_trailer w2 = (Raise e, w'))).
Proof.
  intros no_extra_data w e w' H. rewrite parse_image_eq in H.
  destruct (_read_mcfg_header w) as [[h | e1] w1] eqn:Eh.
  2:{ exists 0%nat. inversion H; subst.
      split; [| intros h w1 Hh; discriminate].
      rewrite (read_mcfg_header_raise_saved _ _ _ Eh). lia. }
  pose proof (read_mcfg_header_ok_inv _ _ _ Eh) as [_ [_ [_ [_ [Hh Hw1]]]]].
  assert (Hs1 : saved w1 = saved w) by (subst w1; reflexivity).
  assert (Hc : 0 <= items_count h).
  { rewrite Hh. cbn [items_count header_of]. unfold header_items_count.
    apply le_int_nonneg. }
  destruct (Z.eqb_spec (items_count h) 0) as [E0 | E0].
  { exists 0%nat. inversion H; subst e w'.
    split; [rewrite Hs1; lia |].
    intros h' w1' Hh' Hn. inversion Hh'; subst. contradiction. }
  destruct (for_range (Z.to_nat (items_count h - 1))
              (parse_item no_extra_data) w1) as [[[] | e2] w2] eqn:Ef.
  - apply for_range_items_run in Ef.
    exists (Z.to_nat (items_count h - 1)).
    destruct (items_run_saved _ _ _ _ Ef) as [Hl _].
    pose proof (read_trailer_saved _ _ _ H) as Hs.
    split; [rewrite Hs, Hl, Hs1; reflexivity |].
    intros h' w1' Hh' _. inversion Hh'; subst h' w1'.
    exists w2. split; [exact Ef |]. split; [exact Hs |].
    right. split; [lia | exact H].
  - inversion H; subst e2 w2.
    apply for_range_raise_inv in Ef.
    destruct Ef as [k [w2 [Hk [Hrun Hstep]]]].
    exists k.
    destruct (items_run_saved _ _ _ _ Hrun) as [Hl _].
    pose proof (parse_item_raise_saved _ _ _ _ Hstep) as Hs.
    split; [rewrite Hs, Hl, Hs1; reflexivity |].
    intros h' w1' Hh' _. inversion Hh'; subst h' w1'.
    exists w2. split; [exact Hrun |]. split; [exact Hs |].
    left. split; [lia | exact Hstep].
Qed.

Lemma failed_image_witness :
  exists k : nat,
    k = 2%nat /\
    length (saved (snd (_parse_image false (fresh_world sample_fs sample_image_bad_third))))
      = (length (saved (fresh_world sample_fs sample_image_bad_third)) + k)%nat.
Proof.
  destruct (failed_image_keeps_earlier_files false
              (fresh_world sample_fs sample_image_bad_third)
              (MbnExtractorException "Invalid file item size")
              (snd (_parse_image false (fresh_world sample_fs sample_image_bad_third))))
    as [k [Hl _]].
  - vm_compute. reflexivity.
  - exists k. split; [| exact Hl].
    vm_compute in Hl. lia.
Defined.

Ltac listed := eexists; split; [reflexivity | cbn; tauto].

Lemma save_raise_refused : forall name content w e w',
  _save_to_file name content w = (Raise e, w') -> refused_save w' e.
Proof.
  intros name content w e w' H. apply save_raise_inv in H.
  destruct H as [-> [cls [msg [-> Hfs]]]]. unfold refused_save. eauto 6.
Qed.

Lemma parse_nv_raise_listed : forall ih w e w',
  _parse_nv ih w = (Raise e, w') -> parse_error e \/ refused_save w' e.
Proof.
  intros ih w e w' H.
  destruct (parse_nv_run ih w) as [[_ Hrun] | [_ [w1 [Hrun _]]]];
    rewrite Hrun in H.
  - destruct (12 + nv_declared w =? ih_length ih).
    + right. eapply save_raise_refused. exact H.
    + left. inversion H. listed.
  - left. inversion H. listed.
Qed.

Lemma parse_file_raise_listed : forall ih is_nv_file no_extra_data w e w',
  _parse_file ih is_nv_file no_extra_data w = (Raise e, w') ->
  parse_error e \/ refused_save w' e.
Proof.
  intros ih is_nv_file no_extra_data w e w' H.
  destruct (parse_file_run ih is_nv_file no_extra_data w)
    as [[_ Hrun] | [_ [e1 [w1 [Hrun [_ He]]]]]]; rewrite Hrun in H.
  - destruct (8 + Z.of_nat (file_span w) =? ih_length ih).
    + right. eapply save_raise_refused. exact H.
    + left. inversion H. listed.
  - left. inversion H; subst.
    destruct He as [-> | [[-> _] | [-> _]]]; listed.
Qed.

Lemma parse_item_raise_listed : forall no_extra_data w e w',
  parse_item no_extra_data w = (Raise e, w') ->
  parse_error e \/ refused_save w' e.
Proof.
  intros no_extra_data w e w' H. rewrite parse_item_eq in H.
  destruct (8 <=? avail w)%nat; [| left; inversion H; listed].
  unfold dispatch in H. cbv zeta in H.
  destruct (ih_type (item_header_of w) =? ItemType.Nv);
    [eapply parse_nv_raise_listed; exact H |].
  destruct (ih_type (item_header_of w) =? ItemType.NvFile);
    [eapply parse_file_raise_listed; exact H |].
  destruct (ih_type (item_header_of w) =? ItemType.File);
    [eapply parse_file_raise_listed; exact H |].
  left. inversion H. listed.
Qed.

Lemma read_trailer_raise_listed : forall w e w',
  _read_trailer w = (Raise e, w') -> parse_error e.
Proof.
  intros w e w' H.
  destruct (read_trailer_run w) as [[_ Hrun] | [_ [e1 [w1 [Hrun [_ He]]]]]];
    rewrite Hrun in H.
  - unfold trailer_outcome in H.
    destruct (negb (trailer_magic1 w =? 10)); [inversion H; listed |].
    destruct (negb (trailer_magic2 w =? 161)); [inversion H; listed |].
    destruct (trailer_data_length w <? 8); [inversion H; listed |].
    destruct (12 + Z.to_nat (trailer_data_length w - 8) <=? avail w)%nat;
      [| inversion H; listed].
    destruct (String.eqb (decode_ascii_ignore (trailer_payload w))
                "MCFG_TRL"); inversion H. listed.
  - inversion H; subst. destruct He as [-> | [-> | ->]]; listed.
Qed.

Lemma read_mcfg_header_raise_listed : forall w e w',
  _read_mcfg_header w = (Raise e, w') -> parse_error e.
Proof.
  intros w e w' H.
  destruct (Z.eq_dec (magic_index w) (-1)) as [Hm | Hm].
  { rewrite (read_mcfg_header_no_magic w Hm) in H. inversion H. listed. }
  destruct (read_mcfg_header_run w Hm) as [[_ Hrun] | [_ [w2 [Hrun _]]]];
    rewrite Hrun in H; [| inversion H; listed].
  unfold header_outcome in H. cbv zeta in H.
  destruct (negb (header_version_id w =? 4995)); [inversion H; listed |].
  destruct (20 <=? avail (at_magic w))%nat; [| inversion H; listed].
  destruct (negb (header_version_size w =? 4)); [inversion H; listed |].
  destruct (24 <=? avail (at_magic w))%nat; inversion H. listed.
Qed.

Lemma parse_image_raise_listed : forall no_extra_data w e w',
  _parse_image no_extra_data w = (Raise e, w') ->
  parse_error e \/ refused_save w' e.
Proof.
  intros no_extra_data w e w' H. rewrite parse_image_eq in H.
  destruct (_read_mcfg_header w) as [[h | e1] w1] eqn:Eh.
  2:{ left. inversion H; subst. eapply read_mcfg_header_raise_listed.
      exact Eh. }
  destruct (items_count h =? 0); [left; inversion H; listed |].
  destruct (for_range (Z.to_nat (items_count h - 1))
              (parse_item no_extra_data) w1) as [[[] | e2] w2] eqn:Ef.
  - left. eapply read_trailer_raise_listed. exact H.
  - inversion H; subst. apply for_range_raise_inv in Ef.
    destruct Ef as [k [w3 [_ [_ Hstep]]]].
    eapply parse_item_raise_listed. exact Hstep.
Qed.

Lemma read_mcfg_header_split : forall w,
  _read_mcfg_header w = bind (_find_magic_and_seek MAGIC)
                          (fun _ => header_fields) w.
Proof. reflexivity. Qed.

Lemma bind_assoc : forall A B C (c : M A) (k1 : A -> M B) (k2 : B -> M C) w,
  bind (bind c k1) k2 w = bind c (fun a => bind (k1 a) k2) w.
Proof.
  intros A B C c k1 k2 w. unfold bind.
  destruct (c w) as [[a | e] w1]; reflexivity.
Qed.

Lemma parse_image_split : forall no_extra_data w,
  _parse_image no_extra_data w =
  bind (_find_magic_and_seek MAGIC)
    (fun _ => image_after_magic no_extra_data) w.
Proof.
  intros no_extra_data w. unfold _parse_image, image_after_magic.
  change _read_mcfg_header
    with (bind (_find_magic_and_seek MAGIC) (fun _ => header_fields)).
  rewrite bind_assoc. reflexivity.
Qed.

Lemma extends_refl : forall w, extends w w.
Proof.
  intro w. unfold extends. split; [reflexivity |]. split; [lia |].
  split; [auto |]. split; [| reflexivity]. exists []. now rewrite app_nil_r.
Qed.

Lemma extends_trans : forall w1 w2 w3,
  extends w1 w2 -> extends w2 w3 -> extends w1 w3.
Proof.
  intros w1 w2 w3 [Hb1 [Hp1 [Hl1 [[a1 Hs1] Hf1]]]]
    [Hb2 [Hp2 [Hl2 [[a2 Hs2] Hf2]]]].
  unfold extends. split; [congruence |]. split; [lia |].
  split; [| split; [| congruence]].
  - intro H. apply Hl2. rewrite Hb1 in *. apply Hl1. exact H.
  - exists (a1 ++ a2). rewrite Hs2, Hs1, app_assoc. reflexivity.
Qed.

Lemma keeps_ret : forall A (a : A), keeps (ret a).
Proof. intros A a w r w' H. inversion H. apply extends_refl. Qed.

Lemma keeps_raise : forall A e, keeps (@raise A e).
Proof. intros A e w r w' H. inversion H. apply extends_refl. Qed.

Lemma keeps_bind : forall A B (c : M A) (k : A -> M B),
  keeps c -> (forall a, keeps (k a)) -> keeps (bind c k).
Proof.
  intros A B c k Hc Hk w r w' H. unfold bind in H.
  destruct (c w) as [[a | e] w1] eqn:E.
  - eapply extends_trans; [eapply Hc; exact E | eapply Hk; exact H].
  - inversion H; subst. eapply Hc. exact E.
Qed.

Lemma keeps_stream_read : forall size, keeps (stream_read size).
Proof.
  intros size w r w' H. unfold stream_read in H. inversion H; subst. clear H.
  unfold extends. cbn [set_pos stream buf pos saved file_system].
  split; [reflexivity |]. split; [lia |]. split; [| split; [| reflexivity]].
  - intro Hle. destruct (size <? 0).
    + rewrite length_skipn. lia.
    + rewrite length_firstn, length_skipn. lia.
  - exists []. now rewrite app_nil_r.
Qed.

Lemma keeps_read_exact : forall size, keeps (_read_exact size).
Proof.
  intro size. unfold _read_exact. apply keeps_bind.
  - apply keeps_stream_read.
  - intro data. destruct (negb (Z.of_nat (length data) =? size));
      [apply keeps_raise | apply keeps_ret].
Qed.

Lemma keeps_tell : keeps stream_tell.
Proof. intros w r w' H. inversion H. apply extends_refl. Qed.

Lemma keeps_unpack_uint : forall width data, keeps (unpack_uint width data).
Proof.
  intros width data. unfold unpack_uint.
  destruct (Nat.eqb (length data) width); [apply keeps_ret | apply keeps_raise].
Qed.

Lemma keeps_read_H : keeps read_H.
Proof.
  unfold read_H. apply keeps_bind; [apply keeps_read_exact |].
  intro d. apply keeps_unpack_uint.
Qed.

Lemma keeps_read_I : keeps read_I.
Proof.
  unfold read_I. apply keeps_bind; [apply keeps_read_exact |].
  intro d. apply keeps_unpack_uint.
Qed.

Lemma keeps_save : forall name content, keeps (_save_to_file name content).
Proof.
  intros name content w r w' H. unfold _save_to_file in H.
  destruct (file_system w (saved w) name content) as [[cls msg] |];
    inversion H; subst; [apply extends_refl |].
  unfold extends. cbn [stream saved file_system].
  split; [reflexivity |]. split; [lia |]. split; [auto |]. eauto.
Qed.

Lemma keeps_read_item_header : keeps _read_item_header.
Proof.
  unfold _read_item_header. apply keeps_bind; [apply keeps_read_exact |].
  intro d. unfold unpack_IBBH.
  destruct (Nat.eqb (length d) 8); [apply keeps_ret | apply keeps_raise].
Qed.

Lemma find_magic_file_system : forall magic w r w',
  _find_magic_and_seek magic w = (r, w') ->
  file_system w' = file_system w /\ saved w' = saved w.
Proof.
  intros magic w r w' H. unfold _find_magic_and_seek, bind, stream_read in H.
  cbn [Z.ltb Z.compare] in H.
  destruct (bytes_find (skipn (pos (stream w)) (buf (stream w))) magic =? -1);
    inversion H; subst; split; reflexivity.
Qed.

Ltac keeps_tac :=
  repeat first
    [ apply keeps_ret | apply keeps_raise | apply keeps_read_exact
    | apply keeps_read_H | apply keeps_read_I | apply keeps_tell
    | apply keeps_save | apply keeps_read_item_header
    | apply keeps_bind; [| intro]
    | match goal with
      | |- keeps (if ?c then _ else _) => destruct c
      | |- keeps (let _ := _ in _) => cbv zeta
      end ].

Lemma keeps_parse_nv : forall ih, keeps (_parse_nv ih).
Proof. intro ih. unfold _parse_nv. keeps_tac. Qed.

Lemma keeps_parse_file : forall ih is_nv_file no_extra_data,
  keeps (_parse_file ih is_nv_file no_extra_data).
Proof. intros ih is_nv_file no_extra_data. unfold _parse_file. keeps_tac. Qed.

Lemma keeps_read_trailer : keeps _read_trailer.
Proof. unfold _read_trailer. keeps_tac. Qed.

Lemma keeps_parse_item : forall no_extra_data, keeps (parse_item no_extra_data).
Proof.
  intro no_extra_data. unfold parse_item. apply keeps_bind.
  - apply keeps_read_item_header.
  - intro ih. unfold dispatch. cbv zeta.
    repeat match goal with
           | |- keeps (if ?c then _ else _) => destruct c
           end;
      first [apply keeps_parse_nv | apply keeps_parse_file | apply keeps_raise].
Qed.

Lemma keeps_for_range : forall n body, keeps body -> keeps (for_range n body).
Proof.
  intros n body Hb. induction n as [| n IH]; cbn [for_range].
  - apply keeps_ret.
  - apply keeps_bind; [exact Hb | intros _; exact IH].
Qed.

Lemma keeps_header_fields : keeps header_fields.
Proof. unfold header_fields. keeps_tac. Qed.

Lemma keeps_image_after_magic : forall no_extra_data,
  keeps (image_after_magic no_extra_data).
Proof.
  intro no_extra_data. unfold image_after_magic.
  apply keeps_bind; [apply keeps_header_fields |].
  intro h. destruct (items_count h =? 0); [apply keeps_raise |].
  cbv zeta. apply keeps_bind.
  - apply keeps_for_range. apply keeps_parse_item.
  - intros _. apply keeps_read_trailer.
Qed.

Lemma find_magic_fresh : forall fs b r w',
  _find_magic_and_seek MAGIC (fresh_world fs b) = (r, w') ->
  buf (stream w') = b /\ (pos (stream w') <= length b)%nat /\ saved w' = [].
Proof.
  intros fs b r w' H.
  unfold _find_magic_and_seek, bind, stream_read, fresh_world in H.
  cbn [Z.ltb Z.compare stream buf pos skipn] in H.
  destruct (Z.eqb_spec (bytes_find b MAGIC) (-1)) as [E | E].
  - inversion H; subst. cbn [set_pos stream buf pos saved Nat.add]. auto.
  - inversion H; subst. cbn [set_pos stream buf pos saved].
    destruct (bytes_find_found b MAGIC _ eq_refl E) as [_ [_ [Hlen _]]].
    split; [reflexivity |]. split; [lia | reflexivity].
Qed.

(** ** X10: a forward-only cursor

    X10. Whatever its outcome, a turn of the item loop and the validation of
    the trailer leave the buffer as it was, move the cursor forward only
    and never beyond the end of the buffer, and keep the files saved
    before in front of the new ones, on the same file system. After
    [_parse_image] on a fresh stream the buffer is unchanged and the
    cursor is inside it. *)
Theorem parsing_only_moves_forward :
  (forall no_extra_data w r w',
     parse_item no_extra_data w = (r, w') \/ _read_trailer w = (r, w') ->
     extends w w')
  /\
  (forall no_extra_data fs b r w',
     _parse_image no_extra_data (fresh_world fs b) = (r, w') ->
     buf (stream w') = b /\ (pos (stream w') <= length b)%nat).
Proof.
  split.
  - intros no_extra_data w r w' [H | H].
    + eapply keeps_parse_item. exact H.
    + eapply keeps_read_trailer. exact H.
  - intros no_extra_data fs b r w' H. rewrite parse_image_split in H.
    unfold bind in H.
    destruct (_find_magic_and_seek MAGIC (fresh_world fs b)) as [[[] | e] w1]
      eqn:E.
    + apply find_magic_fresh in E. destruct E as [Hb [Hp _]].
      apply keeps_image_after_magic in H.
      destruct H as [Hb' [_ [Hl _]]].
      rewrite Hb', Hb in *. split; [reflexivity |]. apply Hl. exact Hp.
    + inversion H; subst. apply find_magic_fresh in E. tauto.
Qed.

Lemma parsing_forward_witness :
  extends (fresh_world sample_fs (sample_nv7 ++ sample_trailer))
          (snd (parse_item false (fresh_world sample_fs (sample_nv7 ++ sample_trailer))))
  /\
  (pos (stream (snd (_parse_image false (fresh_world sample_fs sample_image))))
   <= length sample_image)%nat.
Proof.
  destruct parsing_only_moves_forward as [H1 H2]. split.
  - apply (H1 false _ (fst (parse_item false
                              (fresh_world sample_fs (sample_nv7 ++ sample_trailer))))).
    left. vm_compute. reflexivity.
  - apply (H2 false sample_fs sample_image
             (fst (_parse_image false (fresh_world sample_fs sample_image)))).
    vm_compute. reflexivity.
Defined.

(** ** X9: the exceptions of [extract]

    X9. Whatever [extract] raises is either an [MbnExtractorException]
    whose message is one of the fourteen messages of the parser, the
    message for fewer than three segments, or the message that wraps the
    failure of [ELFFile]; or it is the very exception that a library call
    raised in one of four places, which [extract] lets through: [open] on
    the input file, the listing of the segments, the read of the third
    segment's bytes, or the writing of an output file, refused by the file
    system after the files that are saved. It is never a [struct.error]:
    every [struct.unpack] is given exactly the bytes of its format. *)
Theorem exceptions_of_extract : forall elf no_extra_data w e w',
  extract elf no_extra_data w = (Raise e, w') ->
  e <> StructError /\
  ((exists msg,
      e = MbnExtractorException msg /\
      (In msg parse_messages \/
       msg = "Invalid MBN format: ELF segment with data not exist"%string \/
       exists d, elf = ElfParseError d /\
                 msg = ("Failed to parse ELF: " ++ d)%string))
   \/
   (exists cls msg,
      e = LibraryError cls msg /\
      (elf = OpenError cls msg \/
       elf = ElfIterError cls msg \/
       (exists segments,
          elf = ElfSegments segments /\
          nth_error segments 2 = Some (SegmentError cls msg)) \/
       (exists name content,
          file_system w (saved w') name content = Some (cls, msg))))).
Proof.
  intros elf no_extra_data w e w' H.
  assert (Hgoal :
    (exists msg,
      e = MbnExtractorException msg /\
      (In msg parse_messages \/
       msg = "Invalid MBN format: ELF segment with data not exist"%string \/
       exists d, elf = ElfParseError d /\
                 msg = ("Failed to parse ELF: " ++ d)%string))
    \/
    (exists cls msg,
      e = LibraryError cls msg /\
      (elf = OpenError cls msg \/
       elf = ElfIterError cls msg \/
       (exists segments,
          elf = ElfSegments segments /\
          nth_error segments 2 = Some (SegmentError cls msg)) \/
       (exists name content,
          file_system w (saved w') name content = Some (cls, msg))))).
  { unfold extract in H.
    destruct elf as [cls msg | d | cls msg | segments].
    - inversion H. right. exists cls, msg. auto.
    - inversion H. left. eexists. split; [reflexivity |]. right. right. eauto.
    - inversion H. right. exists cls, msg. auto.
    - destruct (Nat.ltb_spec (length segments) 3) as [Hlt | Hge].
      + inversion H. left. eexists. split; [reflexivity |]. right. left.
        reflexivity.
      + assert (Hnth : nth_error segments 2
                       = Some (nth 2 segments (SegmentBytes [])))
          by (apply nth_error_nth'; lia).
        destruct (nth 2 segments (SegmentBytes [])) as [contents | cls msg].
        * assert (Hfs : file_system w' = file_system w).
          { pose proof H as Hk. rewrite parse_image_split in Hk.
            unfold bind in Hk.
            destruct (_find_magic_and_seek MAGIC
                        (mkWorld (mkStream contents 0) (saved w)
                           (file_system w))) as [[[] | e0] w0] eqn:Em;
              apply find_magic_file_system in Em; destruct Em as [Em _];
              cbn [file_system] in Em.
            - apply keeps_image_after_magic in Hk.
              destruct Hk as [_ [_ [_ [_ Hk]]]]. congruence.
            - inversion Hk; subst. exact Em. }
          apply parse_image_raise_listed in H.
          destruct H as [[m [-> Hin]] | [cls [msg [name [content [-> Hr]]]]]].
          -- left. eauto.
          -- right. exists cls, msg. split; [reflexivity |].
             right. right. right. exists name, content.
             rewrite <- Hfs. exact Hr.
        * inversion H. right. exists cls, msg. split; [reflexivity |].
          right. right. left. eauto. }
  split; [| exact Hgoal].
  intros ->. destruct Hgoal as [[m [Hm _]] | [cls [msg [Hm _]]]];
    discriminate.
Qed.

Lemma exceptions_of_extract_witness :
  fst (extract (ElfSegments [SegmentBytes []; SegmentBytes [];
                             SegmentBytes (sample_header x03 ++ sample_nv7
                               ++ sample_file_nul x04 ++ sample_trailer)])
         false (fresh_world sample_fs []))
    = Raise (LibraryError "ValueError" "embedded null byte")
  /\
  exists name content,
    sample_fs [("NvItem__00000007"%string, [xaa; xbb])] name content
      = Some ("ValueError", "embedded null byte")%string.
Proof.
  pose (elf := ElfSegments [SegmentBytes []; SegmentBytes [];
                            SegmentBytes (sample_header x03 ++ sample_nv7
                              ++ sample_file_nul x04 ++ sample_trailer)]).
  assert (Hrun : extract elf false (fresh_world sample_fs [])
                 = (Raise (LibraryError "ValueError" "embedded null byte"),
                    snd (extract elf false (fresh_world sample_fs []))))
    by (vm_compute; reflexivity).
  split; [fold elf; rewrite Hrun; reflexivity |].
  destruct (exceptions_of_extract elf false (fresh_world sample_fs []) _ _
              Hrun) as [_ [[m [Hm _]] | [cls [msg [Hm Hfrom]]]]].
  - discriminate.
  - inversion Hm; subst cls msg.
    destruct Hfrom as [Hf | [Hf | [[segs [Hf Hn]] | [name [content Hf]]]]].
    + discriminate.
    + discriminate.
    + exfalso. inversion Hf; subst segs. vm_compute in Hn. discriminate.
    + exists name, content. exact Hf.
Defined.

Section Longer.
Variable extra : list byte.

Lemma avail_longer : forall ws wl,
  longer extra ws wl -> avail wl = (avail ws + length extra)%nat.
Proof.
  intros ws wl [Hb [Hp [_ [Hle _]]]]. unfold avail.
  rewrite Hb, Hp, length_app. lia.
Qed.

Lemma slice_longer : forall ws wl n,
  longer extra ws wl -> (n <= avail ws)%nat -> slice wl n = slice ws n.
Proof.
  intros ws wl n [Hb [Hp [_ [Hle _]]]] Hn. unfold slice, avail in *.
  rewrite Hb, Hp, skipn_app.
  replace (pos (stream ws) - length (buf (stream ws)))%nat with 0%nat by lia.
  cbn [skipn]. rewrite firstn_app, length_skipn.
  replace (n - (length (buf (stream ws)) - pos (stream ws)))%nat
    with 0%nat by lia.
  cbn [firstn]. apply app_nil_r.
Qed.

Lemma longer_advance : forall ws wl n,
  longer extra ws wl -> (n <= avail ws)%nat ->
  longer extra (advance ws n) (advance wl n).
Proof.
  intros ws wl n [Hb [Hp [Hs [Hle Hf]]]] Hn. unfold longer, avail in *.
  rewrite !pos_advance, !buf_advance, !saved_advance, !file_system_advance.
  split; [exact Hb |]. split; [lia |]. split; [exact Hs |].
  split; [lia | exact Hf].
Qed.

(** *** Success carries over to the longer buffer *)

Lemma grows_ret : forall A (a : A), grows extra (ret a).
Proof.
  intros A a ws wl a' ws' Hl H. inversion H; subst.
  exists wl. split; [reflexivity | assumption].
Qed.

Lemma grows_raise : forall A e, grows extra (@raise A e).
Proof. intros A e ws wl a ws' _ H. discriminate. Qed.

Lemma grows_bind : forall A B (c : M A) (k : A -> M B),
  grows extra c -> (forall a, grows extra (k a)) -> grows extra (bind c k).
Proof.
  intros A B c k Hc Hk ws wl b ws' Hl H. unfold bind in *.
  destruct (c ws) as [[a | e] ws1] eqn:E; [| discriminate].
  destruct (Hc _ _ _ _ Hl E) as [wl1 [E' Hl1]]. rewrite E'.
  eapply Hk; eassumption.
Qed.

Lemma grows_read_exact : forall size, grows extra (_read_exact size).
Proof.
  intros size ws wl a ws' Hl H. apply read_exact_inv in H.
  destruct H as [H0 [Hav [-> ->]]].
  exists (advance wl (Z.to_nat size)). split.
  - rewrite read_exact_ok;
      [| exact H0 | rewrite (avail_longer _ _ Hl); lia].
    now rewrite (slice_longer _ _ _ Hl Hav).
  - apply longer_advance; assumption.
Qed.

Lemma grows_tell : grows extra stream_tell.
Proof.
  intros ws wl a ws' Hl H. unfold stream_tell in *. inversion H; subst.
  exists wl. destruct Hl as [Hb [Hp [Hs Hle]]]. rewrite Hp.
  split; [reflexivity |]. unfold longer. auto.
Qed.

Lemma grows_save : forall name content,
  grows extra (_save_to_file name content).
Proof.
  intros name content ws wl [] ws' [Hb [Hp [Hs [Hle Hf]]]] H.
  apply save_ok_inv in H. destruct H as [Hfs ->].
  exists (with_saved wl name content). split.
  - apply save_accepted. rewrite Hf, Hs. exact Hfs.
  - unfold longer, with_saved. cbn [stream saved file_system].
    rewrite Hs. auto.
Qed.

Lemma grows_unpack_uint : forall width data,
  grows extra (unpack_uint width data).
Proof.
  intros width data. unfold unpack_uint.
  destruct (Nat.eqb (length data) width); [apply grows_ret | apply grows_raise].
Qed.

Lemma grows_read_H : grows extra read_H.
Proof.
  unfold read_H. apply grows_bind; [apply grows_read_exact |].
  intro d. apply grows_unpack_uint.
Qed.

Lemma grows_read_I : grows extra read_I.
Proof.
  unfold read_I. apply grows_bind; [apply grows_read_exact |].
  intro d. apply grows_unpack_uint.
Qed.

Lemma grows_read_item_header : grows extra _read_item_header.
Proof.
  unfold _read_item_header. apply grows_bind; [apply grows_read_exact |].
  intro d. unfold unpack_IBBH.
  destruct (Nat.eqb (length d) 8); [apply grows_ret | apply grows_raise].
Qed.

Ltac grows_tac :=
  repeat first
    [ apply grows_ret | apply grows_raise | apply grows_read_exact
    | apply grows_read_H | apply grows_read_I | apply grows_tell
    | apply grows_save | apply grows_read_item_header
    | apply grows_bind; [| intro]
    | match goal with
      | |- grows _ (if ?c then _ else _) => destruct c
      | |- grows _ (let _ := _ in _) => cbv zeta
      end ].

Lemma grows_parse_item : forall no_extra_data,
  grows extra (parse_item no_extra_data).
Proof.
  intro no_extra_data. unfold parse_item. apply grows_bind.
  - apply grows_read_item_header.
  - intro ih. unfold dispatch. cbv zeta.
    repeat match goal with
           | |- grows _ (if ?c then _ else _) => destruct c
           end;
      first [unfold _parse_nv | unfold _parse_file | idtac]; grows_tac.
Qed.

Lemma grows_for_range : forall n body,
  grows extra body -> grows extra (for_range n body).
Proof.
  intros n body Hb. induction n as [| n IH]; cbn [for_range].
  - apply grows_ret.
  - apply grows_bind; [exact Hb | intros _; exact IH].
Qed.

Lemma grows_image_after_magic : forall no_extra_data,
  grows extra (image_after_magic no_extra_data).
Proof.
  intro no_extra_data. unfold image_after_magic.
  apply grows_bind; [unfold header_fields; grows_tac |].
  intro h. destruct (items_count h =? 0); [apply grows_raise |].
  cbv zeta. apply grows_bind.
  - apply grows_for_range. apply grows_parse_item.
  - intros _. unfold _read_trailer. grows_tac.
Qed.

(** *** Success on the longer buffer: the same or EOF on the shorter *)

Lemma shrinks_ret : forall A (a : A), shrinks extra (ret a).
Proof.
  intros A a ws wl a' wl' Hl H. inversion H; subst.
  left. exists ws. split; [reflexivity | assumption].
Qed.

Lemma shrinks_raise : forall A e, shrinks extra (@raise A e).
Proof. intros A e ws wl a wl' _ H. discriminate. Qed.

Lemma shrinks_bind : forall A B (c : M A) (k : A -> M B),
  shrinks extra c -> (forall a, shrinks extra (k a)) ->
  (forall a, keeps (k a)) ->
  shrinks extra (bind c k).
Proof.
  intros A B c k Hc Hk Hkeep ws wl b wl' Hl H. unfold bind in *.
  destruct (c wl) as [[a | e] wl1] eqn:E; [| discriminate].
  destruct (Hc _ _ _ _ Hl E) as [[ws1 [E' Hl1]] | [ws1 [E' [rest Hr]]]];
    rewrite E'.
  - eapply Hk; eassumption.
  - right. exists ws1. split; [reflexivity |].
    destruct (Hkeep a _ _ _ H) as [_ [_ [_ [[added Ha] _]]]].
    exists (rest ++ added). rewrite Ha, Hr, app_assoc. reflexivity.
Qed.

Lemma shrinks_read_exact : forall size, shrinks extra (_read_exact size).
Proof.
  intros size ws wl a wl' Hl H. apply read_exact_inv in H.
  destruct H as [H0 [Hav [-> ->]]].
  destruct (Nat.le_gt_cases (Z.to_nat size) (avail ws)) as [Hle | Hgt].
  - left. exists (advance ws (Z.to_nat size)). split.
    + rewrite read_exact_ok by assumption.
      now rewrite (slice_longer _ _ _ Hl Hle).
    + apply longer_advance; assumption.
  - right. exists (read_fail size ws). split.
    + apply read_exact_short. right. exact Hgt.
    + exists []. rewrite app_nil_r, saved_advance, saved_read_fail.
      destruct Hl as [_ [_ [Hs _]]]. exact Hs.
Qed.

Lemma shrinks_tell : shrinks extra stream_tell.
Proof.
  intros ws wl a wl' Hl H. unfold stream_tell in *. inversion H; subst.
  left. exists ws. destruct Hl as [Hb [Hp [Hs Hle]]]. rewrite Hp.
  split; [reflexivity |]. unfold longer. auto.
Qed.

Lemma shrinks_save : forall name content,
  shrinks extra (_save_to_file name content).
Proof.
  intros name content ws wl [] wl' [Hb [Hp [Hs [Hle Hf]]]] H.
  apply save_ok_inv in H. destruct H as [Hfs ->].
  left. exists (with_saved ws name content). split.
  - apply save_accepted. rewrite <- Hf, <- Hs. exact Hfs.
  - unfold longer, with_saved. cbn [stream saved file_system].
    rewrite Hs. auto.
Qed.

Lemma shrinks_unpack_uint : forall width data,
  shrinks extra (unpack_uint width data).
Proof.
  intros width data. unfold unpack_uint.
  destruct (Nat.eqb (length data) width);
    [apply shrinks_ret | apply shrinks_raise].
Qed.

Lemma shrinks_read_H : shrinks extra read_H.
Proof.
  unfold read_H. apply shrinks_bind; [apply shrinks_read_exact | |].
  - intro d. apply shrinks_unpack_uint.
  - intro d. apply keeps_unpack_uint.
Qed.

Lemma shrinks_read_I : shrinks extra read_I.
Proof.
  unfold read_I. apply shrinks_bind; [apply shrinks_read_exact | |].
  - intro d. apply shrinks_unpack_uint.
  - intro d. apply keeps_unpack_uint.
Qed.

Lemma shrinks_read_item_header : shrinks extra _read_item_header.
Proof.
  unfold _read_item_header. apply shrinks_bind; [apply shrinks_read_exact | |].
  - intro d. unfold unpack_IBBH.
    destruct (Nat.eqb (length d) 8); [apply shrinks_ret | apply shrinks_raise].
  - intro d. unfold unpack_IBBH.
    destruct (Nat.eqb (length d) 8); [apply keeps_ret | apply keeps_raise].
Qed.

Ltac shrinks_tac :=
  repeat first
    [ apply shrinks_ret | apply shrinks_raise | apply shrinks_read_exact
    | apply shrinks_read_H | apply shrinks_read_I | apply shrinks_tell
    | apply shrinks_save | apply shrinks_read_item_header
    | apply shrinks_bind; [| intro | intro; keeps_tac]
    | match goal with
      | |- shrinks _ (if ?c then _ else _) => destruct c
      | |- shrinks _ (let _ := _ in _) => cbv zeta
      end ].

Lemma shrinks_parse_item : forall no_extra_data,
  shrinks extra (parse_item no_extra_data).
Proof.
  intro no_extra_data. unfold parse_item. apply shrinks_bind.
  - apply shrinks_read_item_header.
  - intro ih. unfold dispatch. cbv zeta.
    repeat match goal with
           | |- shrinks _ (if ?c then _ else _) => destruct c
           end;
      first [unfold _parse_nv | unfold _parse_file | idtac]; shrinks_tac.
  - intro ih. unfold dispatch. cbv zeta.
    repeat match goal with
           | |- keeps (if ?c then _ else _) => destruct c
           end;
      first [apply keeps_parse_nv | apply keeps_parse_file | apply keeps_raise].
Qed.

Lemma shrinks_for_range : forall n body,
  shrinks extra body -> keeps body -> shrinks extra (for_range n body).
Proof.
  intros n body Hb Hk. induction n as [| n IH]; cbn [for_range].
  - apply shrinks_ret.
  - apply shrinks_bind; [exact Hb | intros _; exact IH |].
    intros _. apply keeps_for_range. exact Hk.
Qed.

Lemma shrinks_image_after_magic : forall no_extra_data,
  shrinks extra (image_after_magic no_extra_data).
Proof.
  intro no_extra_data. unfold image_after_magic.
  apply shrinks_bind; [unfold header_fields; shrinks_tac | |].
  - intro h. destruct (items_count h =? 0); [apply shrinks_raise |].
    cbv zeta. apply shrinks_bind.
    + apply shrinks_for_range;
        [apply shrinks_parse_item | apply keeps_parse_item].
    + intros _. unfold _read_trailer. shrinks_tac.
    + intros _. apply keeps_read_trailer.
  - intro h. destruct (items_count h =? 0); [apply keeps_raise |].
    cbv zeta. apply keeps_bind.
    + apply keeps_for_range. apply keeps_parse_item.
    + intros _. apply keeps_read_trailer.
Qed.

End Longer.

Lemma bytes_find_unique : forall data sub i,
  occurs_at sub data i ->
  (forall j, (j < i)%nat -> ~ occurs_at sub data j) ->
  bytes_find data sub = Z.of_nat i.
Proof.
  intros data sub i Hocc Hfirst.
  destruct (Z.eq_dec (bytes_find data sub) (-1)) as [E | E].
  - exfalso. exact (bytes_find_absent data sub E i Hocc).
  - destruct (bytes_find_found data sub _ eq_refl E) as [H0 [Ho [_ Hf]]].
    destruct (Nat.lt_trichotomy (Z.to_nat (bytes_find data sub)) i)
      as [Hlt | [Heq | Hgt]].
    + exfalso. exact (Hfirst _ Hlt Ho).
    + lia.
    + exfalso. exact (Hf _ Hgt Hocc).
Qed.

Lemma occurs_at_length : forall sub data i,
  occurs_at sub data i -> (i <= length data)%nat ->
  (i + length sub <= length data)%nat.
Proof.
  intros sub data i [rest H] Hi.
  apply (f_equal (@length byte)) in H.
  rewrite length_skipn, length_app in H. lia.
Qed.

Lemma occurs_at_app : forall sub data extra i,
  occurs_at sub data i -> (i <= length data)%nat ->
  occurs_at sub (data ++ extra) i.
Proof.
  intros sub data extra i [rest H] Hi. exists (rest ++ extra).
  rewrite skipn_app, H.
  replace (i - length data)%nat with 0%nat by lia.
  cbn [skipn]. now rewrite app_assoc.
Qed.

Lemma occurs_at_app_inv : forall sub data extra i,
  occurs_at sub (data ++ extra) i ->
  (i + length sub <= length data)%nat ->
  occurs_at sub data i.
Proof.
  intros sub data extra i [rest H] Hi.
  rewrite skipn_app in H.
  replace (i - length data)%nat with 0%nat in H by lia.
  cbn [skipn] in H.
  exists (skipn (length sub) (skipn i data)).
  assert (Hf : firstn (length sub) (skipn i data) = sub).
  { apply (f_equal (firstn (length sub))) in H.
    rewrite firstn_app, length_skipn in H.
    replace (length sub - (length data - i))%nat with 0%nat in H by lia.
    cbn [firstn] in H. rewrite app_nil_r in H. rewrite H.
    rewrite firstn_app, firstn_all, Nat.sub_diag. cbn [firstn].
    apply app_nil_r. }
  rewrite <- Hf at 1. symmetry. apply firstn_skipn.
Qed.

(** The first signature of a buffer stays the first when bytes are put
    behind it. *)
Lemma bytes_find_app : forall data sub extra,
  bytes_find data sub <> -1 ->
  bytes_find (data ++ extra) sub = bytes_find data sub.
Proof.
  intros data sub extra E.
  destruct (bytes_find_found data sub _ eq_refl E) as [H0 [Ho [Hlen Hf]]].
  rewrite <- (Z2Nat.id (bytes_find data sub)) by exact H0.
  apply bytes_find_unique.
  - apply occurs_at_app; [exact Ho | lia].
  - intros j Hj Hocc. apply (Hf j Hj).
    eapply occurs_at_app_inv; [exact Hocc | lia].
Qed.

Lemma find_magic_run : forall fs b,
  _find_magic_and_seek MAGIC (fresh_world fs b) =
  if bytes_find b MAGIC =? -1
  then (Raise no_magic_error, set_pos (fresh_world fs b) (length b))
  else (Ok tt, set_pos (fresh_world fs b) (Z.to_nat (bytes_find b MAGIC))).
Proof.
  intros fs b. unfold _find_magic_and_seek, bind, stream_read, fresh_world.
  cbn [Z.ltb Z.compare stream buf pos skipn Nat.add].
  destruct (bytes_find b MAGIC =? -1); reflexivity.
Qed.

Lemma longer_at_magic : forall fs b extra,
  bytes_find b MAGIC <> -1 ->
  longer extra
    (set_pos (fresh_world fs b) (Z.to_nat (bytes_find b MAGIC)))
    (set_pos (fresh_world fs (b ++ extra)) (Z.to_nat (bytes_find b MAGIC))).
Proof.
  intros fs b extra E. unfold longer.
  cbn [set_pos fresh_world stream buf pos saved file_system].
  destruct (bytes_find_found b MAGIC _ eq_refl E) as [_ [_ [Hlen _]]].
  repeat split. lia.
Qed.

(** ** X11: bytes behind the trailer

    X11. When an image is extracted with success, the same image with any
    bytes put behind it is extracted with success too, with the same files
    saved and the cursor at the same place: nothing checks that the
    trailer ends the buffer. *)
Theorem bytes_behind_the_trailer_are_ignored : forall fs no_extra_data b extra w',
  _parse_image no_extra_data (fresh_world fs b) = (Ok tt, w') ->
  exists w'',
    _parse_image no_extra_data (fresh_world fs (b ++ extra)) = (Ok tt, w'') /\
    saved w'' = saved w' /\
    pos (stream w'') = pos (stream w').
Proof.
  intros fs no_extra_data b extra w' H.
  rewrite parse_image_split in *. unfold bind in *.
  rewrite find_magic_run in *.
  destruct (Z.eqb_spec (bytes_find b MAGIC) (-1)) as [E | E]; [discriminate |].
  rewrite (bytes_find_app b MAGIC extra E).
  replace (bytes_find b MAGIC =? -1) with false
    by (symmetry; apply Z.eqb_neq; exact E).
  destruct (grows_image_after_magic extra no_extra_data _ _ _ _
              (longer_at_magic fs b extra E) H) as [wl [Hl [Hb [Hp [Hs _]]]]].
  exists wl. auto.
Qed.

Lemma bytes_behind_witness :
  exists w'',
    _parse_image false (fresh_world sample_fs (sample_image ++ [x00; xff; x4d]))
      = (Ok tt, w'') /\
    saved w'' = saved (snd (_parse_image false (fresh_world sample_fs sample_image))) /\
    pos (stream w'')
      = pos (stream (snd (_parse_image false (fresh_world sample_fs sample_image)))).
Proof.
  apply (bytes_behind_the_trailer_are_ignored sample_fs false sample_image
           [x00; xff; x4d]
           (snd (_parse_image false (fresh_world sample_fs sample_image)))).
  vm_compute. reflexivity.
Defined.

(** ** X12: a truncated image

    X12. When an image is extracted with success and the buffer is cut
    anywhere before the place the cursor reached, extraction of the cut
    buffer fails: with the cannot-find error when the signature no longer
    lies in it, and otherwise with the unexpected-EOF error, having saved
    a first part of the files of the whole image. *)
Theorem truncated_image_fails : forall fs no_extra_data b extra w',
  _parse_image no_extra_data (fresh_world fs (b ++ extra)) = (Ok tt, w') ->
  (length b < pos (stream w'))%nat ->
  (exists w'',
     _parse_image no_extra_data (fresh_world fs b) = (Raise no_magic_error, w'') /\
     saved w'' = [] /\ forall j, ~ occurs_at MAGIC b j)
  \/
  (exists w'' rest,
     _parse_image no_extra_data (fresh_world fs b) = (Raise eof_error, w'') /\
     saved w' = saved w'' ++ rest /\ exists j, occurs_at MAGIC b j).
Proof.
  intros fs no_extra_data b extra w' H Hcut.
  rewrite parse_image_split in *. unfold bind in *.
  rewrite find_magic_run in *.
  destruct (Z.eqb_spec (bytes_find b MAGIC) (-1)) as [E | E].
  - left. eexists. split; [reflexivity |]. split; [reflexivity |].
    apply bytes_find_absent. exact E.
  - right.
    rewrite (bytes_find_app b MAGIC extra E) in H.
    replace (bytes_find b MAGIC =? -1) with false in H
      by (symmetry; apply Z.eqb_neq; exact E).
    destruct (bytes_find_found b MAGIC _ eq_refl E) as [_ [Ho _]].
    destruct (shrinks_image_after_magic extra no_extra_data _ _ _ _
                (longer_at_magic fs b extra E) H)
      as [[ws [Hs [_ [Hp [_ Hle]]]]] | [ws [Hs [rest Hr]]]].
    + exfalso.
      apply keeps_image_after_magic in Hs. destruct Hs as [Hb _].
      rewrite Hb in Hle. cbn [set_pos fresh_world stream buf] in Hle. lia.
    + exists ws, rest. split; [exact Hs |]. split; [exact Hr | eauto].
Qed.

Lemma truncated_image_witness :
  exists w'' rest,
    _parse_image false (fresh_world sample_fs (firstn 60 sample_image))
      = (Raise eof_error, w'') /\
    saved (snd (_parse_image false (fresh_world sample_fs sample_image)))
      = saved w'' ++ rest.
Proof.
  destruct (truncated_image_fails sample_fs false (firstn 60 sample_image)
              (skipn 60 sample_image)
              (snd (_parse_image false (fresh_world sample_fs sample_image))))
    as [[w'' [_ [_ Hno]]] | [w'' [rest [H1 [H2 _]]]]].
  - vm_compute. reflexivity.
  - vm_compute. lia.
  - exfalso. apply (Hno 2%nat). eexists. vm_compute. reflexivity.
  - exists w'', rest. split; [exact H1 | exact H2].
Defined.

Section Alike.
Variable d : nat.
Variable E : string * list byte -> string * list byte -> Prop.
Variable S : PyExc -> Prop.
Hypothesis E_refl : forall x, E x x.
Hypothesis save_alike : forall n1 c1 n2 c2,
  E (n1, c1) (n2, c2) ->
  alike d E S eq (_save_to_file n1 c1) (_save_to_file n2 c2).

Lemma alike_ret : forall A B (RA : A -> B -> Prop) a b,
  RA a b -> alike d E S RA (ret a) (ret b).
Proof. intros A B RA a b H w1 w2 Hw. left. split; [exact H | exact Hw]. Qed.

Lemma alike_raise : forall A B (RA : A -> B -> Prop) e,
  alike d E S RA (raise e) (raise e).
Proof.
  intros A B RA e w1 w2 Hw. left. split; [reflexivity | exact Hw].
Qed.

Lemma alike_bind : forall A B A' B' (RA : A -> B -> Prop)
    (RB : A' -> B' -> Prop) c1 c2 k1 k2,
  alike d E S RA c1 c2 ->
  (forall a b, RA a b -> alike d E S RB (k1 a) (k2 b)) ->
  alike d E S RB (bind c1 k1) (bind c2 k2).
Proof.
  intros A B A' B' RA RB c1 c2 k1 k2 Hc Hk w1 w2 Hw. unfold bind.
  destruct (Hc w1 w2 Hw) as [[Hr Hw'] | [Hs | Hs]].
  - destruct (c1 w1) as [[a | e1] w1']; destruct (c2 w2) as [[b | e2] w2'];
      cbn [fst snd rel_results] in *; try contradiction.
    + apply Hk; assumption.
    + left. split; assumption.
  - destruct (c1 w1) as [[a | e1] w1']; cbn [fst stopped] in Hs;
      [contradiction |].
    right. left. exact Hs.
  - destruct (c2 w2) as [[b | e2] w2']; cbn [fst stopped] in Hs;
      [contradiction |].
    right. right. exact Hs.
Qed.

Lemma alike_stream_read : forall size,
  alike d E S eq (stream_read size) (stream_read size).
Proof.
  intros size w1 w2 [Hrest [Hpos Hs]]. unfold stream_read. left.
  cbn [fst snd rel_results]. rewrite Hrest. split; [reflexivity |].
  unfold rel_worlds. cbn [set_pos stream buf pos saved file_system].
  split; [| split; [lia | exact Hs]].
  set (k := length (if size <? 0
                    then skipn (pos (stream w2)) (buf (stream w2))
                    else firstn (Z.to_nat size)
                           (skipn (pos (stream w2)) (buf (stream w2))))).
  rewrite (Nat.add_comm (pos (stream w1)) k).
  rewrite (Nat.add_comm (pos (stream w2)) k).
  rewrite <- !skipn_skipn. now rewrite Hrest.
Qed.

Lemma alike_read_exact : forall size,
  alike d E S eq (_read_exact size) (_read_exact size).
Proof.
  intro size. unfold _read_exact.
  eapply alike_bind; [apply alike_stream_read |].
  intros a b <-.
  destruct (negb (Z.of_nat (length a) =? size));
    [apply alike_raise | apply alike_ret; reflexivity].
Qed.

Lemma alike_unpack_uint : forall width data,
  alike d E S eq (unpack_uint width data) (unpack_uint width data).
Proof.
  intros width data. unfold unpack_uint.
  destruct (Nat.eqb (length data) width);
    [apply alike_ret; reflexivity | apply alike_raise].
Qed.

Lemma alike_read_H : alike d E S eq read_H read_H.
Proof.
  unfold read_H. eapply alike_bind; [apply alike_read_exact |].
  intros a b <-. apply alike_unpack_uint.
Qed.

Lemma alike_read_I : alike d E S eq read_I read_I.
Proof.
  unfold read_I. eapply alike_bind; [apply alike_read_exact |].
  intros a b <-. apply alike_unpack_uint.
Qed.

Lemma alike_read_item_header :
  alike d E S eq _read_item_header _read_item_header.
Proof.
  unfold _read_item_header. eapply alike_bind; [apply alike_read_exact |].
  intros a b <-. unfold unpack_IBBH.
  destruct (Nat.eqb (length a) 8);
    [apply alike_ret; reflexivity | apply alike_raise].
Qed.

Lemma alike_tell :
  alike d E S (fun a b => b = a + Z.of_nat d) stream_tell stream_tell.
Proof.
  intros w1 w2 Hw. unfold stream_tell. left. cbn [fst snd rel_results].
  split; [| exact Hw]. destruct Hw as [_ [Hp _]]. lia.
Qed.

Ltac alike_reads :=
  repeat first
    [ eapply alike_bind;
        [first [apply alike_read_H | apply alike_read_I
               | apply alike_read_exact] | intros ? ? <-]
    | apply alike_raise
    | match goal with
      | |- alike _ _ _ _ (if ?c then _ else _) (if ?c then _ else _) =>
          destruct c
      | |- alike _ _ _ _ (let _ := _ in _) _ => cbv zeta
      end ].

Lemma alike_parse_nv : forall ih, alike d E S eq (_parse_nv ih) (_parse_nv ih).
Proof.
  intro ih. unfold _parse_nv.
  eapply alike_bind; [apply alike_tell | intros p0 q0 ->].
  alike_reads.
  eapply alike_bind; [apply alike_tell | intros p1 q1 ->].
  replace (p1 + Z.of_nat d - (p0 + Z.of_nat d)) with (p1 - p0) by lia.
  cbv zeta.
  destruct (negb (p1 - p0 + 8 =? ih_length ih)); [apply alike_raise |].
  apply save_alike. apply E_refl.
Qed.

Lemma alike_parse_file : forall ih is_nv_file ne1 ne2,
  (forall n c, E (file_save_name is_nv_file ne1 n, c)
                 (file_save_name is_nv_file ne2 n, c)) ->
  alike d E S eq (_parse_file ih is_nv_file ne1) (_parse_file ih is_nv_file ne2).
Proof.
  intros ih is_nv_file ne1 ne2 He. unfold _parse_file.
  eapply alike_bind; [apply alike_tell | intros p0 q0 ->].
  alike_reads.
  eapply alike_bind; [apply alike_tell | intros p1 q1 ->].
  replace (p1 + Z.of_nat d - (p0 + Z.of_nat d)) with (p1 - p0) by lia.
  cbv zeta.
  destruct (negb (p1 - p0 + 8 =? ih_length ih)); [apply alike_raise |].
  apply save_alike. apply He.
Qed.

Lemma alike_read_trailer : alike d E S eq _read_trailer _read_trailer.
Proof.
  unfold _read_trailer. alike_reads. apply alike_ret. reflexivity.
Qed.

Lemma alike_header_fields : alike d E S eq header_fields header_fields.
Proof.
  unfold header_fields. alike_reads. apply alike_ret. reflexivity.
Qed.

Section Flags.
Variables ne1 ne2 : bool.
Hypothesis E_names : forall is_nv_file n c,
  E (file_save_name is_nv_file ne1 n, c) (file_save_name is_nv_file ne2 n, c).

Lemma alike_parse_item : alike d E S eq (parse_item ne1) (parse_item ne2).
Proof.
  unfold parse_item.
  eapply alike_bind; [apply alike_read_item_header | intros ih ? <-].
  unfold dispatch. cbv zeta.
  destruct (ih_type ih =? ItemType.Nv); [apply alike_parse_nv |].
  destruct (ih_type ih =? ItemType.NvFile);
    [apply alike_parse_file; apply E_names |].
  destruct (ih_type ih =? ItemType.File);
    [apply alike_parse_file; apply E_names |].
  apply alike_raise.
Qed.

Lemma alike_for_range : forall n,
  alike d E S eq (for_range n (parse_item ne1)) (for_range n (parse_item ne2)).
Proof.
  induction n as [| n IH]; cbn [for_range].
  - apply alike_ret. reflexivity.
  - eapply alike_bind; [apply alike_parse_item | intros _ _ _; exact IH].
Qed.

Lemma alike_image_after_magic :
  alike d E S eq (image_after_magic ne1) (image_after_magic ne2).
Proof.
  unfold image_after_magic.
  eapply alike_bind; [apply alike_header_fields | intros h ? <-].
  destruct (items_count h =? 0); [apply alike_raise |].
  cbv zeta.
  eapply alike_bind; [apply alike_for_range | intros _ _ _].
  apply alike_read_trailer.
Qed.

End Flags.
End Alike.

Lemma suffix_only_refl : forall x, suffix_only x x.
Proof. intro x. unfold suffix_only. auto. Qed.

Lemma suffix_only_names : forall is_nv_file n c,
  suffix_only (file_save_name is_nv_file true n, c)
              (file_save_name is_nv_file false n, c).
Proof.
  intros [|] n c; unfold suffix_only, file_save_name; cbn [fst snd]; auto.
Qed.

Lemma Forall2_same : forall A (R : A -> A -> Prop) l,
  (forall x, R x x) -> Forall2 R l l.
Proof. intros A R l H. induction l; constructor; auto. Qed.

Lemma Forall2_eq_inv : forall A (l l' : list A), Forall2 eq l l' -> l = l'.
Proof. intros A l l' H. induction H; congruence. Qed.

(** Writing the same file from worlds with the same saved files has the
    same outcome. *)
Lemma save_alike_eq : forall d n1 c1 n2 c2,
  (n1, c1) = (n2, c2) ->
  alike d eq (fun _ => False) eq (_save_to_file n1 c1) (_save_to_file n2 c2).
Proof.
  intros d n1 c1 n2 c2 He w1 w2 [Hrest [Hpos [Hs Hf]]].
  inversion He; subst n2 c2. left.
  pose proof (Forall2_eq_inv _ _ _ Hs) as Hsaved.
  unfold _save_to_file. rewrite Hf, Hsaved.
  destruct (file_system w2 (saved w2) n1 c1) as [[cls msg] |];
    cbn [fst snd rel_results]; (split; [reflexivity |]).
  - unfold rel_worlds. auto.
  - unfold rel_worlds. cbn [stream saved file_system].
    split; [exact Hrest |]. split; [exact Hpos |].
    split; [| reflexivity].
    apply Forall2_same. reflexivity.
Qed.

(** Writing a file under a name and under that name with a suffix: both are
    written, or the file system refuses one of them. *)
Lemma save_alike_suffix : forall n1 c1 n2 c2,
  suffix_only (n1, c1) (n2, c2) ->
  alike 0 suffix_only library_error eq
    (_save_to_file n1 c1) (_save_to_file n2 c2).
Proof.
  intros n1 c1 n2 c2 He w1 w2 [Hrest [Hpos [Hs Hf]]]. unfold _save_to_file.
  destruct (file_system w1 (saved w1) n1 c1) as [[cls1 msg1] |].
  { right. left. cbn [fst stopped]. unfold library_error. eauto. }
  destruct (file_system w2 (saved w2) n2 c2) as [[cls2 msg2] |].
  { right. right. cbn [fst stopped]. unfold library_error. eauto. }
  left. cbn [fst snd rel_results]. split; [reflexivity |].
  unfold rel_worlds. cbn [stream saved file_system].
  split; [exact Hrest |]. split; [exact Hpos |]. split; [| exact Hf].
  apply Forall2_app; [exact Hs | constructor; [exact He | constructor]].
Qed.

Lemma library_error_refused : forall no_extra_data w,
  stopped library_error (fst (_parse_image no_extra_data w)) ->
  exists e,
    fst (_parse_image no_extra_data w) = Raise e /\
    refused_save (snd (_parse_image no_extra_data w)) e.
Proof.
  intros no_extra_data w H.
  destruct (_parse_image no_extra_data w) as [[[] | e] w'] eqn:Ep;
    cbn [fst snd stopped] in *; [contradiction |].
  exists e. split; [reflexivity |].
  apply parse_image_raise_listed in Ep.
  destruct Ep as [[m [-> _]] | Hr]; [| exact Hr].
  destruct H as [cls [msg H]]. discriminate.
Qed.

(** ** X13: what [no_extra_data] changes

    X13. Run on the same world with [no_extra_data] true and false,
    [_parse_image] has the same outcome and leaves the same stream, and it
    saves the same number of files, in the same order and with the same
    contents, each name of the second run being the name of the first run
    or that name followed by one of the two suffixes; unless, in one of
    the two runs, the file system refuses a file, which ends that run
    with the exception of the file system. *)
Theorem no_extra_data_changes_names_only : forall w,
  (fst (_parse_image true w) = fst (_parse_image false w) /\
   stream (snd (_parse_image true w)) = stream (snd (_parse_image false w)) /\
   Forall2 suffix_only (saved (snd (_parse_image true w)))
                       (saved (snd (_parse_image false w))))
  \/
  (exists e,
     fst (_parse_image true w) = Raise e /\
     refused_save (snd (_parse_image true w)) e)
  \/
  (exists e,
     fst (_parse_image false w) = Raise e /\
     refused_save (snd (_parse_image false w)) e).
Proof.
  intro w.
  assert (Hmain :
    (fst (_parse_image true w) = fst (_parse_image false w) /\
     stream (snd (_parse_image true w))
       = stream (snd (_parse_image false w)) /\
     Forall2 suffix_only (saved (snd (_parse_image true w)))
                         (saved (snd (_parse_image false w))))
    \/ stopped library_error (fst (_parse_image true w))
    \/ stopped library_error (fst (_parse_image false w))).
  { rewrite !parse_image_split. unfold bind.
    destruct (_find_magic_and_seek MAGIC w) as [[[] | e] w0] eqn:Ef.
    2:{ left. cbn [fst snd]. split; [reflexivity |]. split; [reflexivity |].
        apply Forall2_same. apply suffix_only_refl. }
    assert (Hbuf : forall ne, buf (stream (snd (image_after_magic ne w0)))
                              = buf (stream w0)).
    { intro ne. destruct (image_after_magic ne w0) as [r w1] eqn:Ei.
      apply keeps_image_after_magic in Ei. destruct Ei as [Hb _]. exact Hb. }
    assert (Hrel : rel_worlds 0 suffix_only w0 w0).
    { unfold rel_worlds. split; [reflexivity |]. split; [lia |].
      split; [| reflexivity]. apply Forall2_same. apply suffix_only_refl. }
    destruct (alike_image_after_magic 0 suffix_only library_error
                suffix_only_refl save_alike_suffix
                true false suffix_only_names w0 w0 Hrel)
      as [[Hr [_ [Hp [Hs _]]]] | [Hst | Hst]];
      [left | right; left; exact Hst | right; right; exact Hst].
    split.
    - unfold rel_results in Hr.
      destruct (fst (image_after_magic true w0)) as [[] | e1];
        destruct (fst (image_after_magic false w0)) as [[] | e2];
        try contradiction; congruence.
    - split; [| exact Hs].
      pose proof (Hbuf true) as Hb1. pose proof (Hbuf false) as Hb2.
      destruct (stream (snd (image_after_magic true w0))) as [b1 p1].
      destruct (stream (snd (image_after_magic false w0))) as [b2 p2].
      cbn [buf pos] in *. f_equal; [congruence | lia]. }
  destruct Hmain as [H | [H | H]].
  - left. exact H.
  - right. left. apply library_error_refused. exact H.
  - right. right. apply library_error_refused. exact H.
Qed.

(** *** Bytes in front of the signature *)

Lemma skipn_past_app : forall (pre b : list byte) k,
  skipn (length pre + k) (pre ++ b) = skipn k b.
Proof.
  intros pre b k. rewrite skipn_app, skipn_all2 by lia.
  replace (length pre + k - length pre)%nat with k by lia. reflexivity.
Qed.

Lemma occurs_at_past_app : forall sub (pre b : list byte) k,
  occurs_at sub (pre ++ b) (length pre + k) <-> occurs_at sub b k.
Proof.
  intros sub pre b k. unfold occurs_at. now rewrite skipn_past_app.
Qed.

Lemma bytes_find_prepend : forall sub (pre b : list byte),
  (forall j, (j < length pre)%nat -> ~ occurs_at sub (pre ++ b) j) ->
  bytes_find (pre ++ b) sub =
  if bytes_find b sub =? -1 then -1
  else Z.of_nat (length pre) + bytes_find b sub.
Proof.
  intros sub pre b Hpre.
  destruct (Z.eqb_spec (bytes_find b sub) (-1)) as [E | E].
  - destruct (Z.eq_dec (bytes_find (pre ++ b) sub) (-1)) as [E' | E'];
      [exact E' |].
    exfalso.
    destruct (bytes_find_found _ _ _ eq_refl E') as [H0 [Ho _]].
    set (i := Z.to_nat (bytes_find (pre ++ b) sub)) in *.
    destruct (Nat.lt_ge_cases i (length pre)) as [Hlt | Hge].
    + exact (Hpre i Hlt Ho).
    + replace i with (length pre + (i - length pre))%nat in Ho by lia.
      apply occurs_at_past_app in Ho.
      exact (bytes_find_absent b sub E _ Ho).
  - destruct (bytes_find_found b sub _ eq_refl E) as [H0 [Ho [_ Hf]]].
    replace (Z.of_nat (length pre) + bytes_find b sub)
      with (Z.of_nat (length pre + Z.to_nat (bytes_find b sub))) by lia.
    apply bytes_find_unique.
    + apply occurs_at_past_app. exact Ho.
    + intros j Hj Hocc.
      destruct (Nat.lt_ge_cases j (length pre)) as [Hlt | Hge].
      * exact (Hpre j Hlt Hocc).
      * replace j with (length pre + (j - length pre))%nat in Hocc by lia.
        apply occurs_at_past_app in Hocc.
        apply (Hf (j - length pre)%nat); [lia | exact Hocc].
Qed.

(** ** X14: bytes in front of the signature

    X14. Bytes put in front of a buffer, as long as no signature starts
    among them, change nothing but the cursor: the outcome and the saved
    files are those of the buffer alone, and the cursor ends further by
    the number of bytes put in front. *)
Theorem bytes_before_signature_are_skipped : forall fs no_extra_data pre b,
  (forall j, (j < length pre)%nat -> ~ occurs_at MAGIC (pre ++ b) j) ->
  fst (_parse_image no_extra_data (fresh_world fs (pre ++ b)))
    = fst (_parse_image no_extra_data (fresh_world fs b)) /\
  saved (snd (_parse_image no_extra_data (fresh_world fs (pre ++ b))))
    = saved (snd (_parse_image no_extra_data (fresh_world fs b))) /\
  pos (stream (snd (_parse_image no_extra_data (fresh_world fs (pre ++ b)))))
    = (pos (stream (snd (_parse_image no_extra_data (fresh_world fs b))))
       + length pre)%nat.
Proof.
  intros fs no_extra_data pre b Hpre.
  rewrite !parse_image_split. unfold bind. rewrite !find_magic_run.
  rewrite (bytes_find_prepend MAGIC pre b Hpre).
  destruct (Z.eqb_spec (bytes_find b MAGIC) (-1)) as [E | E].
  - cbn [Z.eqb fst snd set_pos fresh_world stream pos saved].
    rewrite length_app. split; [reflexivity |]. split; [reflexivity |].
    change (1 =? 1)%positive with true.
    cbn [snd set_pos fresh_world stream pos]. lia.
  - destruct (bytes_find_found b MAGIC _ eq_refl E) as [H0 _].
    replace (Z.of_nat (length pre) + bytes_find b MAGIC =? -1) with false
      by (symmetry; apply Z.eqb_neq; lia).
    set (w1 := set_pos (fresh_world fs b) (Z.to_nat (bytes_find b MAGIC))).
    set (w2 := set_pos (fresh_world fs (pre ++ b))
                 (Z.to_nat (Z.of_nat (length pre) + bytes_find b MAGIC))).
    assert (Hrel : rel_worlds (length pre) eq w1 w2).
    { unfold rel_worlds, w1, w2.
      cbn [set_pos fresh_world stream buf pos saved].
      replace (Z.to_nat (Z.of_nat (length pre) + bytes_find b MAGIC))
        with (length pre + Z.to_nat (bytes_find b MAGIC))%nat by lia.
      rewrite skipn_past_app.
      split; [reflexivity |]. split; [lia |].
      split; [constructor | reflexivity]. }
    destruct (alike_image_after_magic (length pre) eq (fun _ => False)
                (@eq_refl _) (save_alike_eq (length pre))
                no_extra_data no_extra_data
                (fun _ _ _ => eq_refl) w1 w2 Hrel)
      as [[Hr [_ [Hp [Hs _]]]] | [Hst | Hst]].
    2:{ exfalso.
        destruct (fst (image_after_magic no_extra_data w1)); exact Hst. }
    2:{ exfalso.
        destruct (fst (image_after_magic no_extra_data w2)); exact Hst. }
    split.
    + unfold rel_results in Hr.
      destruct (fst (image_after_magic no_extra_data w1)) as [[] | e1];
        destruct (fst (image_after_magic no_extra_data w2)) as [[] | e2];
        try contradiction; congruence.
    + split; [| exact Hp]. symmetry. apply Forall2_eq_inv. exact Hs.
Qed.

Lemma bytes_before_signature_witness :
  saved (snd (_parse_image false
                (fresh_world sample_fs ([x4d; x43; x46] ++ sample_image))))
  = saved (snd (_parse_image false (fresh_world sample_fs sample_image))).
Proof.
  destruct (bytes_before_signature_are_skipped sample_fs false [x4d; x43; x46]
              sample_image) as [_ [H _]].
  - intros j Hj [rest Hocc].
    destruct j as [| [| [| j]]]; [| | | cbn in Hj; lia];
      vm_compute in Hocc; discriminate.
  - exact H.
Defined.

Lemma replace_char_same : forall c s, replace_char c c s = s.
Proof.
  intros c s. induction s as [| a t IH]; [reflexivity |].
  cbn [replace_char]. rewrite IH.
  destruct (Ascii.eqb_spec a c); congruence.
Qed.

Lemma lstrip_char_not_start : forall c s,
  starts_with_char c (lstrip_char c s) = false.
Proof.
  intros c s. induction s as [| a t IH]; [reflexivity |].
  cbn [lstrip_char]. destruct (Ascii.eqb a c) eqn:E; [exact IH |].
  cbn [starts_with_char]. exact E.
Qed.

(** ** X15: the path of a saved file (POSIX)

    X15. The file part of the path never starts with a separator, so the
    path always starts with the output directory, followed by the file
    name without its leading slashes or by a separator and that name; a
    name and the same name with one more leading slash give the same
    path. *)
Theorem save_path_under_output_directory : forall file_name output_directory,
  let stripped := lstrip_char os_sep file_name in
  starts_with_char os_sep stripped = false /\
  (exists rest,
     save_path file_name output_directory
       = (output_directory ++ rest)%string /\
     (rest = stripped \/ rest = String os_sep stripped)) /\
  save_path (String os_sep file_name) output_directory
    = save_path file_name output_directory.
Proof.
  intros file_name output_directory stripped.
  split; [apply lstrip_char_not_start |]. split.
  - unfold save_path, posix_join. cbv zeta.
    unfold os_sep at 1 2. rewrite replace_char_same.
    fold os_sep. fold stripped.
    assert (Hs : starts_with_char os_sep stripped = false)
      by apply lstrip_char_not_start.
    rewrite Hs.
    destruct (String.eqb output_directory EmptyString
              || ends_with_char os_sep output_directory); eauto.
  - unfold save_path. cbv zeta. reflexivity.
Qed.

Lemma byte_val_of_Z : forall z, 0 <= z < 256 -> byte_val (byte_of_Z z) = z.
Proof.
  intros z Hz. unfold byte_val, byte_of_Z.
  pose proof (Byte.to_of_N_option_map (Z.to_N z)) as H.
  replace (N.leb (Z.to_N z) 255) with true in H
    by (symmetry; apply N.leb_le; lia).
  destruct (Byte.of_N (Z.to_N z)) as [b |]; [| discriminate].
  cbn [option_map] in H. inversion H as [Hb]. rewrite Hb. lia.
Qed.

Lemma length_le_bytes : forall width n, length (le_bytes width n) = width.
Proof.
  induction width as [| w IH]; intro n; [reflexivity |].
  cbn [le_bytes length]. now rewrite IH.
Qed.

(** Packing then unpacking gives the number back. *)
Lemma le_int_le_bytes : forall width n,
  0 <= n < 256 ^ Z.of_nat width -> le_int (le_bytes width n) = n.
Proof.
  induction width as [| w IH]; intros n Hn.
  - cbn in *. lia.
  - cbn [le_bytes le_int].
    rewrite Nat2Z.inj_succ, Z.pow_succ_r in Hn by lia.
    pose proof (Z.mod_pos_bound n 256 ltac:(lia)) as Hm.
    rewrite byte_val_of_Z by lia.
    rewrite IH.
    + pose proof (Z.div_mod n 256 ltac:(lia)). lia.
    + split; [apply Z.div_pos; lia |].
      apply Z.div_lt_upper_bound; lia.
Qed.

Lemma avail_rest : forall w, avail w = length (remaining w).
Proof. intro w. unfold avail, remaining. now rewrite length_skipn. Qed.

Lemma rest_advance : forall w d r,
  remaining w = d ++ r -> remaining (advance w (length d)) = r.
Proof.
  intros w d r H. unfold remaining in *.
  rewrite pos_advance, buf_advance, Nat.add_comm, <- skipn_skipn, H.
  rewrite skipn_app, skipn_all, Nat.sub_diag. reflexivity.
Qed.

Lemma slice_rest : forall w d r, remaining w = d ++ r -> slice w (length d) = d.
Proof.
  intros w d r H. unfold slice. fold (remaining w). rewrite H.
  rewrite firstn_app, firstn_all, Nat.sub_diag. cbn [firstn].
  apply app_nil_r.
Qed.

Lemma bind_read_exact_rest : forall B (k : list byte -> M B) w d r,
  remaining w = d ++ r ->
  bind (_read_exact (Z.of_nat (length d))) k w = k d (advance w (length d)).
Proof.
  intros B k w d r H. unfold bind. rewrite read_exact_nat_eq.
  replace (length d <=? avail w)%nat with true.
  - now rewrite (slice_rest _ _ _ H).
  - symmetry. apply Nat.leb_le. rewrite avail_rest, H, length_app. lia.
Qed.

Lemma bind_read_uint_rest : forall B (k : Z -> M B) width w n r,
  remaining w = le_bytes width n ++ r -> 0 <= n < 256 ^ Z.of_nat width ->
  bind (bind (_read_exact (Z.of_nat width)) (unpack_uint width)) k w
  = k n (advance w width).
Proof.
  intros B k width w n r H Hn. rewrite bind_assoc.
  rewrite <- (length_le_bytes width n) at 1.
  rewrite (bind_read_exact_rest _ _ _ _ _ H).
  unfold bind, unpack_uint. rewrite !length_le_bytes, Nat.eqb_refl.
  unfold ret. now rewrite le_int_le_bytes.
Qed.

Lemma bind_read_H_rest : forall B (k : Z -> M B) w n r,
  remaining w = le_bytes 2 n ++ r -> 0 <= n < 65536 ->
  bind read_H k w = k n (advance w 2).
Proof. intros. eapply (bind_read_uint_rest B k 2); eauto. Qed.

Lemma bind_read_I_rest : forall B (k : Z -> M B) w n r,
  remaining w = le_bytes 4 n ++ r -> 0 <= n < 4294967296 ->
  bind read_I k w = k n (advance w 4).
Proof. intros. eapply (bind_read_uint_rest B k 4); eauto. Qed.

Lemma rest_advance_uint : forall w width n r,
  remaining w = le_bytes width n ++ r -> remaining (advance w width) = r.
Proof.
  intros w width n r H. rewrite <- (length_le_bytes width n).
  eapply rest_advance. exact H.
Qed.

Lemma bind_tell : forall B (k : Z -> M B) w,
  bind stream_tell k w = k (Z.of_nat (pos (stream w))) w.
Proof. reflexivity. Qed.

(** One step over a 16-bit or 32-bit field, a byte string or the cursor
    query, with [HR] the equation that says what lies under the cursor. *)
Ltac eat_H HR :=
  let H' := fresh "HR" in
  pose proof (rest_advance_uint _ 2 _ _ HR) as H';
  rewrite (bind_read_H_rest _ _ _ _ _ HR) by lia;
  clear HR; rename H' into HR.

Ltac eat_I HR :=
  let H' := fresh "HR" in
  pose proof (rest_advance_uint _ 4 _ _ HR) as H';
  rewrite (bind_read_I_rest _ _ _ _ _ HR) by lia;
  clear HR; rename H' into HR.

Ltac eat_bytes HR :=
  let H' := fresh "HR" in
  pose proof (rest_advance _ _ _ HR) as H';
  rewrite (bind_read_exact_rest _ _ _ _ _ HR);
  clear HR; rename H' into HR.

Lemma parse_nv_layout : forall ih w u nv_id data r,
  remaining w = item_payload (NvRecord u nv_id data) ++ r ->
  item_fits (NvRecord u nv_id data) ->
  ih_length ih = 8 + Z.of_nat (length (item_payload (NvRecord u nv_id data))) ->
  exists wm,
    _parse_nv ih w = _save_to_file (nv_file_name nv_id) data wm /\
    remaining wm = r /\ saved wm = saved w /\
    file_system wm = file_system w.
Proof.
  intros ih w u nv_id data r HR [_ [Hid Hdata]] Hlen.
  cbn [item_payload] in *. rewrite <- !app_assoc in HR.
  rewrite !length_app, !length_le_bytes in Hlen. cbn [length] in Hlen.
  unfold _parse_nv. rewrite bind_tell.
  eat_H HR. eat_H HR. cbv beta zeta.
  replace (Z.of_nat (length data) + 1 - 1) with (Z.of_nat (length data))
    by lia.
  change (_read_exact 1)
    with (_read_exact (Z.of_nat (length [u_data_magic u]))).
  eat_bytes HR. eat_bytes HR.
  rewrite bind_tell. autorewrite with world. cbn [length].
  replace (negb (Z.of_nat (pos (stream w) + 2 + 2 + 1 + length data)
                 - Z.of_nat (pos (stream w)) + 8 =? ih_length ih))
    with false by (symmetry; apply negb_false_iff, Z.eqb_eq; lia).
  eexists. split; [reflexivity |]. split; [exact HR |].
  split; reflexivity.
Qed.

Lemma parse_file_layout :
  forall ih w u is_nv_file no_extra_data raw_name data r,
  remaining w = item_payload (FileRecord u is_nv_file raw_name data) ++ r ->
  item_fits (FileRecord u is_nv_file raw_name data) ->
  ih_length ih
    = 8 + Z.of_nat (length (item_payload
                              (FileRecord u is_nv_file raw_name data))) ->
  exists wm,
    _parse_file ih is_nv_file no_extra_data w =
      _save_to_file
        (fst (item_output no_extra_data
                (FileRecord u is_nv_file raw_name data)))
        data wm /\
    remaining wm = r /\ saved wm = saved w /\
    file_system wm = file_system w.
Proof.
  intros ih w u is_nv_file no_extra_data raw_name data r HR
    [_ [Hname Hdata]] Hlen.
  cbn [item_payload] in *. rewrite <- !app_assoc in HR.
  rewrite !length_app, !length_le_bytes in Hlen. cbn [length] in Hlen.
  unfold _parse_file. rewrite bind_tell.
  eat_H HR. cbn [Z.eqb Pos.eqb negb].
  eat_H HR. eat_bytes HR.
  rewrite file_name_expr by lia. rewrite Nat2Z.id.
  eat_H HR. cbn [Z.eqb Pos.eqb negb].
  eat_H HR. cbv beta zeta.
  replace (Z.of_nat (length data) + 1 - 1) with (Z.of_nat (length data))
    by lia.
  change (_read_exact 1)
    with (_read_exact (Z.of_nat (length [u_data_magic u]))).
  eat_bytes HR. eat_bytes HR.
  rewrite bind_tell. autorewrite with world. cbn [length].
  replace (negb (Z.of_nat (pos (stream w) + 2 + 2 + length raw_name + 2 + 2
                           + 1 + length data)
                 - Z.of_nat (pos (stream w)) + 8 =? ih_length ih))
    with false by (symmetry; apply negb_false_iff, Z.eqb_eq; lia).
  eexists. split; [reflexivity |]. split; [exact HR |].
  split; reflexivity.
Qed.

Lemma item_payload_length : forall it,
  item_fits it ->
  0 <= 8 + Z.of_nat (length (item_payload it)) < 4294967296.
Proof.
  intros [u nv_id data | u b raw_name data] [_ Hfit];
    cbn [item_payload]; rewrite !length_app, !length_le_bytes;
    cbn [length]; lia.
Qed.

Lemma item_kind_val : forall it,
  byte_val (item_kind it) =
  match it with
  | NvRecord _ _ _ => ItemType.Nv
  | FileRecord _ true _ _ => ItemType.NvFile
  | FileRecord _ false _ _ => ItemType.File
  end.
Proof. intros [u nv_id data | u [|] raw_name data]; reflexivity. Qed.

Lemma parse_item_layout : forall no_extra_data w it r,
  remaining w = item_bytes it ++ r ->
  item_fits it ->
  exists wm,
    parse_item no_extra_data w =
      _save_to_file (fst (item_output no_extra_data it))
        (snd (item_output no_extra_data it)) wm /\
    remaining wm = r /\ saved wm = saved w /\
    file_system wm = file_system w.
Proof.
  intros no_extra_data w it r HR Hfit.
  pose proof (item_payload_length it Hfit) as Hlen.
  destruct Hfit as [Hres Hfit'].
  assert (Hfit : item_fits it) by (split; assumption).
  unfold item_bytes in HR.
  set (len := 8 + Z.of_nat (length (item_payload it))) in *.
  set (hd := le_bytes 4 len
             ++ [item_kind it; u_attributes (item_unchecked it)]
             ++ le_bytes 2 (u_reserved (item_unchecked it))).
  assert (HR' : remaining w = hd ++ (item_payload it ++ r)).
  { rewrite HR. unfold hd. now rewrite <- !app_assoc. }
  clear HR.
  unfold parse_item, _read_item_header. rewrite bind_assoc.
  change 8 with (Z.of_nat (length hd)).
  eat_bytes HR'.
  change (length hd) with 8%nat in *.
  unfold bind at 1.
  assert (Hu : unpack_IBBH hd (advance w 8) =
               (Ok (mkItemHeader len (byte_val (item_kind it))
                      (byte_val (u_attributes (item_unchecked it)))
                      (u_reserved (item_unchecked it))), advance w 8)).
  { unfold unpack_IBBH. change (length hd =? 8)%nat with true.
    unfold ret. do 3 f_equal.
    - change (firstn 4 hd) with (le_bytes 4 len).
      apply le_int_le_bytes. exact Hlen.
    - change (firstn 1 (skipn 4 hd)) with [item_kind it].
      cbn [le_int]. lia.
    - change (firstn 1 (skipn 5 hd))
        with [u_attributes (item_unchecked it)].
      cbn [le_int]. lia.
    - change (skipn 6 hd) with (le_bytes 2 (u_reserved (item_unchecked it))).
      apply le_int_le_bytes. exact Hres. }
  rewrite Hu. unfold dispatch. cbv zeta. cbn [ih_type].
  rewrite item_kind_val.
  destruct it as [u nv_id data | u [|] raw_name data];
    cbn [Z.eqb ItemType.Nv ItemType.NvFile ItemType.File Pos.eqb].
  - destruct (parse_nv_layout
                (mkItemHeader len 1 (byte_val (u_attributes u)) (u_reserved u))
                (advance w 8) u nv_id data r HR' Hfit eq_refl)
      as [wm [H1 [H2 [H3 H4]]]].
    exists wm. auto.
  - destruct (parse_file_layout
                (mkItemHeader len 2 (byte_val (u_attributes u)) (u_reserved u))
                (advance w 8) u true no_extra_data raw_name data r
                HR' Hfit eq_refl) as [wm [H1 [H2 [H3 H4]]]].
    exists wm. auto.
  - destruct (parse_file_layout
                (mkItemHeader len 4 (byte_val (u_attributes u)) (u_reserved u))
                (advance w 8) u false no_extra_data raw_name data r
                HR' Hfit eq_refl) as [wm [H1 [H2 [H3 H4]]]].
    exists wm. auto.
Qed.

(** The records of the items, when the file system writes the file of
    each. *)
Lemma items_layout : forall no_extra_data items w r,
  remaining w = concat (map item_bytes items) ++ r ->
  Forall item_fits items ->
  accepts_all (file_system w) (saved w)
    (map (item_output no_extra_data) items) ->
  exists w',
    for_range (length items) (parse_item no_extra_data) w = (Ok tt, w') /\
    remaining w' = r /\
    saved w' = saved w ++ map (item_output no_extra_data) items.
Proof.
  intros no_extra_data items.
  induction items as [| it items IH]; intros w r HR Hfit Hacc.
  - exists w. cbn [length for_range map concat app] in *.
    split; [reflexivity |]. split; [exact HR | now rewrite app_nil_r].
  - inversion Hfit as [| x l Hit Hrest]; subst.
    cbn [map concat] in HR. rewrite <- app_assoc in HR.
    cbn [map accepts_all] in Hacc. destruct Hacc as [Hfs Hacc].
    destruct (parse_item_layout no_extra_data w it _ HR Hit)
      as [wm [H1 [H2 [H3 H4]]]].
    rewrite <- H4, <- H3 in Hfs.
    rewrite (save_accepted _ _ _ Hfs) in H1.
    set (w1 := with_saved wm (fst (item_output no_extra_data it))
                 (snd (item_output no_extra_data it))) in *.
    assert (Hs1 : saved w1 = saved w ++ [item_output no_extra_data it]).
    { unfold w1, with_saved. cbn [saved]. rewrite H3.
      now destruct (item_output no_extra_data it). }
    destruct (IH w1 r H2 Hrest) as [w' [H5 [H6 H7]]].
    { unfold w1 at 1. unfold with_saved at 1. cbn [file_system].
      rewrite H4, Hs1. exact Hacc. }
    exists w'. cbn [length for_range]. unfold bind. rewrite H1.
    split; [exact H5 |]. split; [exact H6 |].
    rewrite H7, Hs1, <- app_assoc. reflexivity.
Qed.

(** The records of the items, when the file system refuses the file of the
    item at index [k] after it wrote the files before. *)
Lemma items_layout_refused : forall no_extra_data items w r k o cls msg,
  remaining w = concat (map item_bytes items) ++ r ->
  Forall item_fits items ->
  nth_error (map (item_output no_extra_data) items) k = Some o ->
  accepts_all (file_system w) (saved w)
    (firstn k (map (item_output no_extra_data) items)) ->
  file_system w
    (saved w ++ firstn k (map (item_output no_extra_data) items))
    (fst o) (snd o) = Some (cls, msg) ->
  exists w',
    for_range (length items) (parse_item no_extra_data) w
      = (Raise (LibraryError cls msg), w') /\
    saved w' = saved w ++ firstn k (map (item_output no_extra_data) items).
Proof.
  intros no_extra_data items.
  induction items as [| it items IH];
    intros w r k o cls msg HR Hfit Hnth Hacc Href.
  - destruct k; discriminate.
  - inversion Hfit as [| x l Hit Hrest]; subst.
    cbn [map concat] in HR. rewrite <- app_assoc in HR.
    destruct (parse_item_layout no_extra_data w it _ HR Hit)
      as [wm [H1 [H2 [H3 H4]]]].
    cbn [length for_range]. unfold bind.
    destruct k as [| k].
    + cbn [map nth_error firstn] in *. inversion Hnth; subst o.
      rewrite app_nil_r in Href. rewrite <- H4, <- H3 in Href.
      rewrite (save_refused _ _ _ _ _ Href) in H1. rewrite H1.
      exists wm. split; [reflexivity |]. now rewrite app_nil_r.
    + cbn [map nth_error firstn accepts_all] in *.
      destruct Hacc as [Hfs Hacc].
      rewrite <- H4, <- H3 in Hfs.
      rewrite (save_accepted _ _ _ Hfs) in H1. rewrite H1.
      set (w1 := with_saved wm (fst (item_output no_extra_data it))
                   (snd (item_output no_extra_data it))) in *.
      assert (Hs1 : saved w1 = saved w ++ [item_output no_extra_data it]).
      { unfold w1, with_saved. cbn [saved]. rewrite H3.
        now destruct (item_output no_extra_data it). }
      assert (Hf1 : file_system w1 = file_system w) by exact H4.
      destruct (IH w1 r k o cls msg H2 Hrest Hnth) as [w' [H5 H6]].
      * rewrite Hf1, Hs1. exact Hacc.
      * rewrite Hf1, Hs1, <- app_assoc. exact Href.
      * exists w'. split; [exact H5 |].
        rewrite H6, Hs1, <- app_assoc. reflexivity.
Qed.

Lemma trailer_layout : forall w record_length reserved r,
  remaining w = trailer_bytes record_length reserved ++ r ->
  0 <= reserved < 65536 ->
  exists w',
    _read_trailer w = (Ok tt, w') /\ remaining w' = r /\ saved w' = saved w.
Proof.
  intros w record_length reserved r HR Hres.
  unfold trailer_bytes in HR. rewrite <- !app_assoc in HR.
  unfold _read_trailer.
  change (_read_exact 4)
    with (_read_exact (Z.of_nat (length (le_bytes 4 record_length)))).
  eat_bytes HR. cbv beta.
  eat_H HR. cbn [Z.eqb Pos.eqb negb].
  change (_read_exact 2)
    with (_read_exact (Z.of_nat (length (le_bytes 2 reserved)))).
  eat_bytes HR. cbv beta.
  eat_H HR. cbn [Z.eqb Pos.eqb negb].
  eat_H HR. cbn [Z.ltb Z.compare Pos.compare Pos.compare_cont].
  change (16 - 8) with (Z.of_nat (length TRAILER_MAGIC)).
  eat_bytes HR.
  change (decode_ascii_ignore TRAILER_MAGIC) with "MCFG_TRL"%string.
  change (decode_ascii TRAILER_MAGIC) with "MCFG_TRL"%string.
  cbn [String.eqb Ascii.eqb Bool.eqb negb andb].
  eexists. split; [reflexivity |]. split; [exact HR | reflexivity].
Qed.

Lemma header_layout : forall w h r,
  remaining w = header_bytes h ++ r ->
  header_fits h ->
  header_fields w = (Ok h, advance w 24) /\ remaining (advance w 24) = r.
Proof.
  intros w h r HR [Hm [Hft [Hct [Hic [Hci [Hrs Hv]]]]]].
  unfold header_bytes in HR. rewrite <- !app_assoc in HR.
  unfold header_fields.
  eat_bytes HR. eat_H HR. eat_H HR. eat_I HR. eat_H HR. eat_H HR.
  eat_H HR. cbn [Z.eqb Pos.eqb negb].
  eat_H HR. cbn [Z.eqb Pos.eqb negb].
  eat_I HR.
  rewrite !advance_advance in *.
  change (length MAGIC + 2 + 2 + 4 + 2 + 2 + 2 + 2 + 4)%nat with 24%nat in *.
  split; [| exact HR].
  unfold ret. do 2 f_equal.
  destruct h as [m ft ct ic ci rs v]. cbn in *. subst m. reflexivity.
Qed.

Lemma find_magic_at_start : forall fs r,
  _find_magic_and_seek MAGIC (fresh_world fs (MAGIC ++ r))
  = (Ok tt, fresh_world fs (MAGIC ++ r)).
Proof. intros fs r. reflexivity. Qed.

(** ** X16: every well-formed image is extracted

    X16. Take a header with the magic [MCFG] and fields in range, a list of
    items whose sizes fit their 16-bit fields, and a count of the number of
    items plus one. On the bytes of that header, of the records of the
    items in order and of a trailer, followed by any bytes, the header read
    is that header, and the outcome depends on the file system alone. When
    it writes the file of every item, extraction succeeds, the files saved
    are those of the items, in order, and the cursor stops right behind
    the trailer. When it writes the files of the first [k] items and
    refuses the next one, extraction raises the exception of the file
    system with those [k] files saved. *)
Theorem well_formed_image_is_extracted :
  forall fs no_extra_data h items trailer_length trailer_reserved after,
  header_fits h ->
  items_count h = Z.of_nat (length items) + 1 ->
  Forall item_fits items ->
  0 <= trailer_reserved < 65536 ->
  let b := image_bytes h items trailer_length trailer_reserved in
  let outs := map (item_output no_extra_data) items in
  fst (_read_mcfg_header (fresh_world fs (b ++ after))) = Ok h
  /\
  (accepts_all fs [] outs ->
   exists w',
     _parse_image no_extra_data (fresh_world fs (b ++ after)) = (Ok tt, w') /\
     saved w' = outs /\
     pos (stream w') = length b)
  /\
  (forall k o cls msg,
     nth_error outs k = Some o ->
     accepts_all fs [] (firstn k outs) ->
     fs (firstn k outs) (fst o) (snd o) = Some (cls, msg) ->
     exists w',
       _parse_image no_extra_data (fresh_world fs (b ++ after))
         = (Raise (LibraryError cls msg), w') /\
       saved w' = firstn k outs).
Proof.
  intros fs no_extra_data h items tl tr after Hh Hcount Hitems Htr b outs.
  set (w0 := fresh_world fs (b ++ after)).
  assert (HR0 : remaining w0 = header_bytes h ++
                  (concat (map item_bytes items)
                   ++ (trailer_bytes tl tr ++ after))).
  { unfold w0, remaining, fresh_world, b, image_bytes.
    cbn [stream pos buf skipn]. now rewrite <- !app_assoc. }
  assert (Hfind : _find_magic_and_seek MAGIC w0 = (Ok tt, w0)).
  { unfold w0, b, image_bytes, header_bytes. rewrite <- !app_assoc.
    apply find_magic_at_start. }
  destruct (header_layout w0 h _ HR0 Hh) as [Hhdr HR1].
  assert (Hloop_eq : forall r w2,
    for_range (length items) (parse_item no_extra_data) (advance w0 24)
      = (r, w2) ->
    image_after_magic no_extra_data w0 =
      match r with
      | Ok _ => _read_trailer w2
      | Raise e => (Raise e, w2)
      end).
  { intros r w2 Hloop. unfold image_after_magic, bind. rewrite Hhdr.
    replace (items_count h =? 0) with false
      by (symmetry; apply Z.eqb_neq; lia).
    cbv zeta.
    replace (Z.to_nat (Z.max 0 (items_count h - 1))) with (length items)
      by lia.
    rewrite Hloop. reflexivity. }
  split; [| split].
  - rewrite read_mcfg_header_split. unfold bind. rewrite Hfind, Hhdr.
    reflexivity.
  - intro Hacc.
    destruct (items_layout no_extra_data items (advance w0 24) _ HR1 Hitems
                Hacc) as [w2 [Hloop [HR2 Hs2]]].
    destruct (trailer_layout w2 tl tr after HR2 Htr) as [w3 [Htrl [HR3 Hs3]]].
    assert (Himg : image_after_magic no_extra_data w0 = (Ok tt, w3))
      by (rewrite (Hloop_eq _ _ Hloop); exact Htrl).
    exists w3. split; [| split].
    + rewrite parse_image_split. unfold bind. rewrite Hfind. exact Himg.
    + rewrite Hs3, Hs2. reflexivity.
    + apply keeps_image_after_magic in Himg.
      destruct Himg as [Hb [_ [Hle _]]].
      specialize (Hle ltac:(unfold w0; cbn; lia)).
      unfold remaining in HR3. rewrite Hb in *.
      change (buf (stream w0)) with (b ++ after) in *.
      apply (f_equal (@length byte)) in HR3.
      rewrite length_skipn, length_app in HR3. rewrite length_app in Hle.
      lia.
  - intros k o cls msg Hnth Hacc Href.
    destruct (items_layout_refused no_extra_data items (advance w0 24) _
                k o cls msg HR1 Hitems Hnth Hacc Href) as [w2 [Hloop Hs2]].
    exists w2. split; [| exact Hs2].
    rewrite parse_image_split. unfold bind. rewrite Hfind.
    rewrite (Hloop_eq _ _ Hloop). reflexivity.
Qed.

Lemma well_formed_image_witness :
  (exists w',
     _parse_image false
       (fresh_world sample_fs
          (image_bytes (mkMcfgHeader "MCFG" 1 2 3 5 0 9)
             [NvRecord (mkUnchecked x00 0 x00) 7 [xaa; xbb];
              FileRecord (mkUnchecked x00 0 x00) false
                (bytes_of_string "abc" ++ [x00]) [xcc]] 20 0 ++ []))
     = (Ok tt, w') /\
     saved w' = [("NvItem__00000007"%string, [xaa; xbb]);
                 ("abc__81FF_0"%string, [xcc])])
  /\
  (exists w',
     _parse_image true
       (fresh_world sample_fs
          (image_bytes (mkMcfgHeader "MCFG" 1 2 3 5 0 9)
             [NvRecord (mkUnchecked x00 0 x00) 7 [xaa; xbb];
              FileRecord (mkUnchecked x00 0 x00) false [x00] [xcc]]
             20 0 ++ []))
     = (Raise (LibraryError "IsADirectoryError" "Is a directory"), w') /\
     saved w' = [("NvItem__00000007"%string, [xaa; xbb])]).
Proof.
  split.
  - destruct (well_formed_image_is_extracted sample_fs false
                (mkMcfgHeader "MCFG" 1 2 3 5 0 9)
                [NvRecord (mkUnchecked x00 0 x00) 7 [xaa; xbb];
                 FileRecord (mkUnchecked x00 0 x00) false
                   (bytes_of_string "abc" ++ [x00]) [xcc]] 20 0 [])
      as [_ [H _]].
    + unfold header_fits. cbn. repeat split; try reflexivity; lia.
    + reflexivity.
    + repeat constructor; cbn; lia.
    + lia.
    + destruct H as [w' [H1 [H2 _]]].
      * vm_compute. auto.
      * exists w'. split; [exact H1 |]. rewrite H2. vm_compute. reflexivity.
  - destruct (well_formed_image_is_extracted sample_fs true
                (mkMcfgHeader "MCFG" 1 2 3 5 0 9)
                [NvRecord (mkUnchecked x00 0 x00) 7 [xaa; xbb];
                 FileRecord (mkUnchecked x00 0 x00) false [x00] [xcc]]
                20 0 [])
      as [_ [_ H]].
    + unfold header_fits. cbn. repeat split; try reflexivity; lia.
    + reflexivity.
    + repeat constructor; cbn; lia.
    + lia.
    + destruct (H 1%nat (EmptyString, [xcc]) "IsADirectoryError"%string
                  "Is a directory"%string) as [w' [H1 H2]].
      * vm_compute. reflexivity.
      * vm_compute. auto.
      * vm_compute. reflexivity.
      * exists w'. split; [exact H1 |]. rewrite H2. vm_compute. reflexivity.
Defined.
